(** * Arduino data logger (ver8.py): filtering, smoothing, experiment store,
      CSV persistence and the hover query of the plot.

    The Python program is embedded shallowly.  A Python [float] is an IEEE 754
    binary64 number, which is exactly what Rocq's primitive [float] is, so the
    arithmetic of the program is executed bit for bit.  A Python [int] is [Z].
    The dictionary [self.experiments] is a [gmap Z (list (float * float))].
    Code that can raise runs in the exception monad [exc]. *)

From Stdlib Require Import ZArith List Bool Lia String Ascii Floats QArith Lqa.
From Stdlib Require Import DecimalString DecimalZ DecimalFacts.
From stdpp Require Import gmap strings list fin_maps sorting.

Local Open Scope Z_scope.
Local Open Scope list_scope.

(** ** The part of the Python runtime the program relies on *)

Module Py.

(** The built-in exceptions that the modelled code can meet. *)
Inductive exn : Set :=
| StatisticsError
| ZeroDivisionError
| IndexError
| KeyError
| ValueError
| OSError
| OverflowError
| AttributeError.

Inductive exc (A : Type) : Type :=
| Return (a : A)
| Raise (e : exn).
Global Arguments Return {A} a.
Global Arguments Raise {A} e.

Definition exc_bind {A B : Type} (f : A → exc B) (c : exc A) : exc B :=
  match c with
  | Return a => f a
  | Raise e => Raise e
  end.

Global Instance exc_mret : MRet exc := λ A a, Return a.
Global Instance exc_mbind : MBind exc := λ A B f c, exc_bind f c.

(** [len(l)] *)
Definition len {A : Type} (l : list A) : Z := Z.of_nat (length l).

(** [float(n)] for an [int] n.  Container sizes and pixel coordinates stay
    far below 2^63, the range in which [of_uint63] is the correctly rounded
    conversion. *)
Definition float_of_int (n : Z) : float :=
  if n <? 0 then PrimFloat.opp (PrimFloat.of_uint63 (Uint63.of_Z (- n)))
  else PrimFloat.of_uint63 (Uint63.of_Z n).

(** How a slice bound is clamped against the length [n] of the sequence:
    a negative bound counts from the end, and every bound is brought into
    [0 .. n]. *)
Definition slice_index (n : nat) (i : Z) : nat :=
  if i <? 0 then Z.to_nat (Z.max 0 (Z.of_nat n + i))
  else Z.to_nat (Z.min i (Z.of_nat n)).

(** [l[start:]] *)
Definition slice_from {A : Type} (l : list A) (start : Z) : list A :=
  drop (slice_index (length l) start) l.

(** [l[start:stop]] *)
Definition slice {A : Type} (l : list A) (start stop : Z) : list A :=
  let s := slice_index (length l) start in
  let e := slice_index (length l) stop in
  take (e - s)%nat (drop s l).

(** [l[i]], raising [IndexError] out of range. *)
Definition getitem {A : Type} (l : list A) (i : Z) : exc A :=
  let j := if i <? 0 then Z.of_nat (length l) + i else i in
  if j <? 0 then Raise IndexError
  else match l !! Z.to_nat j with
       | Some x => Return x
       | None => Raise IndexError
       end.

(** The numbers [sum(...)] and [/] are applied to.  The program runs on
    [float]; the same text read over the rationals is the exact arithmetic
    the rounding of the floats approximates. *)
Class Number (A : Type) : Type := {
  zero : A;
  plus : A → A → A;
  divide_by_int : A → Z → A
}.

Global Instance float_Number : Number float := {|
  zero := 0%float;
  plus := PrimFloat.add;
  divide_by_int x n := PrimFloat.div x (float_of_int n)
|}.

Global Instance Q_Number : Number Q := {|
  zero := 0%Q;
  plus := Qplus;
  divide_by_int x n := Qdiv x (inject_Z n)
|}.

(** [sum(l)]: the items are added from the left, starting from [0]. *)
Definition sum {A : Type} `{Number A} (l : list A) : A :=
  fold_left plus l zero.

(** [x / n] with [n] an [int]: raises on [n = 0]. *)
Definition truediv {A : Type} `{Number A} (x : A) (n : Z) : exc A :=
  if n =? 0 then Raise ZeroDivisionError else Return (divide_by_int x n).

(** [math.isfinite(x)]: neither an infinity nor a NaN. *)
Definition is_finite (x : float) : bool :=
  match Prim2SF x with
  | S754_zero _ | S754_finite _ _ _ => true
  | _ => false
  end.

(** [n.bit_length()] *)
Definition bit_length (n : Z) : Z := if n =? 0 then 0 else Z.log2 (Z.abs n) + 1.

(** The integer nearest to [n / d] for [0 < d], a tie going to the even
    one. *)
Definition round_half_even (n d : Z) : Z :=
  let q := n / d in
  match 2 * (n mod d) ?= d with
  | Lt => q
  | Gt => q + 1
  | Eq => if Z.even q then q else q + 1
  end.

(** The binary64 number of sign [s] and magnitude [m * 2^e], for a
    mantissa [m] of at most 53 bits, or [2^53], the carry of a rounding. *)
Definition of_binary (s : bool) (m e : Z) : float :=
  if m =? 0 then (if s then (-0)%float else 0%float)
  else if m =? 2 ^ 53 then SF2Prim (S754_finite s (Z.to_pos (2 ^ 52)) (e + 1))
  else SF2Prim (S754_finite s (Z.to_pos m) e).

(** [a / b] for two [int]s: the quotient is rounded once, to the nearest
    binary64 number (a tie to the even one); a quotient that rounds beyond
    the largest one raises [OverflowError].  The quotient is taken in the
    unit [2^-1074], the spacing of the smallest binary64 numbers, and [sh]
    is the number of its bits that do not fit the mantissa. *)
Definition int_truediv (a b : Z) : exc float :=
  if b =? 0 then Raise ZeroDivisionError
  else
    let s := xorb (a <? 0) (b <? 0) in
    let n := Z.abs a * 2 ^ 1074 in
    let d := Z.abs b in
    let j := Z.log2 n - Z.log2 d in
    let j := if n <? d * 2 ^ j then j - 1 else j in
    let sh := Z.max 0 (j - 52) in
    let m := round_half_even n (d * 2 ^ sh) in
    if (2045 <? sh) || ((sh =? 2045) && (m =? 2 ^ 53)) then Raise OverflowError
    else Return (of_binary s m (sh - 1074)).

End Py.
Import Py.

(** ** The two functions of the [statistics] module that are called

    Both are transcribed from the library of CPython 3.11 ([statistics.py]),
    restricted to sequences of [float]s, the only ones the program passes.
    The library adds the items up exactly, as fractions, and rounds once at
    the end.  Every finite binary64 number is an integer multiple of
    [2^-1074]; the exact sums are kept here as integers in that unit.  An
    infinity or a NaN has no exact ratio: [mean] then returns what the
    floating-point sum of these items gives, and [pstdev] fails with
    [AttributeError], because it asks that floating-point number for its
    numerator.  Both raise [StatisticsError] on an empty sequence. *)

Module statistics.

(** [_exact_ratio(x)], as the numerator over the denominator [2^1074];
    [None] for an infinity or a NaN. *)
Definition exact_ratio (x : float) : option Z :=
  match Prim2SF x with
  | S754_zero _ => Some 0
  | S754_finite s m e => Some (cond_Zopp s (Z.pos m * 2 ^ (e + 1074)))
  | _ => None
  end.

(** The exact sum of the items and the exact sum of their squares (the
    partial sums of [_sum] and [_ss]); [None] when an item has no exact
    ratio. *)
Fixpoint exact_sums (data : list float) : option (Z * Z) :=
  match data with
  | [] => Some (0, 0)
  | x :: rest =>
      match exact_ratio x, exact_sums rest with
      | Some n, Some (sx, sxx) => Some (n + sx, n * n + sxx)
      | _, _ => None
      end
  end.

(** [partials[None]]: the floating-point sum of the items that have no
    exact ratio. *)
Definition special_sum (data : list float) : float :=
  fold_left (λ total x, if is_finite x then total else PrimFloat.add total x)
            data 0%float.

(** [mean(data)]: [_convert(total / n, float)], the exact mean converted by
    the division of its numerator by its denominator. *)
Definition mean (data : list float) : exc float :=
  match data with
  | [] => Raise StatisticsError
  | _ =>
      match exact_sums data with
      | Some (sx, _) => int_truediv sx (len data * 2 ^ 1074)
      | None => Return (PrimFloat.div (special_sum data) (float_of_int (len data)))
      end
  end.

(** [_integer_sqrt_of_frac_rto(n, m)]: the square root of [n / m] as an
    integer, rounded to odd. *)
Definition integer_sqrt_of_frac_rto (n m : Z) : Z :=
  let a := Z.sqrt (n / m) in
  Z.lor a (if a * a * m =? n then 0 else 1).

(** [_float_sqrt_of_frac(n, m)]; the constant is [_sqrt_bit_width]. *)
Definition float_sqrt_of_frac (n m : Z) : exc float :=
  let q := (bit_length n - bit_length m - 109) / 2 in
  if 0 <=? q then
    int_truediv (Z.shiftl (integer_sqrt_of_frac_rto n (Z.shiftl m (2 * q))) q) 1
  else
    int_truediv (integer_sqrt_of_frac_rto (Z.shiftl n (- 2 * q)) m) (Z.shiftl 1 (- q)).

(** [pstdev(data)]: with [sx] and [sxx] the two exact sums, the mean square
    deviation is [(count * sxx - sx * sx) / count / count], a fraction in
    lowest terms, of which the square root is taken. *)
Definition pstdev (data : list float) : exc float :=
  match data with
  | [] => Raise StatisticsError
  | _ =>
      match exact_sums data with
      | Some (sx, sxx) =>
          let count := len data in
          let num := count * sxx - sx * sx in
          let den := count * count * (2 ^ 1074 * 2 ^ 1074) in
          let g := Z.gcd num den in
          float_sqrt_of_frac (num / g) (den / g)
      | None => Raise AttributeError
      end
  end.

End statistics.

(** ** Filtering and smoothing (ver8.py, lines 28-70) *)

Definition sigma_filter_last (values : list float) (window_size : Z) (k : float)
  : exc float :=
  match values with
  | [] => Return PrimFloat.nan
  | _ =>
      let w := Z.min window_size (len values) in
      let window := slice_from values (- w) in
      if len window <? 2 then getitem values (-1)
      else
        mean ← statistics.mean window;
        std ← statistics.pstdev window;
        if PrimFloat.eqb std 0%float then getitem values (-1)
        else
          x ← getitem values (-1);
          if PrimFloat.ltb (PrimFloat.mul k std) (PrimFloat.abs (PrimFloat.sub x mean))
          then Return mean
          else Return x
  end.

Section MovingAverage.
Context {A : Type} `{Number A}.

(** The body of [for i in range(len(data))], run over the indices that are
    left, with [result] the list built so far. *)
Fixpoint moving_average_loop (data : list A) (window_size : Z)
    (indices : list nat) (result : list A) : exc (list A) :=
  match indices with
  | [] => Return result
  | i :: rest =>
      let start := Z.max 0 (Z.of_nat i - window_size / 2) in
      let end_ := Z.min (len data) (Z.of_nat i + window_size / 2 + 1) in
      let window := slice data start end_ in
      x ← truediv (sum window) (len window);
      moving_average_loop data window_size rest (result ++ [x])
  end.

Definition moving_average (data : list A) (window_size : Z) : exc (list A) :=
  if len data <=? 1 then Return data
  else moving_average_loop data window_size (seq 0 (length data)) [].

End MovingAverage.

(** ** The application state (class [ArduinoDataApp])

    Of the widgets only what the claims speak of is kept: the lines inserted
    into [log_text] and the message boxes shown, both recorded in [ui]. *)

Definition sample : Type := float * float.   (* (timestamp, value) *)

Inductive message : Set :=
| NoPortSelected | PyserialMissing | ConnectFailed
| NothingToSave | SaveSucceeded | SaveFailed
| LoadSucceeded | LoadFailed.

Inductive ui_event : Type :=
| ShowError (m : message)
| ShowWarning (m : message)
| ShowInfo (m : message)
| LogStarted (exp_num : Z)
| LogFinished (exp_num : Z)
| LogSummary (count : Z) (mean_val : float)
| LogCleared
| LogLoaded (filename : string)
| LogCount (exp_num : Z) (count : Z)
| Printed (e : exn).

Record ArduinoDataApp : Type := {
  is_recording : bool;
  data_queue : list sample;
  experiments : gmap Z (list sample);
  current_experiment : Z;
  serial_port : bool;          (* [True] while a port object is held *)
  ui : list ui_event
}.

(** [__init__] *)
Definition init : ArduinoDataApp := {|
  is_recording := false;
  data_queue := [];
  experiments := ∅;
  current_experiment := 1;
  serial_port := false;
  ui := []
|}.

Definition set_experiments (e : gmap Z (list sample)) (a : ArduinoDataApp) :=
  {| is_recording := is_recording a; data_queue := data_queue a;
     experiments := e; current_experiment := current_experiment a;
     serial_port := serial_port a; ui := ui a |}.

Definition set_current_experiment (c : Z) (a : ArduinoDataApp) :=
  {| is_recording := is_recording a; data_queue := data_queue a;
     experiments := experiments a; current_experiment := c;
     serial_port := serial_port a; ui := ui a |}.

Definition set_is_recording (b : bool) (a : ArduinoDataApp) :=
  {| is_recording := b; data_queue := data_queue a;
     experiments := experiments a; current_experiment := current_experiment a;
     serial_port := serial_port a; ui := ui a |}.

Definition set_serial_port (b : bool) (a : ArduinoDataApp) :=
  {| is_recording := is_recording a; data_queue := data_queue a;
     experiments := experiments a; current_experiment := current_experiment a;
     serial_port := b; ui := ui a |}.

Definition put (s : sample) (a : ArduinoDataApp) :=
  {| is_recording := is_recording a; data_queue := data_queue a ++ [s];
     experiments := experiments a; current_experiment := current_experiment a;
     serial_port := serial_port a; ui := ui a |}.

Definition emit (evs : list ui_event) (a : ArduinoDataApp) :=
  {| is_recording := is_recording a; data_queue := data_queue a;
     experiments := experiments a; current_experiment := current_experiment a;
     serial_port := serial_port a; ui := ui a ++ evs |}.

(** ** Starting and stopping an experiment (lines 221-292) *)

Inductive mode : Set := simulator | real.

(** What [start_experiment] finds outside the program: the selected mode and
    port, whether [import serial] succeeds, whether the port opens. *)
Record start_env : Type := {
  mode_var : mode;
  port_var : string;
  pyserial_installed : bool;
  port_opens : bool
}.

Definition start_experiment (env : start_env) (a : ArduinoDataApp) : ArduinoDataApp :=
  let a :=
    match experiments a !! current_experiment a with
    | None => set_experiments (<[current_experiment a := []]> (experiments a)) a
    | Some _ => a
    end in
  let begin (a : ArduinoDataApp) :=
    emit [LogStarted (current_experiment a)] (set_is_recording true a) in
  match mode_var env with
  | simulator => begin a
  | real =>
      if String.eqb (port_var env) EmptyString then emit [ShowError NoPortSelected] a
      else if negb (pyserial_installed env) then emit [ShowError PyserialMissing] a
      else if negb (port_opens env) then emit [ShowError ConnectFailed] a
      else begin (set_serial_port true a)
  end.

Definition stop_experiment (a : ArduinoDataApp) : exc ArduinoDataApp :=
  let a := set_serial_port false (set_is_recording false a) in
  let data := default [] (experiments a !! current_experiment a) in
  a ← match data with
      | [] => Return a
      | _ =>
          let values := map snd data in
          let count := len values in
          mean_val ← truediv (sum values) count;
          Return (emit [LogFinished (current_experiment a);
                        LogSummary count mean_val] a)
      end;
  Return (set_current_experiment (current_experiment a + 1) a).

(** ** Acquisition (lines 296-333)

    One pass through the body of [while self.is_recording].  [reading] is
    what the source delivered: [Some value] from the simulator or from a line
    of the device that parsed, [None] for the two [continue] paths (no data
    waiting, or a line that is not a number).  An exception inside the body
    is caught by [except Exception], printed, and the pass ends. *)

Definition collect_data_body (timestamp : float) (reading : option float)
    (a : ArduinoDataApp) : ArduinoDataApp :=
  match reading with
  | None => a
  | Some value =>
      match experiments a !! current_experiment a with
      | None => emit [Printed KeyError] a
      | Some exp_list =>
          let raw_values := map snd exp_list ++ [value] in
          match sigma_filter_last raw_values 10 3%float with
          | Raise e => emit [Printed e] a
          | Return filtered_value =>
              put (timestamp, filtered_value)
                (set_experiments
                   (<[current_experiment a := exp_list ++ [(timestamp, filtered_value)]]>
                      (experiments a)) a)
          end
      end
  end.

(** The loop over the successive deliveries of the source; the flag is tested
    before each pass. *)
Fixpoint collect_data (feed : list (float * option float)) (a : ArduinoDataApp)
  : ArduinoDataApp :=
  match feed with
  | [] => a
  | (timestamp, reading) :: rest =>
      if is_recording a then collect_data rest (collect_data_body timestamp reading a)
      else a
  end.

(** ** Text of a CSV field

    A Python [str] read from a UTF-8 file is kept as its UTF-8 bytes: the
    letter U+042D is the two bytes D0 AD and U+044D the two bytes D1 8D, and
    because UTF-8 is self-synchronising, removing these byte pairs from the
    front is removing the two letters. *)

Local Open Scope string_scope.

(** The capital letter, which prefixes every label written, and the small
    one. *)
Definition cyrillic_E : string := String "208" (String "173" EmptyString).
Definition cyrillic_e : string := String "209" (String "141" EmptyString).

(** [s.lstrip(chars)] for [chars] made of the two letters above. *)
Fixpoint lstrip_E (s : string) : string :=
  match s with
  | String a (String b rest) =>
      if (Ascii.eqb a "208" && Ascii.eqb b "173") || (Ascii.eqb a "209" && Ascii.eqb b "141")
      then lstrip_E rest
      else s
  | _ => s
  end.

(** The white space that the parser of [int] skips: tab, line feed,
    vertical tab, form feed, carriage return and the space. *)
Definition is_space (a : ascii) : bool :=
  let n := nat_of_ascii a in
  ((9 <=? n) && (n <=? 13) || (n =? 32))%nat.

Definition is_digit (a : ascii) : bool :=
  let n := nat_of_ascii a in ((48 <=? n) && (n <=? 57))%nat.

Fixpoint lstrip_space (s : string) : string :=
  match s with
  | String a rest => if is_space a then lstrip_space rest else s
  | EmptyString => s
  end.

Fixpoint rstrip_space (s : string) : string :=
  match s with
  | EmptyString => EmptyString
  | String a rest =>
      match rstrip_space rest with
      | EmptyString => if is_space a then EmptyString else String a EmptyString
      | rest' => String a rest'
      end
  end.

(** An underscore is accepted between two digits and nowhere else; the
    result is the text without its underscores. *)
Fixpoint drop_underscores (after_digit : bool) (s : string) : option string :=
  match s with
  | EmptyString => Some EmptyString
  | String a rest =>
      if Ascii.eqb a "_" then
        match rest with
        | String b _ =>
            if after_digit && is_digit b then drop_underscores false rest else None
        | EmptyString => None
        end
      else String a <$> drop_underscores (is_digit a) rest
  end.

(** The parser of [int] in base ten, on text that is ASCII: surrounding
    white space, an optional sign, digits with single underscores between
    them.  [None] stands for [ValueError]. *)
Definition int_of_ascii (s : string) : option Z :=
  let body := rstrip_space (lstrip_space s) in
  let '(negative, digits) :=
    match body with
    | String "-" rest => (true, rest)
    | String "+" rest => (false, rest)
    | _ => (false, body)
    end in
  match drop_underscores false digits with
  | Some EmptyString | None => None
  | Some ds =>
      match NilEmpty.uint_of_string ds with
      | Some d => Some (if negative : bool then - Z.of_uint d else Z.of_uint d)
      | None => None
      end
  end.

(** Text without a byte above 127. *)
Fixpoint is_ascii_text (s : string) : bool :=
  match s with
  | EmptyString => true
  | String a rest => (nat_of_ascii a <? 128)%nat && is_ascii_text rest
  end.

(** A continuation byte of UTF-8 and the six bits it carries. *)
Definition continuation (a : ascii) : option N :=
  let b := N_of_ascii a in
  if (128 <=? b)%N && (b <? 192)%N then Some (b - 128)%N else None.

(** The code points of a text.  Text read from a file is well-formed UTF-8;
    on other bytes the answer is [None]. *)
Fixpoint utf8_decode (s : string) : option (list N) :=
  match s with
  | EmptyString => Some []
  | String a rest =>
      let b := N_of_ascii a in
      if (b <? 128)%N then cons b <$> utf8_decode rest
      else if (b <? 194)%N then None
      else if (b <? 224)%N then
        match rest with
        | String c1 rest =>
            x1 ← continuation c1;
            cons ((b - 192) * 64 + x1)%N <$> utf8_decode rest
        | _ => None
        end
      else if (b <? 240)%N then
        match rest with
        | String c1 (String c2 rest) =>
            x1 ← continuation c1;
            x2 ← continuation c2;
            let c := ((b - 224) * 4096 + x1 * 64 + x2)%N in
            if (c <? 2048)%N || ((55296 <=? c)%N && (c <? 57344)%N) then None
            else cons c <$> utf8_decode rest
        | _ => None
        end
      else if (b <? 245)%N then
        match rest with
        | String c1 (String c2 (String c3 rest)) =>
            x1 ← continuation c1;
            x2 ← continuation c2;
            x3 ← continuation c3;
            let c := ((b - 240) * 262144 + x1 * 4096 + x2 * 64 + x3)%N in
            if (c <? 65536)%N || (1114112 <=? c)%N then None
            else cons c <$> utf8_decode rest
        | _ => None
        end
      else None
  end.

(** The code points that hold the digit zero of a script: each begins a run
    of the ten decimal digits of that script (Unicode 14, the version that
    CPython 3.11 carries). *)
Definition decimal_zeros : list N :=
  [0x30; 0x660; 0x6f0; 0x7c0; 0x966; 0x9e6; 0xa66; 0xae6; 0xb66; 0xbe6;
   0xc66; 0xce6; 0xd66; 0xde6; 0xe50; 0xed0; 0xf20; 0x1040; 0x1090; 0x17e0;
   0x1810; 0x1946; 0x19d0; 0x1a80; 0x1a90; 0x1b50; 0x1bb0; 0x1c40; 0x1c50; 0xa620;
   0xa8d0; 0xa900; 0xa9d0; 0xa9f0; 0xaa50; 0xabf0; 0xff10; 0x104a0; 0x10d30; 0x11066;
   0x110f0; 0x11136; 0x111d0; 0x112f0; 0x11450; 0x114d0; 0x11650; 0x116c0; 0x11730; 0x118e0;
   0x11950; 0x11c50; 0x11d50; 0x11da0; 0x16a60; 0x16ac0; 0x16b50; 0x1d7ce; 0x1d7d8; 0x1d7e2;
   0x1d7ec; 0x1d7f6; 0x1e140; 0x1e2f0; 0x1e950; 0x1fbf0
  ]%N.

(** The white space above the ASCII range. *)
Definition unicode_spaces : list N :=
  [0x85; 0xa0; 0x1680; 0x2000; 0x2001; 0x2002; 0x2003; 0x2004; 0x2005; 0x2006;
   0x2007; 0x2008; 0x2009; 0x200a; 0x2028; 0x2029; 0x202f; 0x205f; 0x3000
  ]%N.

(** The value of a decimal digit of any script. *)
Definition to_decimal (c : N) : option N :=
  match List.filter (λ z, (z <=? c)%N && (c <? z + 10)%N) decimal_zeros with
  | z :: _ => Some (c - z)%N
  | [] => None
  end.

(** What [int] makes of a code point of text that is not ASCII, before it
    parses: a character below 127 stays, white space becomes a space, a
    decimal digit of any script becomes the ASCII digit, and anything else a
    question mark, on which the parser fails. *)
Definition to_ascii (c : N) : ascii :=
  if (c <? 127)%N then ascii_of_N c
  else if existsb (N.eqb c) unicode_spaces then " "%char
  else match to_decimal c with
       | Some d => ascii_of_N (48 + d)
       | None => "?"%char
       end.

(** [int(s)] in base ten for a [str].  CPython 3.11 refuses to convert more
    than 4300 digits, in [int(s)] as in [str(n)]; the limit is left out of
    both, and the theorem about the rows that a load accepts keeps to labels
    within it. *)
Definition int_of_str (s : string) : option Z :=
  if is_ascii_text s then int_of_ascii s
  else
    points ← utf8_decode s;
    int_of_ascii (string_of_list_ascii (map to_ascii points)).

(** [str(n)] for an [int]. *)
Definition str_of_int (n : Z) : string := NilEmpty.string_of_int (Z.to_int n).

(** ** Saving and loading (lines 371-435)

    The [csv] module is taken at the level it offers: a file is the list of
    its rows, a row the list of its fields.  The fields the program writes
    hold no comma, quote or line break, so [csv.writer] and [csv.reader]
    carry them unchanged. *)

Definition row : Type := list string.

Definition header : row :=
  ["Эксперимент"; "Время"; "Значение"; "Дата_и_время"].

Local Close Scope string_scope.

(** What reading the chosen file yields: [open] raises, or the reader
    delivers [rows] and then ends ([complete]) or raises (a line that is not
    UTF-8, a field beyond the reader's limit). *)
Inductive file_read : Type :=
| Unreadable
| Rows (rows : list row) (complete : bool).

Section Persistence.

(** Conversions of the Python runtime between [float] and text, and the
    rendering of a time stamp as local date and time, which raises on a
    time stamp outside the platform's range ([None]). *)
Variable str_of_float : float → string.
Variable float_of_str : string → option float.
Variable strftime_local : float → option string.

(** The rows of one experiment, appended to what is already [written];
    the second component is the exception that stopped the writing. *)
Fixpoint write_samples (exp_num : Z) (samples : list sample) (written : list row)
  : list row * option exn :=
  match samples with
  | [] => (written, None)
  | (timestamp, value) :: rest =>
      match strftime_local timestamp with
      | None => (written, Some ValueError)
      | Some dt =>
          write_samples exp_num rest
            (written ++ [[(cyrillic_E ++ str_of_int exp_num)%string;
                          str_of_float timestamp; str_of_float value; dt]])
      end
  end.

Fixpoint write_experiments (store : gmap Z (list sample)) (keys : list Z)
    (written : list row) : list row * option exn :=
  match keys with
  | [] => (written, None)
  | exp_num :: rest =>
      match write_samples exp_num (default [] (store !! exp_num)) written with
      | (written, None) => write_experiments store rest written
      | stopped => stopped
      end
  end.

(** [sorted(self.experiments.keys())] *)
Definition sorted_keys (store : gmap Z (list sample)) : list Z :=
  merge_sort Z.le (elements (dom store)).

(** [choice] is the answer of the file dialog, [writable] whether [open]
    for writing succeeds.  The second component is the content of the file
    once the function returns, when a file was opened at all. *)
Definition save_all_data (choice : option string) (writable : bool)
    (a : ArduinoDataApp) : ArduinoDataApp * option (list row) :=
  if (size (experiments a) =? 0)%nat then (emit [ShowWarning NothingToSave] a, None)
  else
    match choice with
    | None => (a, None)
    | Some filename =>
        if negb writable then (emit [ShowError SaveFailed] a, None)
        else
          match write_experiments (experiments a) (sorted_keys (experiments a)) [header] with
          | (written, None) => (emit [ShowInfo SaveSucceeded] a, Some written)
          | (written, Some _) => (emit [ShowError SaveFailed] a, Some written)
          end
    end.

(** The three conversions of lines 416-418; [None] is the [ValueError]
    that makes the loop [continue]. *)
Definition parse_row (r : row) : option (Z * sample) :=
  exp_num ← int_of_str (lstrip_E (nth 0 r EmptyString));
  timestamp ← float_of_str (nth 1 r EmptyString);
  value ← float_of_str (nth 2 r EmptyString);
  Some (exp_num, (timestamp, value)).

(** The body of [for row in reader]. *)
Definition load_row (a : ArduinoDataApp) (r : row) : ArduinoDataApp :=
  if (len r <? 3)%Z then a
  else
    match parse_row r with
    | None => a
    | Some (exp_num, s) =>
        let a :=
          set_experiments
            (<[exp_num := default [] (experiments a !! exp_num) ++ [s]]> (experiments a)) a in
        if (exp_num >=? current_experiment a)%Z
        then set_current_experiment (exp_num + 1) a
        else a
    end.

Definition open_data (choice : option string) (file : file_read)
    (a : ArduinoDataApp) : ArduinoDataApp :=
  match choice with
  | None => a
  | Some filename =>
      let a := set_current_experiment 1 (set_experiments ∅ a) in
      match file with
      | Unreadable => emit [ShowError LoadFailed] a
      | Rows rows complete =>
          (* [next(reader, None)] consumes the first row *)
          let a := fold_left load_row (tail rows) a in
          if complete then
            emit ([LogCleared; LogLoaded filename]
                    ++ map (λ exp_num,
                              LogCount exp_num
                                (len (default [] (experiments a !! exp_num))))
                           (sorted_keys (experiments a))
                    ++ [ShowInfo LoadSucceeded]) a
          else emit [ShowError LoadFailed] a
      end
  end.

End Persistence.

(** ** The hover query of the plot (lines 635-662) *)

Record plot_point : Type := {
  px : float;         (* projected x *)
  py : float;         (* projected y *)
  t_off : float;
  val : float;
  exp_num : Z
}.

(** The projection of [create_plot] (lines 560-565), with [padding_x] equal
    to [max_duration * 0.05] and [padding_y] to [10.0]. *)
Definition to_canvas_x (max_duration t : float) : float :=
  (50 + (t / (max_duration + 2 * (max_duration * 0x1.999999999999ap-5))) * 850)%float.

Definition to_canvas_y (min_val val_range v : float) : float :=
  (500 - ((v - min_val + 10) / (val_range + 2 * 10)) * 450)%float.

(** [math.hypot] belongs to the runtime's library, and how it rounds is the
    library's business: the query is written over any function [hypot], and
    each theorem names the facts about it that it uses. *)
Section HoverQuery.
Variable hypot : float → float → float.

(** [math.hypot(event.x - x, event.y - y)] *)
Definition dist_to (event_x event_y : Z) (p : plot_point) : float :=
  hypot (PrimFloat.sub (float_of_int event_x) (px p))
        (PrimFloat.sub (float_of_int event_y) (py p)).

(** The body of the [for] loop, on the pair [(closest, min_dist)]. *)
Definition on_motion_step (event_x event_y : Z)
    (st : option plot_point * float) (p : plot_point) : option plot_point * float :=
  let dist := dist_to event_x event_y p in
  if PrimFloat.ltb dist (snd st) then (Some p, dist) else st.

(** The value of [closest] after the loop. *)
Definition on_motion (event_x event_y : Z) (all_points : list plot_point)
  : option plot_point :=
  fst (fold_left (on_motion_step event_x event_y) all_points (None, 15%float)).

End HoverQuery.

(** What [info_label] shows afterwards. *)
Inductive info_text : Type :=
| Hint
| Details (exp_num : Z) (t_off : float) (val : float).

Definition info_label (closest : option plot_point) : info_text :=
  match closest with
  | Some p => Details (exp_num p) (t_off p) (val p)
  | None => Hint
  end.

(** ** Building the plot (lines 483-630)

    Of [create_plot] the computation is kept: which experiments are plotted,
    the scales, the smoothed series, the colours and the list [all_points]
    the hover query runs on.  The calls that draw on the canvas are not.
    The projection of the points divides as IEEE 754 does; Python's [/]
    raises on a zero divisor, which the tests of lines 540 and 557 are there
    to exclude. *)

(** The built-in [max] over a non-empty sequence, and [max(a, b)]: the first
    item is kept until a later one compares strictly greater.  [min] alike. *)
Definition py_max (first : float) (rest : list float) : float :=
  fold_left (λ m x, if PrimFloat.ltb m x then x else m) rest first.

Definition py_min (first : float) (rest : list float) : float :=
  fold_left (λ m x, if PrimFloat.ltb x m then x else m) rest first.

Definition colors : list string :=
  ["blue"; "red"; "green"; "purple"; "orange"; "brown"; "pink"; "gray"]%string.

(** One entry of [experiment_data]. *)
Record experiment_plot : Type := {
  num : Z;
  times : list float;
  values : list float;
  smooth_values : list float;
  color : string
}.

(** The body of [for exp_num in experiment_numbers], on the pair
    [(max_duration, experiment_data)]. *)
Definition plot_experiment (store : gmap Z (list sample))
    (st : float * list experiment_plot) (exp_num : Z)
  : exc (float * list experiment_plot) :=
  let data := default [] (store !! exp_num) in
  match data with
  | [] => Return st
  | (start_time, _) :: _ =>
      let times := map (λ s : sample, PrimFloat.sub s.1 start_time) data in
      let values := map snd data in
      match times with
      | [] => Return st
      | t0 :: ts =>
          let duration := py_max t0 ts in
          let duration := if PrimFloat.eqb duration 0 then 1%float else duration in
          let max_duration := py_max (fst st) [duration] in
          smooth_values ← moving_average values (Z.min 7 (len values));
          color ← getitem colors (exp_num mod len colors);
          Return (max_duration,
                  snd st ++ [{| num := exp_num; times := times; values := values;
                                smooth_values := smooth_values; color := color |}])
      end
  end.

Fixpoint plot_experiments (store : gmap Z (list sample)) (experiment_numbers : list Z)
    (st : float * list experiment_plot) : exc (float * list experiment_plot) :=
  match experiment_numbers with
  | [] => Return st
  | exp_num :: rest =>
      st ← plot_experiment store st exp_num;
      plot_experiments store rest st
  end.

(** What the plot window holds once it is built. *)
Record plot : Type := {
  plot_max_duration : float;
  plot_min_val : float;
  plot_val_range : float;
  experiment_data : list experiment_plot;
  all_points : list plot_point
}.

(** The points of one experiment: [zip(times, values)] projected. *)
Definition experiment_points (max_duration min_val val_range : float)
    (e : experiment_plot) : list plot_point :=
  map (λ tv : float * float,
         {| px := to_canvas_x max_duration tv.1;
            py := to_canvas_y min_val val_range tv.2;
            t_off := tv.1; val := tv.2; exp_num := num e |})
      (zip (times e) (values e)).

(** The condition under which the thick, smoothed line is drawn (line 604). *)
Definition smooth_line_drawn (e : experiment_plot) : bool :=
  (len (times e) =? len (smooth_values e)) && (1 <? len (times e)).

Inductive plot_outcome : Type :=
| NothingSelected            (* empty list: plain [return] *)
| NoDataWarning              (* no experiment had samples *)
| NoValuesWarning            (* no values at all *)
| Plotted (p : plot).

Definition create_plot (store : gmap Z (list sample)) (experiment_numbers : list Z)
  : exc plot_outcome :=
  match experiment_numbers with
  | [] => Return NothingSelected
  | _ =>
      st ← plot_experiments store experiment_numbers (0%float, []);
      match snd st with
      | [] => Return NoDataWarning
      | _ =>
          let max_duration :=
            if PrimFloat.eqb (fst st) 0 then 1%float else fst st in
          let all_values := concat (map values (snd st)) in
          match all_values with
          | [] => Return NoValuesWarning
          | v0 :: vs =>
              let min_val := py_min v0 vs in
              let max_val := py_max v0 vs in
              let val_range := PrimFloat.sub max_val min_val in
              let val_range :=
                if PrimFloat.leb val_range 0 then 1%float else val_range in
              Return (Plotted
                {| plot_max_duration := max_duration;
                   plot_min_val := min_val;
                   plot_val_range := val_range;
                   experiment_data := snd st;
                   all_points :=
                     flat_map (experiment_points max_duration min_val val_range)
                              (snd st) |})
          end
      end
  end.

(** ** Choosing what to analyse (lines 439-481)

    [analyze_data] warns on an empty store and otherwise opens a window with
    one check box per stored id, in ascending order; [None] stands for the
    warning. *)
Definition analyze_data (a : ArduinoDataApp) : option (list Z) :=
  if (size (experiments a) =? 0)%nat then None
  else Some (sorted_keys (experiments a)).

(** [do_analyze] runs when the button of that window is pressed:
    [check_vars] are the boxes with their state at that moment, [a] is the
    application state at that moment. *)
Inductive analysis : Type :=
| NoExperimentChosen         (* no box checked: warning *)
| Analysed (selected : list Z) (outcome : plot_outcome).

Definition do_analyze (check_vars : list (Z * bool)) (a : ArduinoDataApp)
  : exc analysis :=
  let selected := map fst (List.filter snd check_vars) in
  match selected with
  | [] => Return NoExperimentChosen
  | _ =>
      outcome ← create_plot (experiments a) selected;
      Return (Analysed selected outcome)
  end.

(** ** Refreshing the display (lines 337-367)

    What the widgets written by [update_display] and [update_display_info]
    show: the numbers behind the texts of the three labels, and the lines
    added to the log (clock time, experiment, value). *)
Record display : Type := {
  value_label : option float;        (* [None]: the initial text, no value *)
  exp_label : Z;
  count_label : Z;
  log_lines : list (string * Z * float)
}.

(** The labels as [setup_gui] creates them (lines 158-169). *)
Definition initial_display : display := {|
  value_label := None;
  exp_label := current_experiment init;
  count_label := 0;
  log_lines := []
|}.

Definition update_display_info (a : ArduinoDataApp) (d : display) : display :=
  {| value_label := value_label d;
     exp_label := current_experiment a;
     count_label :=
       match experiments a !! current_experiment a with
       | Some l => len l
       | None => count_label d
       end;
     log_lines := log_lines d |}.

(** The result of one call of [update_display]: the state with what is left
    on the queue, the widgets, and whether the call scheduled itself again. *)
Record refreshed : Type := {
  app_state : ArduinoDataApp;
  shown : display;
  rescheduled : bool
}.

Section Display.

(** The rendering of a time stamp as a clock time, which raises on a time
    stamp outside the platform's range ([None]), and the outcome of the
    successive tests [random.random() < 0.2]. *)
Variable strftime_clock : float → option string.
Variable coin : nat → bool.

(** The body of [while not self.data_queue.empty()], from the [i]-th pass
    on; the queue is taken as it stands when the call begins.  An exception
    ends the loop and is dropped by [except Exception: pass]. *)
Fixpoint update_display_loop (i : nat) (queue : list sample) (a : ArduinoDataApp)
    (d : display) : list sample * display :=
  match queue with
  | [] => ([], d)
  | (timestamp, value) :: rest =>
      let d := {| value_label := Some value; exp_label := exp_label d;
                  count_label := count_label d; log_lines := log_lines d |} in
      if coin i then
        match strftime_clock timestamp with
        | None => (rest, d)
        | Some ts =>
            let d := {| value_label := value_label d; exp_label := exp_label d;
                        count_label := count_label d;
                        log_lines := log_lines d ++ [(ts, current_experiment a, value)] |} in
            update_display_loop (S i) rest a (update_display_info a d)
        end
      else update_display_loop (S i) rest a (update_display_info a d)
  end.

Definition update_display (a : ArduinoDataApp) (d : display) : refreshed :=
  let '(queue, d) := update_display_loop 0 (data_queue a) a d in
  {| app_state := {| is_recording := is_recording a; data_queue := queue;
               experiments := experiments a;
               current_experiment := current_experiment a;
               serial_port := serial_port a; ui := ui a |};
     shown := d;
     rescheduled := is_recording a |}.

End Display.

(** * Statements and examples

    The wording of the specification, as predicates over the program above,
    and the concrete sessions the counterexamples are run on. *)

(** ** The sigma filter *)

(** The filter as the specification words it: the window is the last
    [w = min(window_size, len(history))] items; with fewer than two items, or
    a standard deviation equal to zero, the candidate comes back; otherwise
    the mean replaces a candidate farther than [k] deviations from it. *)
Definition spec_window (values : list float) (window_size : Z) : list float :=
  drop (length values - Z.to_nat (Z.min window_size (len values))) values.

Definition sigma_filter_last_spec (values : list float) (window_size : Z) (k : float)
  : Prop :=
  let window := spec_window values window_size in
  ∀ candidate, last values = Some candidate →
    if (2 <=? length window)%nat then
      ∃ mean std,
        statistics.mean window = Return mean ∧
        statistics.pstdev window = Return std ∧
        sigma_filter_last values window_size k
        = Return (if PrimFloat.eqb std 0%float then candidate
                  else if PrimFloat.ltb (PrimFloat.mul k std)
                                        (PrimFloat.abs (PrimFloat.sub candidate mean))
                       then mean else candidate)
    else sigma_filter_last values window_size k = Return candidate.

(** The history of the specification's worked example. *)
Definition example_history : list float := [10; 10; 10; 10; 10; 100]%float.

(** The window the code takes, [values[-w:]]. *)
Definition code_window (values : list float) (window_size : Z) : list float :=
  slice_from values (- Z.min window_size (len values)).

(** The filter returns on every input. *)
Definition never_raises : Prop :=
  ∀ values window_size k, ∃ r, sigma_filter_last values window_size k = Return r.

(** ** Sessions *)

(** Recording from the simulator: no port is involved. *)
Definition simulator_env : start_env :=
  {| mode_var := simulator; port_var := EmptyString;
     pyserial_installed := false; port_opens := false |}.

(** A session in which recording is started, the source delivers nothing
    that is accepted, and recording is stopped. *)
Definition session_without_samples (env : start_env) (timestamps : list float)
    (a : ArduinoDataApp) : exc ArduinoDataApp :=
  stop_experiment
    (collect_data (map (λ t, (t, None)) timestamps) (start_experiment env a)).

(** The specification's wording: an experiment that accepted no sample has
    no entry in the store. *)
Definition created_on_first_sample : Prop :=
  ∀ env timestamps a a',
    experiments a !! current_experiment a = None →
    session_without_samples env timestamps a = Return a' →
    experiments a' !! current_experiment a = None.

(** The specification's wording: a load that ends with the error message
    leaves the store and the active id as they were. *)
Definition load_is_atomic : Prop :=
  ∀ (float_of_str : string → option float) (filename : string)
    (file : file_read) (a : ArduinoDataApp),
    let a' := open_data float_of_str (Some filename) file a in
    last (ui a') = Some (ShowError LoadFailed) →
    experiments a' = experiments a
    ∧ current_experiment a' = current_experiment a.

(** The state after one experiment that recorded a single sample. *)
Definition session_with_one_sample : ArduinoDataApp :=
  set_current_experiment 2 (set_experiments {[ 1 := [(0, 1)%float] ]} init).

(** ** Loading and saving *)

(** What the loop body makes of a row: the triple it appends, or nothing
    for a row that is too short or has a field that does not convert. *)
Definition accepted (float_of_str : string → option float) (r : row)
  : option (Z * sample) :=
  if len r <? 3 then None else parse_row float_of_str r.

(** The samples of experiment [id] among loaded triples, in order. *)
Definition samples_for (id : Z) (l : list (Z * sample)) : list sample :=
  omap (λ p, if decide (p.1 = id) then Some p.2 else None) l.

(** Text made of ASCII digits only. *)
Fixpoint all_digits (s : string) : bool :=
  match s with
  | EmptyString => true
  | String a rest => is_digit a && all_digits rest
  end.

(** A sample whose two numbers read back from their text, and whose time
    stamp can be rendered as a date. *)
Definition storable_sample (str_of_float : float → string)
    (float_of_str : string → option float)
    (strftime_local : float → option string) (s : sample) : Prop :=
  float_of_str (str_of_float s.1) = Some s.1
  ∧ float_of_str (str_of_float s.2) = Some s.2
  ∧ is_Some (strftime_local s.1).

(** A store of such samples under positive ids. *)
Definition storable (str_of_float : float → string)
    (float_of_str : string → option float)
    (strftime_local : float → option string)
    (store : gmap Z (list sample)) : Prop :=
  map_Forall
    (λ k l, 0 < k
            ∧ Forall (storable_sample str_of_float float_of_str strftime_local) l)
    store.

(** [k] is the largest id of the store. *)
Definition max_id (store : gmap Z (list sample)) (k : Z) : Prop :=
  k ∈ dom store ∧ ∀ j, j ∈ dom store → j ≤ k.

(** The round trip as the specification words it: what a successful save
    of the store wrote, loaded into any state, gives back the same ids with
    the same sequences, and the active id becomes the largest id plus one. *)
Definition roundtrip_holds (str_of_float : float → string)
    (float_of_str : string → option float)
    (strftime_local : float → option string) (a : ArduinoDataApp) : Prop :=
  ∀ filename written b,
    save_all_data str_of_float strftime_local (Some filename) true a
    = (emit [ShowInfo SaveSucceeded] a, Some written) →
    let b' := open_data float_of_str (Some filename) (Rows written true) b in
    experiments b' = experiments a
    ∧ ∃ k, max_id (experiments a) k ∧ current_experiment b' = k + 1.

(** The row written for sample [s] of experiment [k]. *)
Definition row_of (str_of_float : float → string)
    (strftime_local : float → option string) (k : Z) (s : sample) : row :=
  [(cyrillic_E ++ str_of_int k)%string; str_of_float s.1; str_of_float s.2;
   default EmptyString (strftime_local s.1)].

(** A fragment of the runtime's conversions that covers the numbers of the
    example stores below: [str(0.0)] is "0.0", [float("2.5")] is 2.5, and so
    on; time stamps 0 and 1 are rendered as dates. *)
Definition example_str_of_float (x : float) : string :=
  if PrimFloat.eqb x 0 then "0.0"%string
  else if PrimFloat.eqb x 1 then "1.0"%string
  else if PrimFloat.eqb x 2.5 then "2.5"%string
  else "nan"%string.

Definition example_float_of_str (s : string) : option float :=
  if String.eqb s "0.0" then Some 0%float
  else if String.eqb s "1.0" then Some 1%float
  else if String.eqb s "2.5" then Some 2.5%float
  else None.

Definition example_strftime (t : float) : option string :=
  if PrimFloat.eqb t 0 then Some "1970-01-01 00:00:00"%string
  else if PrimFloat.eqb t 1 then Some "1970-01-01 00:00:01"%string
  else None.

(** A file with the header, a row as a save writes it, a row that is too
    short, a row whose label is not a number, a row whose time stamp is not
    one, and a row with small letters before the number and more fields
    than a save writes. *)
Definition example_file : list row :=
  [header;
   [(cyrillic_E ++ "1")%string; "0.0"; "2.5"; "1970-01-01 00:00:00"]%string;
   [(cyrillic_E ++ "1")%string; "1.0"]%string;
   ["x"; "0.0"; "1.0"]%string;
   [(cyrillic_E ++ "3")%string; "abc"; "1.0"]%string;
   [(cyrillic_e ++ cyrillic_e ++ "2")%string; "1.0"; "1.0"; "junk"; "more"]%string].

(** Experiment 1 holds one sample; experiment 2 was started and stopped
    without any. *)
Definition session_with_empty_experiment : ArduinoDataApp :=
  set_current_experiment 3
    (set_experiments (<[ 2 := [] ]> {[ 1 := [(0, 2.5)%float] ]}) init).

(** Two experiments, each with samples. *)
Definition session_with_two_experiments : ArduinoDataApp :=
  set_current_experiment 3
    (set_experiments (<[ 2 := [(0, 1)%float; (1, 2.5)%float] ]>
                        {[ 1 := [(0, 2.5)%float] ]}) init).

(** ** The moving average *)

(** The sub-range averaged at index [i]. *)
Definition window_at {A : Type} (data : list A) (window_size : Z) (i : nat) : list A :=
  slice data (Z.max 0 (Z.of_nat i - window_size / 2))
             (Z.min (len data) (Z.of_nat i + window_size / 2 + 1)).

(** The value appended at index [i]. *)
Definition average_at {A : Type} `{Number A} (data : list A) (window_size : Z)
    (i : nat) : A :=
  divide_by_int (sum (window_at data window_size i))
                (len (window_at data window_size i)).

(** Every output lies between two items of the data. *)
Definition within_data_range (data out : list float) : Prop :=
  ∀ x, x ∈ out →
    ∃ lo hi, lo ∈ data ∧ hi ∈ data
             ∧ PrimFloat.leb lo x = true ∧ PrimFloat.leb x hi = true.

(** ** The hover query *)


(** One such function, the square root of the sum of the squares.  The
    library's function is more accurate; the examples use this one on
    numbers where the sum of the squares is exact. *)
Definition hypot_sqrt (x y : float) : float :=
  PrimFloat.sqrt (PrimFloat.add (PrimFloat.mul x x) (PrimFloat.mul y y)).




(** ** Sessions as sequences of actions *)

(** The time stamps of the passes in which the source delivered a value. *)
Definition delivered (feed : list (float * option float)) : list float :=
  omap (λ p : float * option float,
          match p.2 with Some _ => Some p.1 | None => None end) feed.

(** The values delivered. *)
Definition readings (feed : list (float * option float)) : list float :=
  omap snd feed.

(** A sample that carries a finite value. *)
Definition finite_sample (s : sample) : Prop := is_finite s.2 = true.

(** No stored id lies above the active one. *)
Definition ids_up_to_active (a : ArduinoDataApp) : Prop :=
  ∀ k, k ∈ dom (experiments a) → k ≤ current_experiment a.

(** What the user and the acquisition thread can do to the state. *)
Inductive action : Type :=
| Start (env : start_env)
| Collect (feed : list (float * option float))
| Stop
| Save (choice : option string) (writable : bool)
| Open (choice : option string) (file : file_read).

(** An action that replaces the store: a load whose file dialog was not
    cancelled. *)
Definition loads (c : action) : bool :=
  match c with
  | Open (Some _) _ => true
  | _ => false
  end.

Section Sessions.
Variable str_of_float : float → string.
Variable float_of_str : string → option float.
Variable strftime_local : float → option string.

Definition perform (a : ArduinoDataApp) (c : action) : exc ArduinoDataApp :=
  match c with
  | Start env => Return (start_experiment env a)
  | Collect feed => Return (collect_data feed a)
  | Stop => stop_experiment a
  | Save choice writable =>
      Return (fst (save_all_data str_of_float strftime_local choice writable a))
  | Open choice file => Return (open_data float_of_str choice file a)
  end.

Fixpoint run (actions : list action) (a : ArduinoDataApp) : exc ArduinoDataApp :=
  match actions with
  | [] => Return a
  | c :: rest => a ← perform a c; run rest a
  end.

End Sessions.

(** ** The content of a file *)

(** The triples a file delivers to the loop of [open_data]. *)
Definition loaded_of (float_of_str : string → option float) (file : file_read)
  : list (Z * sample) :=
  match file with
  | Unreadable => []
  | Rows rows _ => omap (accepted float_of_str) (tail rows)
  end.

(** The samples of a store in the order [save_all_data] visits them. *)
Definition all_samples (store : gmap Z (list sample)) : list (Z * sample) :=
  flat_map (λ k, map (pair k) (default [] (store !! k))) (sorted_keys store).

(** The longest prefix whose items all satisfy [f]. *)
Fixpoint prefix_while {A : Type} (f : A → bool) (l : list A) : list A :=
  match l with
  | [] => []
  | x :: rest => if f x then x :: prefix_while f rest else []
  end.

(** The time stamp of the sample can be rendered as a date. *)
Definition renderable (strftime_local : float → option string) (p : Z * sample)
  : bool :=
  match strftime_local p.2.1 with Some _ => true | None => false end.

(** A run of the two letters a label may start with: [true] for the capital
    letter, [false] for the small one. *)
Fixpoint label_prefix (letters : list bool) : string :=
  match letters with
  | [] => EmptyString
  | capital :: rest =>
      ((if capital : bool then cyrillic_E else cyrillic_e) ++ label_prefix rest)%string
  end.

(** One experiment whose second sample carries a time stamp that
    [example_strftime] does not render. *)
Definition session_with_unrenderable_sample : ArduinoDataApp :=
  set_experiments {[ 1 := [(0, 1)%float; (2.5, 1)%float; (1, 1)%float] ]} init.

(** ** The plot *)

(** The store has samples for experiment [n]. *)
Definition has_samples (store : gmap Z (list sample)) (n : Z) : bool :=
  match default [] (store !! n) with [] => false | _ => true end.

(** The points [create_plot] makes of the samples of experiment [n], under
    the given scales: time counts from the first sample. *)
Definition points_of (store : gmap Z (list sample))
    (max_duration min_val val_range : float) (n : Z) : list plot_point :=
  let data := default [] (store !! n) in
  match data with
  | [] => []
  | (start_time, _) :: _ =>
      map (λ s : sample,
             {| px := to_canvas_x max_duration (PrimFloat.sub s.1 start_time);
                py := to_canvas_y min_val val_range s.2;
                t_off := PrimFloat.sub s.1 start_time;
                val := s.2;
                exp_num := n |})
          data
  end.

(** An entry of [experiment_data] made of the samples stored under its id:
    the values are the stored ones, the times count from the first sample,
    the smoothed series has one value per sample and the colour is one of
    the palette. *)
Definition entry_of_store (store : gmap Z (list sample)) (e : experiment_plot) : Prop :=
  let data := default [] (store !! num e) in
  match data with
  | [] => False
  | (start_time, _) :: _ =>
      values e = map snd data
      ∧ times e = map (λ s : sample, PrimFloat.sub s.1 start_time) data
      ∧ length (smooth_values e) = length data
      ∧ color e ∈ colors
  end.

(** The point stands for a sample stored under one of the ids [ns]: its
    value is the sample's, its time the sample's counted from the first
    sample of that experiment. *)
Definition shows_stored_sample (store : gmap Z (list sample)) (ns : list Z)
    (q : plot_point) : Prop :=
  exp_num q ∈ ns
  ∧ ∃ start_time v0 rest s,
      store !! exp_num q = Some ((start_time, v0) :: rest)
      ∧ s ∈ (start_time, v0) :: rest
      ∧ t_off q = PrimFloat.sub s.1 start_time
      ∧ val q = s.2.

(** Two experiments for the plot: the first with three samples, the second
    with one; id 3 is not in the store. *)
Definition store_for_plot : gmap Z (list sample) :=
  <[ 2 := [(5, 4)%float] ]> {[ 1 := [(10, 1)%float; (11, 3)%float; (12, 2)%float] ]}.

(** ** The display *)

(** Every sample of the queue that is drawn for the log, from the [i]-th
    pass on, has a time stamp that can be rendered. *)
Fixpoint renders_from (strftime_clock : float → option string) (coin : nat → bool)
    (i : nat) (queue : list sample) : bool :=
  match queue with
  | [] => true
  | (timestamp, _) :: rest =>
      (if coin i then bool_decide (is_Some (strftime_clock timestamp)) else true)
      && renders_from strftime_clock coin (S i) rest
  end.

(** A refresh of a queue of two samples in the state left by one finished
    experiment; every other sample is drawn for the log. *)
Definition example_refresh : refreshed :=
  update_display example_strftime Nat.even
    (put (1, 2.5)%float (put (0, 1)%float session_with_one_sample))
    initial_display.

(** A first experiment in which two readings are delivered, followed by a
    refresh that draws no sample for the log. *)
Definition example_acquisition : ArduinoDataApp :=
  collect_data [(0, Some 1); (1, None); (1, Some 2.5)]%float
    (start_experiment simulator_env init).

Definition example_acquisition_refresh : refreshed :=
  update_display example_strftime (λ _, false) example_acquisition initial_display.

(** * Properties *)

(** ** Sequences and exceptions *)

Lemma getitem_last {A : Type} (l : list A) (x : A) :
  last l = Some x → getitem l (-1) = Return x.
Proof.
  intros Hx. unfold getitem. cbn [Z.ltb Z.compare].
  assert (Hlen : (0 < length l)%nat).
  { destruct l; [discriminate | cbn; lia]. }
  replace (Z.of_nat (length l) + -1 <? 0) with false by lia.
  replace (Z.to_nat (Z.of_nat (length l) + -1)) with (pred (length l)) by lia.
  now rewrite <- last_lookup, Hx.
Qed.

Lemma last_nonempty {A : Type} (l : list A) : l ≠ [] → ∃ x, last l = Some x.
Proof.
  intros Hl. destruct (last l) as [x|] eqn:E; [eauto|].
  apply last_None in E. contradiction.
Qed.

(** ** Binary64 numbers and their exact values *)

Lemma digits2_pos_log2 (p : positive) :
  Z.pos (digits2_pos p) = Z.log2 (Z.pos p) + 1.
Proof.
  assert (H : ∀ q, digits2_pos q = Pos.size q) by (induction q; cbn; congruence).
  rewrite H. destruct p; cbn; lia.
Qed.

Lemma valid_finite_bounds (s : bool) (m : positive) (e : Z) :
  valid_binary (S754_finite s m e) = true → Z.pos m < 2 ^ 53 ∧ -1074 ≤ e ≤ 971.
Proof.
  unfold valid_binary, SpecFloat.valid_binary, bounded, canonical_mantissa, fexp, emin.
  rewrite digits2_pos_log2. change prec with 53. change emax with 1024.
  intros [Hc He]%andb_prop. apply Z.eqb_eq in Hc. apply Z.leb_le in He.
  split; [|lia]. apply Z.log2_lt_pow2; lia.
Qed.

Lemma valid_of_bounds (s : bool) (m : positive) (e : Z) :
  Z.pos m < 2 ^ 53 → -1074 ≤ e ≤ 971 → (e = -1074 ∨ 2 ^ 52 ≤ Z.pos m) →
  valid_binary (S754_finite s m e) = true.
Proof.
  intros Hm He Hn.
  unfold valid_binary, SpecFloat.valid_binary, bounded, canonical_mantissa, fexp, emin.
  rewrite digits2_pos_log2. change prec with 53. change emax with 1024.
  apply andb_true_intro. split; [|apply Z.leb_le; lia]. apply Z.eqb_eq.
  assert (Z.log2 (Z.pos m) < 53) by (apply Z.log2_lt_pow2; lia).
  destruct Hn as [->|Hn]; [lia|].
  assert (52 ≤ Z.log2 (Z.pos m)) by (apply Z.log2_le_pow2; lia).
  lia.
Qed.

Lemma round_half_even_le (n d hi : Z) :
  0 < d → n ≤ hi * d → round_half_even n d ≤ hi.
Proof.
  intros Hd Hn. unfold round_half_even.
  pose proof (Z.div_mod n d ltac:(lia)) as Hdm.
  pose proof (Z.mod_pos_bound n d Hd) as Hr.
  set (q := n / d) in *. set (r := n mod d) in *.
  assert (Hq : q ≤ hi) by nia.
  destruct (Z.eq_dec q hi) as [->|Hne].
  - assert (r = 0) by nia. subst r.
    replace (2 * (n mod d)) with 0 by lia.
    destruct (Z.compare_spec 0 d); lia.
  - destruct (2 * r ?= d); [destruct (Z.even q)| |]; lia.
Qed.

Lemma round_half_even_ge (n d lo : Z) :
  0 < d → lo * d ≤ n → lo ≤ round_half_even n d.
Proof.
  intros Hd Hn. unfold round_half_even.
  pose proof (Z.div_mod n d ltac:(lia)) as Hdm.
  pose proof (Z.mod_pos_bound n d Hd) as Hr.
  set (q := n / d) in *. set (r := n mod d) in *.
  assert (Hq : lo ≤ q) by nia.
  destruct (2 * r ?= d); [destruct (Z.even q)| |]; lia.
Qed.

Lemma shift_spec (n d : Z) :
  0 < n → 0 < d →
  let j0 := Z.log2 n - Z.log2 d in
  let j := if n <? d * 2 ^ j0 then j0 - 1 else j0 in
  n < d * 2 ^ (Z.max 0 (j - 52) + 53) ∧ (52 < j → d * 2 ^ j ≤ n).
Proof.
  intros Hn Hd.
  destruct (Z.log2_spec n Hn) as [Hn1 Hn2]. destruct (Z.log2_spec d Hd) as [Hd1 Hd2].
  pose proof (Z.log2_nonneg n) as Hln. pose proof (Z.log2_nonneg d) as Hld.
  set (ln := Z.log2 n) in *. set (ld := Z.log2 d) in *. cbv zeta.
  destruct (Z.lt_ge_cases (ln - ld) 0) as [Hneg|Hpos].
  - rewrite (Z.pow_neg_r 2 (ln - ld)) by lia. rewrite Z.mul_0_r.
    destruct (Z.ltb_spec n 0) as [|_]; [lia|].
    split; [|lia]. replace (Z.max 0 (ln - ld - 52) + 53) with 53 by lia.
    assert (2 ^ Z.succ ln ≤ 2 ^ ld) by (apply Z.pow_le_mono_r; lia).
    assert (0 < 2 ^ 53) by (apply Z.pow_pos_nonneg; lia). nia.
  - assert (Hsplit : 2 ^ ln = 2 ^ ld * 2 ^ (ln - ld)).
    { rewrite <- Z.pow_add_r by lia. f_equal. lia. }
    assert (Hj0 : 0 < 2 ^ (ln - ld)) by (apply Z.pow_pos_nonneg; lia).
    assert (Hsucc : 2 ^ Z.succ ln = 2 * 2 ^ ln) by (rewrite Z.pow_succ_r; lia).
    assert (Hsd : 2 ^ Z.succ ld = 2 * 2 ^ ld) by (rewrite Z.pow_succ_r; lia).
    destruct (Z.ltb_spec n (d * 2 ^ (ln - ld))) as [Hlt|Hge].
    + split.
      * assert (2 ^ (ln - ld) ≤ 2 ^ (Z.max 0 (ln - ld - 1 - 52) + 53))
          by (apply Z.pow_le_mono_r; lia).
        nia.
      * intros Hj.
        assert (Hp : 2 ^ (ln - ld) = 2 * 2 ^ (ln - ld - 1)).
        { rewrite <- Z.pow_succ_r by lia. f_equal. lia. }
        nia.
    + split; [|intros _; exact Hge].
      assert (2 * 2 ^ (ln - ld) ≤ 2 ^ (Z.max 0 (ln - ld - 52) + 53)).
      { rewrite <- Z.pow_succ_r by lia. apply Z.pow_le_mono_r; lia. }
      nia.
Qed.

Lemma is_finite_SF2Prim (s : bool) (m : positive) (e : Z) :
  valid_binary (S754_finite s m e) = true →
  is_finite (SF2Prim (S754_finite s m e)) = true.
Proof. intros Hv. unfold is_finite. now rewrite (Prim2SF_SF2Prim _ Hv). Qed.

Lemma of_binary_finite (s : bool) (m e : Z) :
  0 ≤ m ≤ 2 ^ 53 → -1074 ≤ e → (e = -1074 ∨ 2 ^ 52 ≤ m) →
  (e ≤ 970 ∨ (e = 971 ∧ m < 2 ^ 53)) →
  is_finite (of_binary s m e) = true.
Proof.
  intros Hm He Hn Ho. unfold of_binary.
  destruct (Z.eqb_spec m 0) as [_|Hz]; [now destruct s|].
  destruct (Z.eqb_spec m (2 ^ 53)) as [Hmax|Hlt].
  - apply is_finite_SF2Prim, valid_of_bounds; [reflexivity | lia | right; reflexivity].
  - apply is_finite_SF2Prim, valid_of_bounds; rewrite ?Z2Pos.id by lia; lia.
Qed.

Lemma int_truediv_returns (a b : Z) :
  0 < b → Z.abs a ≤ (2 ^ 53 - 1) * 2 ^ 971 * b →
  ∃ x, int_truediv a b = Return x ∧ is_finite x = true.
Proof.
  intros Hb Ha. unfold int_truediv.
  destruct (Z.eqb_spec b 0) as [|_]; [lia|].
  rewrite (Z.abs_eq b) by lia.
  generalize (xorb (a <? 0) (b <? 0)). intros s.
  assert (HA : 0 < 2 ^ 971) by (apply Z.pow_pos_nonneg; lia).
  assert (HC : 0 < 2 ^ 1074) by (apply Z.pow_pos_nonneg; lia).
  remember (2 ^ 971) as A eqn:EA. remember (2 ^ 1074) as C eqn:EC.
  assert (Hbound : Z.abs a * C ≤ (2 ^ 53 - 1) * (b * (A * C))) by nia.
  remember (Z.abs a * C) as n eqn:En.
  assert (Hn : 0 ≤ n) by nia. clear En Ha.
  destruct (Z.eq_dec n 0) as [->|Hnz].
  - assert (Hj : (if 0 <? b * 2 ^ (Z.log2 0 - Z.log2 b)
                  then Z.log2 0 - Z.log2 b - 1 else Z.log2 0 - Z.log2 b) ≤ 0).
    { pose proof (Z.log2_nonneg b). change (Z.log2 0) with 0. destruct (_ <? _); lia. }
    remember (if 0 <? _ then _ else _) as j eqn:Ej. clear Ej.
    replace (Z.max 0 (j - 52)) with 0 by lia.
    change (2 ^ 0) with 1. rewrite Z.mul_1_r.
    assert (Hm : round_half_even 0 b = 0).
    { pose proof (round_half_even_le 0 b 0 Hb). pose proof (round_half_even_ge 0 b 0 Hb). lia. }
    rewrite Hm. cbn [Z.ltb Z.eqb Z.compare orb andb].
    eexists. split; [reflexivity|]. apply of_binary_finite; lia.
  - destruct (shift_spec n b ltac:(lia) Hb) as [Hup Hlow]. cbv zeta in Hup, Hlow.
    remember (if n <? b * 2 ^ (Z.log2 n - Z.log2 b)
              then Z.log2 n - Z.log2 b - 1 else Z.log2 n - Z.log2 b) as j eqn:Ej.
    clear Ej. set (sh := Z.max 0 (j - 52)) in *.
    assert (Hsh : 0 ≤ sh) by lia.
    assert (Hps : 0 < 2 ^ sh) by (apply Z.pow_pos_nonneg; lia).
    assert (Hup' : n ≤ 2 ^ 53 * (b * 2 ^ sh)).
    { rewrite Z.pow_add_r in Hup by lia. nia. }
    assert (Hlow' : 0 < sh → 2 ^ 52 * (b * 2 ^ sh) ≤ n).
    { intros Hpos. assert (Hj : 52 < j) by lia. specialize (Hlow Hj).
      replace j with (sh + 52) in Hlow by lia. rewrite Z.pow_add_r in Hlow by lia. nia. }
    assert (HD : 0 < b * 2 ^ sh) by nia.
    pose proof (round_half_even_le n (b * 2 ^ sh) (2 ^ 53) HD Hup') as Hm1.
    pose proof (round_half_even_ge n (b * 2 ^ sh) 0 HD ltac:(lia)) as Hm0.
    assert (Hm2 : 0 < sh → 2 ^ 52 ≤ round_half_even n (b * 2 ^ sh)).
    { intros Hpos. apply round_half_even_ge; auto. }
    assert (Hs2045 : sh ≤ 2045).
    { destruct (Z.le_gt_cases sh 2045) as [|Hbig]; [assumption|exfalso].
      specialize (Hlow' ltac:(lia)).
      assert (Hge : 2 ^ (1 + 971 + 1074) ≤ 2 ^ sh) by (apply Z.pow_le_mono_r; lia).
      rewrite !Z.pow_add_r, <- EA, <- EC in Hge by lia. change (2 ^ 1) with 2 in Hge.
      remember (2 ^ sh) as S eqn:ES. clear ES.
      change (2 ^ 53) with 9007199254740992 in Hbound.
      change (2 ^ 52) with 4503599627370496 in Hlow'. nia. }
    assert (Hedge : sh = 2045 → round_half_even n (b * 2 ^ sh) < 2 ^ 53).
    { intros E.
      assert (E2 : 2 ^ sh = A * C).
      { rewrite E, EA, EC, <- Z.pow_add_r by lia. reflexivity. }
      rewrite E2 in *.
      pose proof (round_half_even_le n (b * (A * C)) (2 ^ 53 - 1) HD Hbound). lia. }
    remember (round_half_even n (b * 2 ^ sh)) as m eqn:Em. clear Em.
    destruct (Z.ltb_spec 2045 sh) as [|_]; [lia|]. cbn [orb].
    destruct (Z.eqb_spec sh 2045) as [E|Hne]; cbn [andb].
    + destruct (Z.eqb_spec m (2 ^ 53)) as [Emax|_]; [specialize (Hedge E); lia|].
      eexists. split; [reflexivity|]. apply of_binary_finite; lia.
    + eexists. split; [reflexivity|]. apply of_binary_finite; lia.
Qed.

Lemma exact_ratio_finite (x : float) :
  is_finite x = true →
  ∃ n, statistics.exact_ratio x = Some n ∧ Z.abs n ≤ (2 ^ 53 - 1) * 2 ^ 971 * 2 ^ 1074.
Proof.
  unfold is_finite, statistics.exact_ratio. pose proof (Prim2SF_valid x) as Hv.
  assert (HA : 0 < 2 ^ 971) by (apply Z.pow_pos_nonneg; lia).
  assert (HC : 0 < 2 ^ 1074) by (apply Z.pow_pos_nonneg; lia).
  destruct (Prim2SF x) as [s|s| |s m e]; try discriminate; intros _.
  - exists 0. split; [reflexivity|]. change (Z.abs 0) with 0.
    remember (2 ^ 971) as A. remember (2 ^ 1074) as C. nia.
  - eexists. split; [reflexivity|].
    destruct (valid_finite_bounds s m e Hv) as [Hm He].
    assert (Hp : 0 < 2 ^ (e + 1074)) by (apply Z.pow_pos_nonneg; lia).
    assert (Hle : 2 ^ (e + 1074) ≤ 2 ^ (971 + 1074)) by (apply Z.pow_le_mono_r; lia).
    rewrite (Z.pow_add_r 2 971 1074) in Hle by lia.
    remember (2 ^ 971) as A. remember (2 ^ 1074) as C. remember (2 ^ (e + 1074)) as P.
    destruct s; cbn [cond_Zopp]; nia.
Qed.

Lemma exact_ratio_not_finite (x : float) :
  is_finite x = false → statistics.exact_ratio x = None.
Proof.
  unfold is_finite, statistics.exact_ratio. now destruct (Prim2SF x).
Qed.

Lemma exact_sums_finite (data : list float) :
  Forall (λ x, is_finite x = true) data →
  ∃ sx sxx,
    statistics.exact_sums data = Some (sx, sxx)
    ∧ Z.abs sx ≤ len data * ((2 ^ 53 - 1) * 2 ^ 971 * 2 ^ 1074)
    ∧ sxx ≤ len data * (((2 ^ 53 - 1) * 2 ^ 971 * 2 ^ 1074)
                        * ((2 ^ 53 - 1) * 2 ^ 971 * 2 ^ 1074))
    ∧ ∀ a b, 0 ≤ a * a * sxx - 2 * a * b * sx + len data * (b * b).
Proof.
  remember ((2 ^ 53 - 1) * 2 ^ 971 * 2 ^ 1074) as U eqn:EU.
  induction 1 as [|x data Hx _ IH].
  - exists 0, 0. split; [reflexivity|]. unfold len. cbn [length Z.of_nat].
    repeat split; intros; nia.
  - destruct IH as (sx & sxx & Hs & Hsx & Hsxx & Hsq).
    destruct (exact_ratio_finite x Hx) as (n & Hn & Hb). rewrite <- EU in Hb.
    exists (n + sx), (n * n + sxx). cbn [statistics.exact_sums]. rewrite Hn, Hs.
    split; [reflexivity|].
    replace (len (x :: data)) with (len data + 1) by (unfold len; cbn [length]; lia).
    assert (0 ≤ len data) by (unfold len; lia).
    clear EU. split; [lia|]. split; [nia|].
    intros a b. specialize (Hsq a b).
    pose proof (Z.square_nonneg (a * n - b)) as Hsquare.
    replace (a * a * (n * n + sxx) - 2 * a * b * (n + sx) + (len data + 1) * (b * b))
      with (a * a * sxx - 2 * a * b * sx + len data * (b * b)
            + (a * n - b) * (a * n - b)) by ring.
    lia.
Qed.

Lemma exact_sums_not_finite (data : list float) :
  Exists (λ x, is_finite x = false) data → statistics.exact_sums data = None.
Proof.
  induction 1 as [x data Hx|x data _ IH]; cbn [statistics.exact_sums].
  - now rewrite (exact_ratio_not_finite x Hx).
  - rewrite IH. now destruct (statistics.exact_ratio x).
Qed.

Lemma mean_finite (data : list float) :
  data ≠ [] → Forall (λ x, is_finite x = true) data →
  ∃ m, statistics.mean data = Return m ∧ is_finite m = true.
Proof.
  intros Hne Hfin.
  destruct (exact_sums_finite data Hfin) as (sx & sxx & Hs & Hsx & _).
  unfold statistics.mean. destruct data as [|x rest]; [contradiction|]. rewrite Hs.
  assert (Hlen : 0 < len (x :: rest)) by (unfold len; cbn [length]; lia).
  assert (HC : 0 < 2 ^ 1074) by (apply Z.pow_pos_nonneg; lia).
  remember (len (x :: rest)) as count. remember (2 ^ 1074) as C.
  apply int_truediv_returns; [nia|].
  remember (2 ^ 971) as A. nia.
Qed.

Lemma lor_bit (a : Z) (odd : bool) :
  0 ≤ a → a ≤ Z.lor a (if odd then 1 else 0) ≤ a + 1
          ∧ (odd = false → Z.lor a (if odd then 1 else 0) = a).
Proof.
  intros Ha. destruct odd.
  - split; [|discriminate].
    destruct a as [|p|p]; [change (Z.lor 0 1) with 1; lia| |exfalso; lia].
    destruct p as [p|p|];
      [change (Z.lor (Z.pos p~1) 1) with (Z.pos p~1)
      |change (Z.lor (Z.pos p~0) 1) with (Z.pos p~1)
      |change (Z.lor 1 1) with 1]; lia.
  - rewrite Z.lor_0_r. split; [lia | reflexivity].
Qed.

Lemma rto_le (n D B : Z) :
  0 ≤ n → 0 < D → 0 ≤ B → n ≤ B * B * D →
  0 ≤ statistics.integer_sqrt_of_frac_rto n D ≤ B.
Proof.
  intros Hn HD HB Hle. unfold statistics.integer_sqrt_of_frac_rto.
  assert (Hfl : 0 ≤ n / D) by (apply Z.div_pos; lia).
  assert (Hfu : n / D ≤ B * B) by (apply Z.div_le_upper_bound; nia).
  pose proof (Z.sqrt_spec (n / D) Hfl) as [Ha1 _].
  pose proof (Z.sqrt_nonneg (n / D)) as Ha0.
  set (a := Z.sqrt (n / D)) in *.
  assert (HaB : a ≤ B) by nia.
  pose proof (Z.mul_div_le n D HD) as Hmd.
  destruct (Z.eqb_spec (a * a * D) n) as [Heq|Hne].
  - rewrite Z.lor_0_r. lia.
  - pose proof (lor_bit a true Ha0) as [Hl _]. cbv iota in Hl.
    split; [lia|]. destruct (Z.eq_dec a B) as [E|]; [|lia].
    exfalso. apply Hne. subst a. rewrite E in *. nia.
Qed.

Lemma bit_length_spec (n : Z) :
  0 < n → 2 ^ (bit_length n - 1) ≤ n < 2 ^ bit_length n ∧ 0 < bit_length n.
Proof.
  intros Hn. unfold bit_length. destruct (Z.eqb_spec n 0) as [|_]; [lia|].
  rewrite (Z.abs_eq n) by lia. pose proof (Z.log2_spec n Hn) as Hs.
  pose proof (Z.log2_nonneg n). replace (Z.log2 n + 1 - 1) with (Z.log2 n) by lia.
  replace (Z.log2 n + 1) with (Z.succ (Z.log2 n)) by lia. lia.
Qed.

Lemma float_sqrt_of_frac_returns (n m : Z) :
  0 ≤ n → 0 < m →
  n ≤ ((2 ^ 53 - 1) * 2 ^ 971) * ((2 ^ 53 - 1) * 2 ^ 971) * m →
  ∃ x, statistics.float_sqrt_of_frac n m = Return x ∧ is_finite x = true.
Proof.
  intros Hn Hm Hle. unfold statistics.float_sqrt_of_frac.
  destruct (bit_length_spec m Hm) as [[Hm1 Hm2] Hbm].
  assert (H53 : 0 < 2 ^ 53 - 1) by (change (2 ^ 53) with 9007199254740992; lia).
  assert (H971 : 0 < 2 ^ 971) by (apply Z.pow_pos_nonneg; lia).
  remember (2 ^ 53 - 1) as c eqn:Ec.
  set (q := (bit_length n - bit_length m - 109) / 2).
  destruct (Z.leb_spec 0 q) as [Hq|Hq].
  - assert (Hnpos : 0 < n).
    { destruct (Z.eq_dec n 0) as [->|]; [exfalso|lia].
      assert (q < 0); [|lia]. unfold q. change (bit_length 0) with 0.
      apply Z.div_lt_upper_bound; lia. }
    destruct (bit_length_spec n Hnpos) as [[Hn1 Hn2] Hbn].
    assert (Hq969 : q ≤ 969).
    { assert (Hlt : 2 ^ (bit_length n - 1) < 2 ^ (53 + 971 + (53 + 971) + bit_length m)).
      { rewrite !Z.pow_add_r by lia.
        remember (2 ^ 971) as A. remember (2 ^ bit_length m) as M.
        remember (2 ^ (bit_length n - 1)) as N'.
        assert (c < 2 ^ 53) by lia. remember (2 ^ 53) as T.
        assert (c * A < T * A) by nia.
        assert (0 < c * A) by nia.
        remember (c * A) as K. remember (T * A) as L.
        assert (K * K < L * L) by nia.
        assert (K * K * m < L * L * M) by nia. lia. }
      apply Z.pow_lt_mono_r_iff in Hlt; [|lia..].
      assert (q < 970); [|lia]. unfold q. apply Z.div_lt_upper_bound; lia. }
    rewrite !Z.shiftl_mul_pow2 by lia.
    assert (Hpq : 0 < 2 ^ q) by (apply Z.pow_pos_nonneg; lia).
    assert (Hp2q : 2 ^ (2 * q) = 2 ^ q * 2 ^ q)
      by (rewrite <- Z.pow_add_r by lia; f_equal; lia).
    assert (Hsplit : 2 ^ 971 = 2 ^ (971 - q) * 2 ^ q)
      by (rewrite <- Z.pow_add_r by lia; f_equal; lia).
    assert (Hpr : 0 < 2 ^ (971 - q)) by (apply Z.pow_pos_nonneg; lia).
    remember (2 ^ 971) as A. remember (2 ^ q) as Q. remember (2 ^ (971 - q)) as R.
    set (B := c * R).
    destruct (rto_le n (m * 2 ^ (2 * q)) B) as [Hr0 Hr1]; [lia|nia|unfold B; nia| |].
    { rewrite Hp2q. unfold B.
      replace (c * R * (c * R) * (m * (Q * Q)))
        with (c * (R * Q) * (c * (R * Q)) * m) by ring.
      now rewrite <- Hsplit. }
    apply int_truediv_returns; [lia|]. rewrite <- Ec, <- HeqA.
    remember (statistics.integer_sqrt_of_frac_rto n (m * 2 ^ (2 * q))) as r.
    rewrite Z.abs_eq by nia. rewrite Hsplit. unfold B in Hr1. nia.
  - rewrite !Z.shiftl_mul_pow2 by lia. rewrite Z.mul_1_l.
    assert (Hpq : 0 < 2 ^ (- q)) by (apply Z.pow_pos_nonneg; lia).
    assert (Hp2q : 2 ^ (- 2 * q) = 2 ^ (- q) * 2 ^ (- q))
      by (rewrite <- Z.pow_add_r by lia; f_equal; lia).
    remember (2 ^ 971) as A. remember (2 ^ (- q)) as Q.
    set (B := c * A * Q).
    destruct (rto_le (n * 2 ^ (- 2 * q)) m B) as [Hr0 Hr1]; [nia|lia|unfold B; nia| |].
    { rewrite Hp2q. unfold B.
      replace (c * A * Q * (c * A * Q) * m)
        with (c * A * (c * A) * m * (Q * Q)) by ring.
      nia. }
    apply int_truediv_returns; [lia|]. rewrite <- Ec, <- HeqA.
    rewrite Z.abs_eq by lia. exact Hr1.
Qed.

Lemma pstdev_finite (data : list float) :
  data ≠ [] → Forall (λ x, is_finite x = true) data →
  ∃ s, statistics.pstdev data = Return s ∧ is_finite s = true.
Proof.
  intros Hne Hfin.
  destruct (exact_sums_finite data Hfin) as (sx & sxx & Hs & _ & Hsxx & Hsq).
  unfold statistics.pstdev. destruct data as [|x rest]; [contradiction|]. rewrite Hs.
  assert (Hlen : 0 < len (x :: rest)) by (unfold len; cbn [length]; lia).
  remember (len (x :: rest)) as count eqn:Ecount. clear Ecount Hs.
  assert (HC : 0 < 2 ^ 1074) by (apply Z.pow_pos_nonneg; lia).
  assert (HK : 0 ≤ (2 ^ 53 - 1) * 2 ^ 971).
  { assert (0 < 2 ^ 971) by (apply Z.pow_pos_nonneg; lia).
    change (2 ^ 53) with 9007199254740992. remember (2 ^ 971) as A. nia. }
  remember ((2 ^ 53 - 1) * 2 ^ 971) as K eqn:EK. remember (2 ^ 1074) as C eqn:EC.
  set (num := count * sxx - sx * sx). set (den := count * count * (C * C)).
  assert (Hnum : 0 ≤ num).
  { specialize (Hsq count sx). unfold num. nia. }
  assert (Hden : 0 < den) by (unfold den; nia).
  assert (Hbound : num ≤ K * K * den).
  { assert (0 ≤ sx * sx) by nia. unfold num, den.
    replace (K * K * (count * count * (C * C)))
      with (count * (count * (K * C * (K * C)))) by ring.
    nia. }
  pose proof (Z.gcd_nonneg num den) as Hg0.
  assert (Hg : 0 < Z.gcd num den).
  { destruct (Z.eq_dec (Z.gcd num den) 0) as [E|]; [|lia].
    apply Z.gcd_eq_0_r in E. lia. }
  destruct (Z.gcd_divide_l num den) as [n' Hn'].
  destruct (Z.gcd_divide_r num den) as [m' Hm'].
  remember (Z.gcd num den) as g.
  replace (num / g) with n' by (rewrite Hn', Z.div_mul; lia).
  replace (den / g) with m' by (rewrite Hm', Z.div_mul; lia).
  apply float_sqrt_of_frac_returns; [nia|nia|]. rewrite <- EK.
  assert (0 ≤ K * K) by nia. remember (K * K) as KK.
  rewrite Hn', Hm' in Hbound. nia.
Qed.

(** A sequence that repeats one number has the standard deviation zero,
    exactly. *)
Lemma exact_sums_constant (a : Z) (data : list float) :
  Forall (λ x, statistics.exact_ratio x = Some a) data →
  statistics.exact_sums data = Some (len data * a, len data * (a * a)).
Proof.
  induction 1 as [|x data Hx _ IH]; [reflexivity|].
  cbn [statistics.exact_sums]. rewrite Hx, IH.
  replace (len (x :: data)) with (len data + 1) by (unfold len; cbn [length]; lia).
  f_equal. f_equal; ring.
Qed.

Lemma pstdev_constant (x : float) (data : list float) :
  is_finite x = true → data ≠ [] → Forall (eq x) data →
  statistics.pstdev data = Return 0%float.
Proof.
  intros Hx Hne Hall.
  destruct (exact_ratio_finite x Hx) as (a & Ha & _).
  assert (Hsums : statistics.exact_sums data = Some (len data * a, len data * (a * a))).
  { apply exact_sums_constant. apply (Forall_impl _ _ _ Hall). now intros y <-. }
  unfold statistics.pstdev. destruct data as [|y rest]; [contradiction|]. rewrite Hsums.
  assert (Hlen : 0 < len (y :: rest)) by (unfold len; cbn [length]; lia).
  remember (len (y :: rest)) as count eqn:Ecount. clear Ecount Hsums.
  assert (HC : 0 < 2 ^ 1074) by (apply Z.pow_pos_nonneg; lia).
  remember (2 ^ 1074) as C eqn:EC.
  replace (count * (count * (a * a)) - count * a * (count * a)) with 0 by ring.
  assert (Hden : 0 < count * count * (C * C)) by nia.
  remember (count * count * (C * C)) as den eqn:Eden.
  cbv zeta. rewrite Z.gcd_0_l, Z.abs_eq by lia.
  rewrite Z.div_0_l, Z.div_same by lia.
  reflexivity.
Qed.

Lemma pstdev_not_finite (data : list float) :
  Exists (λ x, is_finite x = false) data → statistics.pstdev data = Raise AttributeError.
Proof.
  intros Hex. unfold statistics.pstdev. rewrite (exact_sums_not_finite data Hex).
  destruct data; [inversion Hex | reflexivity].
Qed.

Lemma finite_or_not (data : list float) :
  Forall (λ x, is_finite x = true) data ∨ Exists (λ x, is_finite x = false) data.
Proof.
  induction data as [|x data [IH|IH]]; [left; constructor|..].
  - destruct (is_finite x) eqn:E; [left; now constructor | right; now left].
  - right. now right.
Qed.

Lemma mean_returns (data : list float) :
  data ≠ [] → ∃ m, statistics.mean data = Return m.
Proof.
  intros Hne. destruct (finite_or_not data) as [Hfin|Hex].
  - destruct (mean_finite data Hne Hfin) as (m & Hm & _). eauto.
  - unfold statistics.mean. destruct data as [|x rest]; [contradiction|].
    rewrite (exact_sums_not_finite _ Hex). eauto.
Qed.

Lemma forallb_is_finite (l : list float) :
  forallb is_finite l = true ↔ Forall (λ x, is_finite x = true) l.
Proof.
  induction l as [|x l IH]; cbn [forallb]; [split; [constructor | reflexivity]|].
  rewrite andb_true_iff, IH, Forall_cons. reflexivity.
Qed.

Lemma forallb_is_finite_false (l : list float) :
  forallb is_finite l = false → Exists (λ x, is_finite x = false) l.
Proof.
  intros Hf. destruct (finite_or_not l) as [Hfin|Hex]; [|exact Hex].
  apply forallb_is_finite in Hfin. congruence.
Qed.

(** For a window size of at least one, [values[-w:]] is the last [w] items. *)
Lemma slice_from_last {A : Type} (values : list A) (window_size : Z) :
  1 ≤ window_size →
  values ≠ [] →
  slice_from values (- Z.min window_size (len values))
  = drop (length values - Z.to_nat (Z.min window_size (len values))) values.
Proof.
  intros Hw Hv. unfold slice_from, slice_index, len.
  assert (0 < length values)%nat by (destruct values; [contradiction | cbn; lia]).
  replace (- Z.min window_size (Z.of_nat (length values)) <? 0) with true by lia.
  f_equal. lia.
Qed.

(** ** The sigma filter *)

Lemma sigma_filter_last_nonempty (values : list float) (window_size : Z) (k : float) :
  values ≠ [] →
  sigma_filter_last values window_size k
  = let window := slice_from values (- Z.min window_size (len values)) in
    if len window <? 2 then getitem values (-1)
    else
      mean ← statistics.mean window;
      std ← statistics.pstdev window;
      if PrimFloat.eqb std 0%float then getitem values (-1)
      else
        x ← getitem values (-1);
        if PrimFloat.ltb (PrimFloat.mul k std) (PrimFloat.abs (PrimFloat.sub x mean))
        then Return mean
        else Return x.
Proof. destruct values; [contradiction | reflexivity]. Qed.

(** C1 (amended): for every window size of at least one and every history
    whose window holds finite numbers only, the filter behaves as the
    specification words it, with the mean and the standard deviation as the
    library computes them from the exact sums.  In particular a window that
    repeats one number has the standard deviation zero, and the candidate
    comes back unchanged. *)
Theorem sigma_filter_last_correct (values : list float) (window_size : Z) (k : float) :
  1 ≤ window_size →
  Forall (λ x, is_finite x = true) (spec_window values window_size) →
  sigma_filter_last_spec values window_size k
  ∧ (∀ candidate,
       last values = Some candidate →
       Forall (eq candidate) (spec_window values window_size) →
       sigma_filter_last values window_size k = Return candidate).
Proof.
  intros Hw Hfin.
  assert (Hspec : sigma_filter_last_spec values window_size k); [|split; [exact Hspec|]].
  2: { intros candidate Hlast Hall. specialize (Hspec candidate Hlast). cbv zeta in Hspec.
       destruct (2 <=? length (spec_window values window_size))%nat eqn:Hlen;
         [|exact Hspec].
       destruct Hspec as (mean & std & _ & Hstd & ->).
       assert (Hwne : spec_window values window_size ≠ []).
       { intros E. rewrite E in Hlen. discriminate. }
       assert (Hcand : is_finite candidate = true).
       { destruct (spec_window values window_size) as [|y rest]; [contradiction|].
         apply Forall_cons in Hall as [-> _]. now apply Forall_cons in Hfin as [? _]. }
       rewrite (pstdev_constant candidate _ Hcand Hwne Hall) in Hstd.
       injection Hstd as <-. reflexivity. }
  intros candidate Hlast.
  assert (Hne : values ≠ []) by (intros ->; discriminate).
  pose proof (slice_from_last values window_size Hw Hne) as Hslice.
  pose proof (getitem_last values candidate Hlast) as Hget.
  rewrite (sigma_filter_last_nonempty values window_size k Hne).
  cbv zeta. rewrite Hslice, Hget. fold (spec_window values window_size).
  set (window := spec_window values window_size) in *.
  destruct (2 <=? length window)%nat eqn:Hlen.
  - apply Nat.leb_le in Hlen.
    assert (Hlt : (len window <? 2) = false) by (unfold len; lia).
    assert (Hwne : window ≠ []) by (intros E; rewrite E in Hlen; cbn in Hlen; lia).
    destruct (mean_finite window Hwne Hfin) as (mean & Hmean & _).
    destruct (pstdev_finite window Hwne Hfin) as (std & Hstd & _).
    exists mean, std. split; [exact Hmean|]. split; [exact Hstd|].
    rewrite Hlt, Hmean, Hstd.
    cbn [mbind exc_mbind exc_bind].
    destruct (PrimFloat.eqb std 0); [reflexivity|].
    now destruct (PrimFloat.ltb _ _).
  - apply Nat.leb_gt in Hlen.
    assert (Hlt : (len window <? 2) = true) by (unfold len; lia).
    now rewrite Hlt.
Qed.

Lemma sigma_filter_last_correct_witness :
  sigma_filter_last_spec [10; 10; 10; 10; 10; 100]%float 10 3%float
  ∧ (∀ candidate,
       last [10; 10; 10; 10; 10; 100]%float = Some candidate →
       Forall (eq candidate) (spec_window [10; 10; 10; 10; 10; 100]%float 10) →
       sigma_filter_last [10; 10; 10; 10; 10; 100]%float 10 3%float = Return candidate).
Proof.
  apply sigma_filter_last_correct; [lia|].
  change (spec_window [10; 10; 10; 10; 10; 100]%float 10)
    with [10; 10; 10; 10; 10; 100]%float.
  repeat constructor.
Defined.

(** Three readings of 0.1: the exact sums give the deviation zero, where
    adding the rounded squares would not. *)
Lemma constant_window_kept :
  statistics.pstdev [0x1.999999999999ap-4; 0x1.999999999999ap-4; 0x1.999999999999ap-4]%float
  = Return 0%float
  ∧ sigma_filter_last
      [0x1.999999999999ap-4; 0x1.999999999999ap-4; 0x1.999999999999ap-4]%float 10 3%float
    = Return 0x1.999999999999ap-4%float.
Proof. split; vm_compute; reflexivity. Qed.

(** The specification's wording fails in two ways.  For a window size of
    zero [values[-0:]] is the whole history, not its last zero items.  And on
    a window that holds an infinity the standard deviation is not computed:
    the library raises. *)
Lemma sigma_filter_last_spec_refuted :
  ¬ sigma_filter_last_spec [0; 0; 0; 0; 0; 0; 0; 0; 0; 0; 100]%float 0 3%float
  ∧ ¬ sigma_filter_last_spec [1; infinity]%float 10 3%float.
Proof.
  split.
  - intros Hspec. specialize (Hspec 100%float eq_refl).
    apply (f_equal (λ r, match r with
                         | Return x => PrimFloat.eqb x 100%float
                         | Raise _ => true
                         end)) in Hspec.
    vm_compute in Hspec. discriminate.
  - intros Hspec. specialize (Hspec infinity eq_refl).
    vm_compute in Hspec. destruct Hspec as (mean & std & _ & Hstd & _).
    discriminate.
Qed.

(** The worked example as the specification states it does not hold: the
    filter does not return the mean of the window. *)
Lemma example_history_not_replaced :
  sigma_filter_last example_history 10 3%float ≠ statistics.mean example_history.
Proof.
  intros Heq.
  apply (f_equal (λ r, match r with
                       | Return x => PrimFloat.eqb x 100%float
                       | Raise _ => false
                       end)) in Heq.
  vm_compute in Heq. discriminate.
Qed.

(** C2 (amended): on [10,10,10,10,10,100] with a window of 10 and k = 3 the
    filter returns the candidate 100 unchanged.  The mean of the window is 25
    and three standard deviations (about 100.6) exceed the distance 75 of the
    candidate from the mean, so 100 is not classified as an outlier. *)
Theorem example_history_kept :
  sigma_filter_last example_history 10 3%float = Return 100%float
  ∧ statistics.mean example_history = Return 25%float
  ∧ ∃ std, statistics.pstdev example_history = Return std
           ∧ PrimFloat.ltb 33.5%float std = true
           ∧ PrimFloat.ltb (PrimFloat.mul 3 std)
                           (PrimFloat.abs (PrimFloat.sub 100 25)) = false.
Proof.
  split; [now vm_compute|]. split; [now vm_compute|].
  eexists. split; [vm_compute; reflexivity|].
  split; now vm_compute.
Qed.

(** C10 (amended): on the empty history the filter returns NaN without
    raising; on a non-empty one it returns when its window has fewer than
    two items or holds finite numbers only, and raises [AttributeError] when
    a window of two or more items holds an infinity or a NaN. *)
Theorem sigma_filter_last_total :
  (∀ window_size k, sigma_filter_last [] window_size k = Return PrimFloat.nan)
  ∧ (∀ values window_size k,
       values ≠ [] →
       if (len (code_window values window_size) <? 2)
          || forallb is_finite (code_window values window_size)
       then ∃ r, sigma_filter_last values window_size k = Return r
       else sigma_filter_last values window_size k = Raise AttributeError).
Proof.
  split; [reflexivity|]. intros values window_size k Hne.
  destruct (last_nonempty values Hne) as [x Hx].
  rewrite (sigma_filter_last_nonempty values window_size k Hne). cbv zeta.
  rewrite (getitem_last values x Hx). fold (code_window values window_size).
  set (window := code_window values window_size).
  destruct (len window <? 2) eqn:Hlen; cbn [orb]; [eauto|].
  assert (Hwne : window ≠ []).
  { intros E. rewrite E in Hlen. discriminate. }
  destruct (forallb is_finite window) eqn:Hfin.
  - apply forallb_is_finite in Hfin.
    destruct (mean_finite window Hwne Hfin) as (mean & -> & _).
    destruct (pstdev_finite window Hwne Hfin) as (std & -> & _).
    cbn [mbind exc_mbind exc_bind].
    destruct (PrimFloat.eqb std 0); [eauto|].
    destruct (PrimFloat.ltb _ _); eauto.
  - apply forallb_is_finite_false in Hfin.
    destruct (mean_returns window Hwne) as [mean ->].
    rewrite (pstdev_not_finite window Hfin). reflexivity.
Qed.

(** The filter is not total: a history of two values of which one is an
    infinity makes it raise. *)
Lemma sigma_filter_last_not_total : ¬ never_raises.
Proof.
  intros Htotal. destruct (Htotal [1; infinity]%float 10 3%float) as [r Hr].
  vm_compute in Hr. discriminate.
Qed.

(** ** Stopping an experiment *)

Lemma stop_experiment_returns (a : ArduinoDataApp) :
  let data := default [] (experiments a !! current_experiment a) in
  stop_experiment a
  = Return {| is_recording := false;
              data_queue := data_queue a;
              experiments := experiments a;
              current_experiment := current_experiment a + 1;
              serial_port := false;
              ui := ui a ++
                match data with
                | [] => []
                | _ => [LogFinished (current_experiment a);
                        LogSummary (len data)
                          (PrimFloat.div (sum (map snd data)) (float_of_int (len data)))]
                end |}.
Proof.
  unfold stop_experiment. cbn.
  destruct (default [] (experiments a !! current_experiment a)) as [|s data] eqn:E.
  - cbn. now rewrite app_nil_r.
  - unfold truediv.
    assert (Hlen : (len (map snd (s :: data)) =? 0) = false).
    { unfold len. cbn [map length]. apply Z.eqb_neq. lia. }
    rewrite Hlen. cbn. unfold len. cbn [length]. now rewrite !length_map.
Qed.

(** C8: stopping never raises: the mean is computed, and the summary
    logged, only when the active experiment holds at least one sample; with
    no sample nothing is divided and nothing is logged. *)
Theorem stop_experiment_summary (a : ArduinoDataApp) :
  let data := default [] (experiments a !! current_experiment a) in
  ∃ a', stop_experiment a = Return a'
    ∧ ui a' = ui a ++
        match data with
        | [] => []
        | _ => [LogFinished (current_experiment a);
                LogSummary (len data)
                  (PrimFloat.div (sum (map snd data)) (float_of_int (len data)))]
        end
    ∧ experiments a' = experiments a
    ∧ current_experiment a' = current_experiment a + 1
    ∧ is_recording a' = false.
Proof.
  intros data. eexists. split; [apply stop_experiment_returns|].
  cbn. auto.
Qed.

(** ** When an experiment's sequence comes into being *)

(** Starting and stopping the first experiment of a session, with no sample
    in between, leaves the store mapping id 1 to the empty sequence. *)
Lemma start_creates_empty_sequence : ¬ created_on_first_sample.
Proof.
  intros Hclaim.
  specialize (Hclaim simulator_env [] init
                (set_current_experiment 2
                   (set_is_recording false
                      (start_experiment simulator_env init)))
                eq_refl eq_refl).
  vm_compute in Hclaim. discriminate.
Qed.

Lemma collect_data_body_dom (timestamp : float) (reading : option float)
    (a : ArduinoDataApp) :
  dom (experiments (collect_data_body timestamp reading a)) = dom (experiments a)
  ∧ current_experiment (collect_data_body timestamp reading a) = current_experiment a.
Proof.
  unfold collect_data_body.
  destruct reading as [value|]; [|done].
  destruct (experiments a !! current_experiment a) as [exp_list|] eqn:E; [|done].
  destruct (sigma_filter_last _ _ _); [|done].
  cbn. split; [|done].
  rewrite dom_insert_L.
  assert (Hin : current_experiment a ∈ dom (experiments a)) by (apply elem_of_dom; eauto).
  apply set_eq. intros k. rewrite elem_of_union, elem_of_singleton.
  split; [intros [->|Hk]; assumption | now right].
Qed.

Lemma collect_data_dom (feed : list (float * option float)) (a : ArduinoDataApp) :
  dom (experiments (collect_data feed a)) = dom (experiments a).
Proof.
  revert a. induction feed as [|[t r] feed IH]; intros a; [done|].
  cbn. destruct (is_recording a); [|done].
  rewrite IH. apply collect_data_body_dom.
Qed.

Lemma collect_data_body_extends (timestamp : float) (reading : option float)
    (a : ArduinoDataApp) (k : Z) (l : list sample) :
  experiments a !! k = Some l →
  ∃ more, experiments (collect_data_body timestamp reading a) !! k = Some (l ++ more).
Proof.
  intros Hl. unfold collect_data_body.
  assert (Hsame : ∃ more, experiments a !! k = Some (l ++ more)).
  { exists []. now rewrite app_nil_r. }
  destruct reading as [value|]; [|exact Hsame].
  destruct (experiments a !! current_experiment a) as [exp_list|] eqn:E; [|exact Hsame].
  destruct (sigma_filter_last _ _ _) as [filtered_value|]; [|exact Hsame].
  cbn [experiments put set_experiments].
  destruct (decide (current_experiment a = k)) as [<-|Hk].
  - pose proof (eq_trans (eq_sym E) Hl) as Heq. injection Heq as ->.
    rewrite lookup_insert_eq. now exists [(timestamp, filtered_value)].
  - now rewrite lookup_insert_ne.
Qed.

Lemma collect_data_extends (feed : list (float * option float)) (a : ArduinoDataApp)
    (k : Z) (l : list sample) :
  experiments a !! k = Some l →
  ∃ more, experiments (collect_data feed a) !! k = Some (l ++ more).
Proof.
  revert a l. induction feed as [|[t r] feed IH]; intros a l Hl.
  - exists []. now rewrite app_nil_r.
  - cbn [collect_data]. destruct (is_recording a).
    + destruct (collect_data_body_extends t r a k l Hl) as [more1 H1].
      destruct (IH _ _ H1) as [more2 H2].
      exists (more1 ++ more2). now rewrite app_assoc.
    + exists []. now rewrite app_nil_r.
Qed.

Lemma start_experiment_store (env : start_env) (a : ArduinoDataApp) :
  experiments (start_experiment env a)
  = match experiments a !! current_experiment a with
    | None => <[current_experiment a := []]> (experiments a)
    | Some _ => experiments a
    end.
Proof.
  unfold start_experiment.
  destruct (experiments a !! current_experiment a);
    destruct (mode_var env); cbn;
    repeat match goal with |- context [if ?b then _ else _] => destruct b end;
    reflexivity.
Qed.

(** C5 (amended): the sequence of the active experiment is created, empty,
    by [start_experiment] when the store has none for that id; acquisition
    only appends to existing sequences and never adds an id; stopping leaves
    the store as it is. *)
Theorem sequence_created_at_start (env : start_env) (a : ArduinoDataApp)
    (feed : list (float * option float)) :
  experiments (start_experiment env a)
  = match experiments a !! current_experiment a with
    | None => <[current_experiment a := []]> (experiments a)
    | Some _ => experiments a
    end
  ∧ dom (experiments (collect_data feed a)) = dom (experiments a)
  ∧ (∀ k l, experiments a !! k = Some l →
       ∃ more, experiments (collect_data feed a) !! k = Some (l ++ more))
  ∧ ∃ a', stop_experiment a = Return a' ∧ experiments a' = experiments a.
Proof.
  split; [apply start_experiment_store|].
  split; [apply collect_data_dom|].
  split; [apply collect_data_extends|].
  eexists. split; [apply stop_experiment_returns | reflexivity].
Qed.

(** ** Loading *)

Lemma omap_cons_match {A B : Type} (f : A → option B) (x : A) (l : list A) :
  omap f (x :: l) = match f x with Some y => y :: omap f l | None => omap f l end.
Proof. reflexivity. Qed.

Section Loading.
Variable float_of_str : string → option float.

Lemma samples_for_app (id : Z) (l1 l2 : list (Z * sample)) :
  samples_for id (l1 ++ l2) = samples_for id l1 ++ samples_for id l2.
Proof. apply omap_app. Qed.

Lemma load_row_accepted (a : ArduinoDataApp) (r : row) :
  load_row float_of_str a r
  = match accepted float_of_str r with
    | None => a
    | Some (exp_num, s) =>
        {| is_recording := is_recording a;
           data_queue := data_queue a;
           experiments :=
             <[exp_num := default [] (experiments a !! exp_num) ++ [s]]> (experiments a);
           current_experiment := Z.max (current_experiment a) (exp_num + 1);
           serial_port := serial_port a;
           ui := ui a |}
    end.
Proof.
  unfold load_row, accepted.
  destruct (len r <? 3); [reflexivity|].
  destruct (parse_row float_of_str r) as [[exp_num s]|]; [|reflexivity].
  cbn [set_experiments current_experiment].
  destruct (Z.geb_spec exp_num (current_experiment a)) as [Hge|Hlt];
    unfold set_current_experiment, set_experiments; cbn; f_equal; lia.
Qed.

Lemma load_rows_frame (rows : list row) (a : ArduinoDataApp) :
  let a' := fold_left (load_row float_of_str) rows a in
  is_recording a' = is_recording a ∧ data_queue a' = data_queue a
  ∧ serial_port a' = serial_port a ∧ ui a' = ui a.
Proof.
  revert a. induction rows as [|r rows IH]; intros a; [done|].
  cbn [fold_left]. specialize (IH (load_row float_of_str a r)).
  rewrite load_row_accepted in IH |- *.
  destruct (accepted float_of_str r) as [[exp_num s]|]; exact IH.
Qed.

(** The store after the loop, id by id. *)
Lemma load_rows_lookup (rows : list row) (a : ArduinoDataApp) (id : Z) :
  experiments (fold_left (load_row float_of_str) rows a) !! id
  = match samples_for id (omap (accepted float_of_str) rows) with
    | [] => experiments a !! id
    | new => Some (default [] (experiments a !! id) ++ new)
    end.
Proof.
  revert a. induction rows as [|r rows IH]; intros a; [done|].
  cbn [fold_left]. rewrite IH, load_row_accepted, omap_cons_match.
  destruct (accepted float_of_str r) as [[exp_num s]|]; [|reflexivity].
  unfold samples_for. rewrite omap_cons_match. cbn [fst snd experiments].
  destruct (decide (exp_num = id)) as [->|Hne].
  - rewrite lookup_insert_eq. cbn [default].
    destruct (omap _ (omap (accepted float_of_str) rows)) as [|s' new]; cbn [app].
    + reflexivity.
    + unfold Datatypes.id. now rewrite <- app_assoc.
  - now rewrite lookup_insert_ne.
Qed.

(** The active id after the loop. *)
Lemma load_rows_current (rows : list row) (a : ArduinoDataApp) :
  current_experiment (fold_left (load_row float_of_str) rows a)
  = fold_left (λ c p, Z.max c (p.1 + 1)) (omap (accepted float_of_str) rows)
      (current_experiment a).
Proof.
  revert a. induction rows as [|r rows IH]; intros a; [done|].
  cbn [fold_left]. rewrite IH, load_row_accepted, omap_cons_match.
  now destruct (accepted float_of_str r) as [[exp_num s]|].
Qed.

Lemma load_rows_same_store (rows : list row) (a b : ArduinoDataApp) :
  experiments a = experiments b →
  current_experiment a = current_experiment b →
  experiments (fold_left (load_row float_of_str) rows a)
  = experiments (fold_left (load_row float_of_str) rows b)
  ∧ current_experiment (fold_left (load_row float_of_str) rows a)
    = current_experiment (fold_left (load_row float_of_str) rows b).
Proof.
  intros He Hc. split.
  - apply map_eq. intros id. now rewrite !load_rows_lookup, He.
  - now rewrite !load_rows_current, Hc.
Qed.

End Loading.

Lemma accepted_iff (float_of_str : string → option float) (r : row)
    (exp_num : Z) (timestamp value : float) :
  accepted float_of_str r = Some (exp_num, (timestamp, value))
  ↔ 3 ≤ len r
    ∧ int_of_str (lstrip_E (nth 0 r EmptyString)) = Some exp_num
    ∧ float_of_str (nth 1 r EmptyString) = Some timestamp
    ∧ float_of_str (nth 2 r EmptyString) = Some value.
Proof.
  unfold accepted, parse_row.
  destruct (Z.ltb_spec (len r) 3) as [Hshort|Hlong].
  - split; [discriminate | lia].
  - destruct (int_of_str _) as [k|]; cbn.
    2: { split; [discriminate | intros (_ & ? & _); discriminate]. }
    destruct (float_of_str (nth 1 r EmptyString)) as [t|]; cbn.
    2: { split; [discriminate | intros (_ & _ & ? & _); discriminate]. }
    destruct (float_of_str (nth 2 r EmptyString)) as [v|]; cbn.
    2: { split; [discriminate | intros (_ & _ & _ & ?); discriminate]. }
    split.
    + intros [= -> -> ->]. auto.
    + intros (_ & [= ->] & [= ->] & [= ->]). reflexivity.
Qed.

(** ** Loading is not atomic *)

(** A load that fails on opening the file still leaves the store empty and
    the active id at 1. *)
Lemma failed_load_empties_store : ¬ load_is_atomic.
Proof.
  intros Hatomic.
  destruct (Hatomic (λ _, None) EmptyString Unreadable session_with_one_sample eq_refl)
    as [_ Hcur].
  vm_compute in Hcur. discriminate.
Qed.

(** C6 (amended): once a file is chosen, loading first empties the store and
    resets the active id to 1, then reads.  Nothing of the previous store
    survives, whether the load succeeds or fails: if the file cannot be
    opened the store stays empty with active id 1, and if reading breaks off
    the store holds the rows accepted so far.  Only cancelling the file
    dialog leaves the state unchanged. *)
Theorem open_data_replaces (float_of_str : string → option float)
    (filename : string) (file : file_read) (a : ArduinoDataApp) :
  let a' := open_data float_of_str (Some filename) file a in
  let fresh := open_data float_of_str (Some filename) file init in
  experiments a' = experiments fresh
  ∧ current_experiment a' = current_experiment fresh
  ∧ (file = Unreadable →
       experiments a' = ∅ ∧ current_experiment a' = 1
       ∧ ui a' = ui a ++ [ShowError LoadFailed])
  ∧ (∀ rows complete k, file = Rows rows complete →
       experiments a' !! k
       = match samples_for k (omap (accepted float_of_str) (tail rows)) with
         | [] => None
         | l => Some l
         end)
  ∧ open_data float_of_str None file a = a.
Proof.
  cbv zeta.
  assert (Hsame : ∀ rows,
    experiments (fold_left (load_row float_of_str) rows
                   (set_current_experiment 1 (set_experiments ∅ a)))
    = experiments (fold_left (load_row float_of_str) rows
                     (set_current_experiment 1 (set_experiments ∅ init)))
    ∧ current_experiment (fold_left (load_row float_of_str) rows
                            (set_current_experiment 1 (set_experiments ∅ a)))
      = current_experiment (fold_left (load_row float_of_str) rows
                              (set_current_experiment 1 (set_experiments ∅ init)))).
  { intros rows. now apply load_rows_same_store. }
  split; [|split; [|split; [|split; [|reflexivity]]]].
  - destruct file as [|rows [|]]; cbn; [reflexivity | apply Hsame..].
  - destruct file as [|rows [|]]; cbn; [reflexivity | apply Hsame..].
  - now intros ->.
  - intros rows complete k ->.
    assert (Hlook : experiments (fold_left (load_row float_of_str) (tail rows)
                       (set_current_experiment 1 (set_experiments ∅ a))) !! k
                    = match samples_for k (omap (accepted float_of_str) (tail rows)) with
                      | [] => None
                      | l => Some l
                      end).
    { rewrite load_rows_lookup. cbn [experiments set_experiments set_current_experiment].
      rewrite lookup_empty. now destruct (samples_for _ _). }
    now destruct complete.
Qed.

(** ** Labels: [int(str(n))] and the prefix *)

Lemma string_of_uint_all_digits (d : Decimal.uint) :
  all_digits (NilEmpty.string_of_uint d) = true.
Proof. induction d; cbn [NilEmpty.string_of_uint all_digits]; now rewrite ?IHd. Qed.

Lemma string_of_uint_nonempty (d : Decimal.uint) :
  d ≠ Decimal.Nil → NilEmpty.string_of_uint d ≠ EmptyString.
Proof. destruct d; [contradiction | discriminate..]. Qed.

Lemma is_digit_facts (a : ascii) :
  is_digit a = true →
  is_space a = false ∧ Ascii.eqb a "_" = false
  ∧ Ascii.eqb a "-" = false ∧ Ascii.eqb a "+" = false
  ∧ Ascii.eqb a "208" = false ∧ Ascii.eqb a "209" = false.
Proof.
  destruct a as [[] [] [] [] [] [] [] []]; intros Hd;
    try discriminate Hd; repeat split; reflexivity.
Qed.

Lemma rstrip_space_cons (a : ascii) (rest : string) :
  rstrip_space (String a rest)
  = match rstrip_space rest with
    | EmptyString => if is_space a then EmptyString else String a EmptyString
    | rest' => String a rest'
    end.
Proof. reflexivity. Qed.

Lemma rstrip_space_all_digits (s : string) :
  all_digits s = true → rstrip_space s = s.
Proof.
  induction s as [|a rest IH]; [reflexivity|].
  cbn [all_digits rstrip_space]. intros [Ha Hrest]%andb_prop.
  rewrite (IH Hrest).
  destruct rest; [|reflexivity].
  now rewrite (proj1 (is_digit_facts a Ha)).
Qed.

Lemma drop_underscores_all_digits (s : string) (after_digit : bool) :
  all_digits s = true → drop_underscores after_digit s = Some s.
Proof.
  revert after_digit. induction s as [|a rest IH]; intros after_digit; [reflexivity|].
  cbn [all_digits drop_underscores]. intros [Ha Hrest]%andb_prop.
  destruct (is_digit_facts a Ha) as (_ & -> & _).
  now rewrite (IH _ Hrest).
Qed.

Lemma all_digits_ascii (s : string) :
  all_digits s = true → is_ascii_text s = true.
Proof.
  induction s as [|a rest IH]; [reflexivity|].
  cbn [all_digits is_ascii_text]. intros [Ha Hrest]%andb_prop.
  rewrite (IH Hrest), andb_true_r. unfold is_digit in Ha.
  apply andb_prop in Ha as [_ Ha]. apply Nat.leb_le in Ha. apply Nat.ltb_lt. lia.
Qed.

Lemma int_of_str_ascii (s : string) :
  is_ascii_text s = true → int_of_str s = int_of_ascii s.
Proof. intros Hs. unfold int_of_str. now rewrite Hs. Qed.

Lemma int_of_ascii_digits (d : Decimal.uint) :
  d ≠ Decimal.Nil →
  int_of_ascii (NilEmpty.string_of_uint d) = Some (Z.of_uint d)
  ∧ int_of_ascii (String "-" (NilEmpty.string_of_uint d)) = Some (- Z.of_uint d).
Proof.
  intros Hd.
  pose proof (string_of_uint_all_digits d) as Hall.
  pose proof (string_of_uint_nonempty d Hd) as Hne.
  pose proof (NilEmpty.usu d) as Husu.
  destruct (NilEmpty.string_of_uint d) as [|a rest] eqn:E; [contradiction|].
  pose proof Hall as Hall'.
  cbn [all_digits] in Hall'. apply andb_prop in Hall' as [Ha Hrest].
  destruct (is_digit_facts a Ha) as (Hsp & Hus & Hminus & Hplus & _).
  unfold int_of_ascii. split.
  - cbn [lstrip_space]. rewrite Hsp, (rstrip_space_all_digits _ Hall).
    assert (Hsign : match String a rest with
                    | String "-" r => (true, r)
                    | String "+" r => (false, r)
                    | _ => (false, String a rest)
                    end = (false, String a rest)).
    { destruct a as [[] [] [] [] [] [] [] []]; try reflexivity; discriminate. }
    rewrite Hsign, (drop_underscores_all_digits _ _ Hall), Husu. reflexivity.
  - cbn [lstrip_space]. change (is_space "-") with false. cbv iota.
    assert (Hr : rstrip_space (String "-" (String a rest)) = String "-" (String a rest)).
    { rewrite (rstrip_space_cons "-" (String a rest)).
      now rewrite (rstrip_space_all_digits _ Hall). }
    rewrite Hr. cbv iota beta.
    rewrite (drop_underscores_all_digits _ _ Hall), Husu. reflexivity.
Qed.

Lemma int_of_str_digits (d : Decimal.uint) :
  d ≠ Decimal.Nil →
  int_of_str (NilEmpty.string_of_uint d) = Some (Z.of_uint d)
  ∧ int_of_str (String "-" (NilEmpty.string_of_uint d)) = Some (- Z.of_uint d).
Proof.
  intros Hd. pose proof (all_digits_ascii _ (string_of_uint_all_digits d)) as Hascii.
  rewrite !int_of_str_ascii; [now apply int_of_ascii_digits | | exact Hascii].
  cbn [is_ascii_text]. now rewrite Hascii.
Qed.

Lemma int_of_str_of_int (n : Z) : int_of_str (str_of_int n) = Some n.
Proof.
  destruct n as [|p|p]; [reflexivity| |].
  - pose proof (DecimalZ.of_to (Z.pos p)) as Hp. cbn in Hp. rewrite <- Hp at 2.
    apply (int_of_str_digits (Pos.to_uint p)), DecimalPos.Unsigned.to_uint_nonnil.
  - pose proof (DecimalZ.of_to (Z.neg p)) as Hp. cbn in Hp. rewrite <- Hp at 2.
    apply (int_of_str_digits (Pos.to_uint p)), DecimalPos.Unsigned.to_uint_nonnil.
Qed.

Lemma str_of_int_head (n : Z) :
  ∃ a rest, str_of_int n = String a rest
            ∧ Ascii.eqb a "208" = false ∧ Ascii.eqb a "209" = false.
Proof.
  assert (Hdigits : ∀ d, d ≠ Decimal.Nil →
            ∃ a rest, NilEmpty.string_of_uint d = String a rest ∧ is_digit a = true).
  { intros d Hd. pose proof (string_of_uint_all_digits d) as Hall.
    destruct (NilEmpty.string_of_uint d) as [|a rest] eqn:E.
    - now apply string_of_uint_nonempty in E.
    - cbn in Hall. apply andb_prop in Hall as [Ha _]. eauto. }
  destruct n as [|p|p].
  - exists "0"%char, EmptyString. now vm_compute.
  - destruct (Hdigits (Pos.to_uint p) (DecimalPos.Unsigned.to_uint_nonnil p))
      as (a & rest & E & Ha).
    exists a, rest. split; [exact E|]. now destruct (is_digit_facts a Ha) as (_ & _ & _ & _ & ? & ?).
  - eexists "-"%char, _. split; [reflexivity|]. now vm_compute.
Qed.

(** The label written for experiment [n] reads back as [n]. *)
Lemma label_roundtrip (n : Z) :
  int_of_str (lstrip_E (cyrillic_E ++ str_of_int n)%string) = Some n.
Proof.
  destruct (str_of_int_head n) as (a & rest & E & H208 & H209).
  assert (Hstrip : lstrip_E (cyrillic_E ++ str_of_int n)%string = str_of_int n).
  { change (lstrip_E (cyrillic_E ++ str_of_int n)%string) with (lstrip_E (str_of_int n)).
    rewrite E. destruct rest as [|b rest']; [reflexivity|].
    cbn [lstrip_E]. now rewrite H208, H209. }
  rewrite Hstrip. apply int_of_str_of_int.
Qed.

Lemma lstrip_E_label_prefix (letters : list bool) (s : string) :
  lstrip_E (label_prefix letters ++ s)%string = lstrip_E s.
Proof.
  induction letters as [|capital letters IH]; [reflexivity|].
  cbn [label_prefix]. destruct capital; exact IH.
Qed.


(** ** Loading a file with malformed rows *)



(** What the example file loads: the two rows of the saved shape, and
    nothing of the three malformed rows between them. *)
Lemma example_file_loaded :
  omap (accepted example_float_of_str) (tail example_file)
  = [(1, (0, 2.5)%float); (2, (1, 1)%float)].
Proof. vm_compute. reflexivity. Qed.

(** ** Saving, then loading *)

Lemma samples_for_own (k : Z) (l : list sample) :
  samples_for k (map (pair k) l) = l.
Proof.
  unfold samples_for. induction l as [|s l IH]; [reflexivity|].
  cbn [map]. rewrite omap_cons_match. cbn [fst snd].
  destruct (decide (k = k)); [|contradiction]. now rewrite IH.
Qed.

Lemma samples_for_other (k j : Z) (l : list sample) :
  k ≠ j → samples_for j (map (pair k) l) = [].
Proof.
  intros Hne. unfold samples_for. induction l as [|s l IH]; [reflexivity|].
  cbn [map]. rewrite omap_cons_match. cbn [fst snd].
  destruct (decide (k = j)); [contradiction | exact IH].
Qed.

Lemma samples_for_flat_map (j : Z) (keys : list Z) (f : Z → list sample) :
  NoDup keys →
  samples_for j (flat_map (λ k, map (pair k) (f k)) keys)
  = if decide (j ∈ keys) then f j else [].
Proof.
  induction 1 as [|k keys Hk Hnd IH]; [reflexivity|].
  cbn [flat_map]. rewrite samples_for_app, IH.
  destruct (decide (k = j)) as [->|Hne].
  - rewrite samples_for_own.
    destruct (decide (j ∈ keys)); [contradiction|].
    destruct (decide (j ∈ j :: keys)) as [|Hn]; [apply app_nil_r|].
    exfalso. apply Hn. left.
  - rewrite (samples_for_other _ _ _ Hne). cbn [app].
    destruct (decide (j ∈ keys)) as [Hin|Hnin];
      destruct (decide (j ∈ k :: keys)) as [Hin'|Hnin']; try reflexivity.
    + exfalso. apply Hnin'. now right.
    + exfalso. apply elem_of_cons in Hin' as [->|?]; contradiction.
Qed.

(** The active id after loading is the largest [exp_num + 1] met, or the
    starting value when none exceeds it. *)
Lemma fold_max_spec (l : list (Z * sample)) (c : Z) :
  let r := fold_left (λ c p, Z.max c (p.1 + 1)) l c in
  c ≤ r ∧ (∀ p, p ∈ l → p.1 + 1 ≤ r) ∧ (r = c ∨ ∃ p, p ∈ l ∧ r = p.1 + 1).
Proof.
  revert c. induction l as [|q l IH]; intros c; cbn [fold_left].
  - split; [lia|]. split; [intros p Hp; inversion Hp | now left].
  - destruct (IH (Z.max c (q.1 + 1))) as (Hle & Hall & Hex). cbv zeta in *.
    split; [lia|]. split.
    + intros p [->|Hp]%elem_of_cons; [lia | now apply Hall].
    + destruct Hex as [Heq|(p & Hp & Heq)].
      * destruct (Z.max_spec c (q.1 + 1)) as [[_ Hm]|[_ Hm]].
        -- right. exists q. split; [left | now rewrite Heq].
        -- left. now rewrite Heq.
      * right. exists p. split; [now right | exact Heq].
Qed.

Section Roundtrip.
Variable str_of_float : float → string.
Variable float_of_str : string → option float.
Variable strftime_local : float → option string.

Lemma write_samples_storable (k : Z) (l : list sample) (written : list row) :
  Forall (storable_sample str_of_float float_of_str strftime_local) l →
  write_samples str_of_float strftime_local k l written
  = (written ++ map (row_of str_of_float strftime_local k) l, None).
Proof.
  intros Hl. revert written.
  induction Hl as [|[t v] l (_ & _ & [dt Hdt]) _ IH]; intros written; cbn [write_samples map].
  - now rewrite app_nil_r.
  - cbn [fst] in Hdt. rewrite Hdt, IH, <- app_assoc.
    unfold row_of. cbn [fst snd app]. now rewrite Hdt.
Qed.

Lemma write_experiments_storable (store : gmap Z (list sample)) (keys : list Z)
    (written : list row) :
  storable str_of_float float_of_str strftime_local store →
  write_experiments str_of_float strftime_local store keys written
  = (written
     ++ flat_map (λ k, map (row_of str_of_float strftime_local k)
                           (default [] (store !! k))) keys,
     None).
Proof.
  intros Hst. revert written.
  induction keys as [|k keys IH]; intros written; cbn [write_experiments flat_map].
  - now rewrite app_nil_r.
  - rewrite write_samples_storable, IH, <- app_assoc; [reflexivity|].
    destruct (store !! k) as [l|] eqn:E; [|constructor].
    now destruct (Hst k l E).
Qed.

Lemma accepted_row_of (k : Z) (s : sample) :
  storable_sample str_of_float float_of_str strftime_local s →
  accepted float_of_str (row_of str_of_float strftime_local k s) = Some (k, s).
Proof.
  intros (Ht & Hv & _). destruct s as [t v]. cbn [fst snd] in *.
  apply accepted_iff. unfold row_of. cbn [nth fst snd].
  repeat split; [unfold len; cbn; lia | apply label_roundtrip | exact Ht | exact Hv].
Qed.

Lemma accepted_rows (store : gmap Z (list sample)) (keys : list Z) :
  storable str_of_float float_of_str strftime_local store →
  omap (accepted float_of_str)
    (flat_map (λ k, map (row_of str_of_float strftime_local k)
                        (default [] (store !! k))) keys)
  = flat_map (λ k, map (pair k) (default [] (store !! k))) keys.
Proof.
  intros Hst. induction keys as [|k keys IH]; [reflexivity|].
  cbn [flat_map]. rewrite omap_app, IH. f_equal.
  assert (Hl : Forall (storable_sample str_of_float float_of_str strftime_local)
                      (default [] (store !! k))).
  { destruct (store !! k) as [l|] eqn:E; [|constructor]. now destruct (Hst k l E). }
  induction Hl as [|s l Hs _ IHl]; [reflexivity|].
  cbn [map]. now rewrite omap_cons_match, (accepted_row_of k s Hs), IHl.
Qed.

Lemma sorted_keys_spec (store : gmap Z (list sample)) :
  NoDup (sorted_keys store) ∧ ∀ k, k ∈ sorted_keys store ↔ k ∈ dom store.
Proof.
  unfold sorted_keys. split.
  - rewrite merge_sort_Permutation. apply NoDup_elements.
  - intros k. rewrite merge_sort_Permutation. apply elem_of_elements.
Qed.

End Roundtrip.

Lemma storable_two_experiments :
  storable example_str_of_float example_float_of_str example_strftime
    (experiments session_with_two_experiments).
Proof.
  apply map_Forall_insert_2; [|apply map_Forall_singleton].
  - split; [lia|]. repeat constructor; cbn; eauto.
  - split; [lia|]. repeat constructor; cbn; eauto.
Qed.

(** The round trip as worded fails on a store that holds an experiment
    without samples: no row is written for it, so its id is missing after
    loading, and the active id falls short of the largest id plus one. *)
Lemma empty_experiment_not_restored :
  storable example_str_of_float example_float_of_str example_strftime
    (experiments session_with_empty_experiment)
  ∧ ¬ roundtrip_holds example_str_of_float example_float_of_str example_strftime
        session_with_empty_experiment.
Proof.
  split.
  - apply map_Forall_insert_2; [|apply map_Forall_singleton].
    + split; [lia | constructor].
    + split; [lia|]. repeat constructor; cbn; eauto.
  - intros Hrt.
    destruct (Hrt EmptyString
               [header; row_of example_str_of_float example_strftime 1 (0, 2.5)%float]
               init) as [Hstore _].
    + vm_compute. reflexivity.
    + apply (f_equal (λ m : gmap Z (list sample), m !! 2)) in Hstore.
      vm_compute in Hstore. discriminate.
Qed.

(** C3 (amended): for a non-empty store of positive ids in which every
    experiment holds at least one sample, and whose numbers read back from
    their text and whose time stamps can be rendered as dates, saving
    succeeds, and loading what was written gives back the same ids with the
    same ordered samples and sets the active id to the largest id plus one. *)
Theorem save_then_open_restores
    (str_of_float : float → string) (float_of_str : string → option float)
    (strftime_local : float → option string) (a : ArduinoDataApp) :
  storable str_of_float float_of_str strftime_local (experiments a) →
  experiments a ≠ ∅ →
  map_Forall (λ _ l, l ≠ []) (experiments a) →
  (∃ written, ∀ filename,
      save_all_data str_of_float strftime_local (Some filename) true a
      = (emit [ShowInfo SaveSucceeded] a, Some written))
  ∧ roundtrip_holds str_of_float float_of_str strftime_local a.
Proof.
  intros Hst Hne Hfull.
  set (store := experiments a) in *.
  set (rows := flat_map (λ k, map (row_of str_of_float strftime_local k)
                                  (default [] (store !! k))) (sorted_keys store)).
  assert (Hsave : ∀ filename,
    save_all_data str_of_float strftime_local (Some filename) true a
    = (emit [ShowInfo SaveSucceeded] a, Some (header :: rows))).
  { intros filename. unfold save_all_data. fold store.
    assert (Hsize : (size store =? 0)%nat = false).
    { apply Nat.eqb_neq. intros E. now apply map_size_empty_iff in E. }
    rewrite Hsize. cbn [negb].
    now rewrite (write_experiments_storable _ float_of_str _ _ _ _ Hst). }
  split; [eauto|].
  intros filename written b Hwritten. rewrite Hsave in Hwritten.
  injection Hwritten as <-. cbv zeta.
  destruct (sorted_keys_spec store) as [Hnd Hkeys].
  assert (Hlook : ∀ k,
    samples_for k (omap (accepted float_of_str) rows)
    = default [] (store !! k)).
  { intros k. unfold rows.
    rewrite (accepted_rows _ _ strftime_local _ _ Hst).
    rewrite (samples_for_flat_map k _ (λ k, default [] (store !! k)) Hnd).
    destruct (decide (k ∈ sorted_keys store)) as [|Hn]; [reflexivity|].
    rewrite Hkeys, not_elem_of_dom in Hn. now rewrite Hn. }
  split.
  - apply map_eq. intros k. cbn [open_data experiments emit tail].
    rewrite load_rows_lookup, Hlook.
    cbn [experiments set_experiments set_current_experiment].
    rewrite lookup_empty. change (experiments a) with store.
    destruct (store !! k) as [l|] eqn:E; [|reflexivity].
    cbn [default]. unfold Datatypes.id.
    destruct l; [now apply (Hfull k) in E | reflexivity].
  - cbn [open_data current_experiment emit tail].
    rewrite load_rows_current.
    cbn [current_experiment set_experiments set_current_experiment].
    unfold rows. rewrite (accepted_rows _ _ strftime_local _ _ Hst).
    set (loaded := flat_map _ _).
    assert (Hin : ∀ p, p ∈ loaded ↔ ∃ l, store !! p.1 = Some l ∧ p.2 ∈ l).
    { intros [k s]. unfold loaded. rewrite list_elem_of_In, in_flat_map. cbn [fst snd].
      split.
      - intros (k' & Hk' & Hs). apply in_map_iff in Hs as (s' & [= <- <-] & Hs').
        destruct (store !! k') as [l|]; [|contradiction].
        exists l. split; [reflexivity | now apply list_elem_of_In].
      - intros (l & Hl & Hs). exists k. split.
        + apply list_elem_of_In, Hkeys, elem_of_dom. eauto.
        + rewrite Hl. apply in_map, list_elem_of_In, Hs. }
    destruct (fold_max_spec loaded 1) as (Hone & Hall & Hex). cbv zeta in *.
    set (r := fold_left _ loaded 1) in *.
    assert (Hdom : ∀ j, j ∈ dom store → 0 < j ∧ j + 1 ≤ r).
    { intros j [l Hl]%elem_of_dom.
      destruct (Hst j l Hl) as [Hpos _]. split; [exact Hpos|].
      destruct l as [|s l]; [now apply (Hfull j) in Hl|].
      apply (Hall (j, s)), Hin. exists (s :: l). split; [exact Hl | left]. }
    destruct Hex as [Hr|(p & Hp & Hr)].
    + exfalso. apply map_choose in Hne as (j & l & Hl).
      assert (Hj : j ∈ dom store) by (apply elem_of_dom; eauto).
      apply Hdom in Hj. lia.
    + exists p.1. split; [|exact Hr]. split.
      * apply Hin in Hp as (l & Hl & _). apply elem_of_dom. eauto.
      * intros j Hj. apply Hdom in Hj. lia.
Qed.

Lemma save_then_open_restores_witness :
  roundtrip_holds example_str_of_float example_float_of_str example_strftime
    session_with_two_experiments.
Proof.
  apply save_then_open_restores.
  - apply storable_two_experiments.
  - intros E. apply (f_equal (λ m : gmap Z (list sample), m !! 1)) in E.
    vm_compute in E. discriminate.
  - apply map_Forall_insert_2; [|apply map_Forall_singleton]; discriminate.
Defined.

(** ** The moving average *)

Lemma window_at_length {A : Type} (data : list A) (window_size : Z) (i : nat) :
  0 ≤ window_size → (i < length data)%nat →
  (1 ≤ length (window_at data window_size i))%nat.
Proof.
  intros Hw Hi. unfold window_at, slice, slice_index, len.
  assert (0 ≤ window_size / 2) by (apply Z.div_pos; lia).
  rewrite length_take, length_drop.
  repeat match goal with |- context [if ?b then _ else _] =>
    let E := fresh in destruct b eqn:E end; lia.
Qed.

Lemma window_at_sublist {A : Type} (data : list A) (window_size : Z) (i : nat) (x : A) :
  x ∈ window_at data window_size i → x ∈ data.
Proof.
  unfold window_at, slice. intros Hx.
  now apply subseteq_take, subseteq_drop in Hx.
Qed.

Section MovingAverageFacts.
Context {A : Type} `{Number A}.

Lemma moving_average_loop_returns (data : list A) (window_size : Z)
    (indices : list nat) (result : list A) :
  0 ≤ window_size →
  Forall (λ i, (i < length data)%nat) indices →
  moving_average_loop data window_size indices result
  = Return (result ++ map (average_at data window_size) indices).
Proof.
  intros Hw Hin. revert result.
  induction Hin as [|i indices Hi _ IH]; intros result; cbn [moving_average_loop map].
  - now rewrite app_nil_r.
  - fold (window_at data window_size i). unfold truediv.
    pose proof (window_at_length data window_size i Hw Hi) as Hlen.
    assert (Hnz : (len (window_at data window_size i) =? 0) = false).
    { apply Z.eqb_neq. unfold len. lia. }
    rewrite Hnz. cbn [mbind exc_mbind exc_bind].
    rewrite IH, <- app_assoc. reflexivity.
Qed.

Lemma moving_average_returns (data : list A) (window_size : Z) :
  0 ≤ window_size →
  moving_average data window_size
  = Return (if len data <=? 1 then data
            else map (average_at data window_size) (seq 0 (length data))).
Proof.
  intros Hw. unfold moving_average.
  destruct (len data <=? 1); [reflexivity|].
  rewrite moving_average_loop_returns; [reflexivity | exact Hw |].
  apply Forall_forall. intros i Hi. apply elem_of_seq in Hi. lia.
Qed.

Lemma moving_average_length (data : list A) (window_size : Z) :
  length (if len data <=? 1 then data
          else map (average_at data window_size) (seq 0 (length data)))
  = length data.
Proof.
  destruct (len data <=? 1); [reflexivity|].
  now rewrite length_map, length_seq.
Qed.

Lemma moving_average_lookup (data : list A) (window_size : Z) (i : nat) :
  (i < length data)%nat →
  map (average_at data window_size) (seq 0 (length data)) !! i
  = Some (average_at data window_size i).
Proof.
  intros Hi. rewrite list_lookup_fmap, lookup_seq_lt; [reflexivity | exact Hi].
Qed.

End MovingAverageFacts.

Lemma window_at_singleton {A : Type} (x : A) (window_size : Z) :
  0 ≤ window_size → window_at [x] window_size 0 = [x].
Proof.
  intros Hw. unfold window_at, len. cbn [length].
  assert (0 ≤ window_size / 2) by (apply Z.div_pos; lia).
  replace (Z.max 0 (Z.of_nat 0 - window_size / 2)) with 0 by lia.
  replace (Z.min (Z.of_nat 1) (Z.of_nat 0 + window_size / 2 + 1)) with 1 by lia.
  reflexivity.
Qed.

(** *** In exact arithmetic the average lies between the bounds of the data *)

Lemma Q_sum_bounds (l : list Q) (lo hi c : Q) :
  (∀ y, y ∈ l → (lo <= y <= hi)%Q) →
  (c + inject_Z (len l) * lo <= fold_left Qplus l c
   ∧ fold_left Qplus l c <= c + inject_Z (len l) * hi)%Q.
Proof.
  revert c. induction l as [|x l IH]; intros c Hl.
  - unfold len. cbn [length fold_left].
    change (inject_Z (Z.of_nat 0)) with 0%Q. split; lra.
  - destruct (Hl x) as [Hlo Hhi]; [left|].
    destruct (IH (c + x)%Q) as [IHlo IHhi].
    { intros y Hy. apply Hl. now right. }
    cbn [fold_left].
    assert (HS : (inject_Z (len (x :: l)) == inject_Z (len l) + 1)%Q).
    { unfold len. cbn [length]. rewrite Nat2Z.inj_succ, <- Z.add_1_r.
      now rewrite inject_Z_plus. }
    rewrite HS. split; lra.
Qed.

Lemma Q_average_bounds (l : list Q) (lo hi : Q) :
  l ≠ [] →
  (∀ y, y ∈ l → (lo <= y <= hi)%Q) →
  (lo <= divide_by_int (sum l) (len l) <= hi)%Q.
Proof.
  intros Hne Hl.
  destruct (Q_sum_bounds l lo hi 0%Q Hl) as [Hlo Hhi].
  assert (Hpos : (0 < inject_Z (len l))%Q).
  { change 0%Q with (inject_Z 0). rewrite <- Zlt_Qlt. unfold len.
    destruct l; [contradiction | cbn; lia]. }
  cbn [divide_by_int Q_Number]. unfold sum. cbn [plus zero Q_Number].
  split.
  - apply Qle_shift_div_l; [exact Hpos | lra].
  - apply Qle_shift_div_r; [exact Hpos | lra].
Qed.

(** *** In binary64 it need not *)

(** Three times the float nearest to 0.1: the sum rounds up, and so does
    its third. *)
Lemma moving_average_exceeds_max :
  let tenth := 0x1.999999999999ap-4%float in
  moving_average [tenth; tenth; tenth] 3
  = Return [tenth; 0x1.999999999999bp-4%float; tenth]
  ∧ ¬ within_data_range [tenth; tenth; tenth]
        [tenth; 0x1.999999999999bp-4%float; tenth].
Proof.
  cbv zeta. split; [vm_compute; reflexivity|].
  intros Hrange.
  destruct (Hrange 0x1.999999999999bp-4%float) as (lo & hi & _ & Hhi & _ & Hle).
  { right. left. }
  repeat (apply elem_of_cons in Hhi as [->|Hhi]; [vm_compute in Hle; discriminate|]).
  inversion Hhi.
Qed.

(** C4 (amended): for every window size of at least one, [moving_average]
    returns a list as long as the data.  Data of at most one item comes back
    unchanged; otherwise the item at index [i] is the quotient of the sum of
    the clipped sub-range by its length.  Read in exact (rational) arithmetic
    every such quotient is the mean of its sub-range and lies between any
    bounds of the data; the binary64 quotient can leave that range by a
    rounding error. *)
Theorem moving_average_correct (window_size : Z) :
  1 ≤ window_size →
  (∀ data : list float,
     ∃ out, moving_average data window_size = Return out
       ∧ length out = length data
       ∧ (len data ≤ 1 → out = data)
       ∧ (1 < len data → ∀ i, (i < length data)%nat →
            out !! i = Some (average_at data window_size i)))
  ∧ (∀ data : list Q,
     ∃ out, moving_average data window_size = Return out
       ∧ length out = length data
       ∧ ∀ i x, out !! i = Some x →
           (x == average_at data window_size i)%Q
           ∧ ∀ lo hi, (∀ y, y ∈ data → (lo <= y <= hi)%Q) → (lo <= x <= hi)%Q).
Proof.
  intros Hw. assert (Hw0 : 0 ≤ window_size) by lia. split.
  - intros data. eexists. split; [apply (moving_average_returns data _ Hw0)|].
    split; [apply moving_average_length|]. split.
    + intros Hle. apply Z.leb_le in Hle. now rewrite Hle.
    + intros Hlt i Hi. apply Z.leb_gt in Hlt. rewrite Hlt.
      now apply moving_average_lookup.
  - intros data. eexists. split; [apply (moving_average_returns data _ Hw0)|].
    split; [apply moving_average_length|].
    intros i x Hx.
    assert (Hi : (i < length data)%nat).
    { apply lookup_lt_Some in Hx. now rewrite moving_average_length in Hx. }
    assert (Havg : ∀ lo hi, (∀ y, y ∈ data → (lo <= y <= hi)%Q) →
              (lo <= average_at data window_size i <= hi)%Q).
    { intros lo hi Hdata. apply Q_average_bounds.
      - pose proof (window_at_length data window_size i Hw0 Hi) as Hlen.
        intros E. rewrite E in Hlen. cbn in Hlen. lia.
      - intros y Hy. eapply Hdata, window_at_sublist, Hy. }
    destruct (Z.leb_spec (len data) 1) as [Hle|Hlt].
    + assert (Hdata : data = [x] ∧ i = 0%nat).
      { unfold len in Hle. destruct data as [|y [|z data]]; cbn in Hle, Hi; try lia.
        destruct i; [|lia]. now injection Hx as ->. }
      destruct Hdata as [-> ->].
      assert (Hmean : (x == average_at [x] window_size 0)%Q).
      { unfold average_at. rewrite (window_at_singleton x window_size Hw0).
        unfold sum, len. cbn [fold_left length plus zero divide_by_int Q_Number].
        change (inject_Z (Z.of_nat 1)) with 1%Q. field. }
      split; [exact Hmean|].
      intros lo hi Hdata. rewrite Hmean. now apply Havg.
    + rewrite (moving_average_lookup data window_size i Hi) in Hx.
      injection Hx as <-. split; [reflexivity | exact Havg].
Qed.

Lemma moving_average_correct_witness :
  ∃ out, moving_average [10; 10; 10; 10; 10; 100]%float 3 = Return out
         ∧ length out = 6%nat.
Proof.
  destruct (moving_average_correct 3 ltac:(lia)) as [Hfloat _].
  destruct (Hfloat [10; 10; 10; 10; 10; 100]%float) as (out & Hout & Hlen & _).
  exists out. split; [exact Hout | exact Hlen].
Defined.

(** ** Order facts about binary64 numbers

    Comparisons of primitive floats are specified by [SFcompare] on their
    decoded form, which orders by sign, then exponent, then mantissa. *)

Lemma SFcompare_finite (s1 s2 : bool) (m1 m2 : positive) (e1 e2 : Z) :
  SFcompare (S754_finite s1 m1 e1) (S754_finite s2 m2 e2)
  = Some (if s1
          then if s2
               then match e1 ?= e2 with
                    | Eq => CompOpp (Pos.compare m1 m2)
                    | Lt => Gt
                    | Gt => Lt
                    end
               else Lt
          else if s2 then Gt
               else match e1 ?= e2 with
                    | Eq => Pos.compare m1 m2
                    | Lt => Lt
                    | Gt => Gt
                    end).
Proof. reflexivity. Qed.

Ltac order_cases :=
  repeat match goal with
  | H : context [Z.compare ?a ?b] |- _ => destruct (Z.compare_spec a b); subst
  | |- context [Z.compare ?a ?b] => destruct (Z.compare_spec a b); subst
  | H : context [Pos.compare ?a ?b] |- _ => destruct (Pos.compare_spec a b); subst
  | |- context [Pos.compare ?a ?b] => destruct (Pos.compare_spec a b); subst
  end; cbn in *; try congruence; try lia.

Ltac spec_float_cases :=
  rewrite ?SFcompare_finite; cbn -[Z.compare Pos.compare];
  try discriminate; try reflexivity; try congruence;
  repeat match goal with s : bool |- _ => destruct s end;
  cbn -[Z.compare Pos.compare]; try discriminate; try reflexivity; try congruence;
  intros; order_cases.

Lemma SFltb_trans (x y z : spec_float) :
  SFltb x y = true → SFltb y z = true → SFltb x z = true.
Proof.
  unfold SFltb.
  destruct x as [sx|sx| |sx mx ex], y as [sy|sy| |sy my ey], z as [sz|sz| |sz mz ez];
    spec_float_cases.
Qed.

Lemma SFleb_ltb_trans (x y z : spec_float) :
  SFleb x y = true → SFltb y z = true → SFltb x z = true.
Proof.
  unfold SFltb, SFleb.
  destruct x as [sx|sx| |sx mx ex], y as [sy|sy| |sy my ey], z as [sz|sz| |sz mz ez];
    spec_float_cases.
Qed.

Lemma SFltb_irrefl (x : spec_float) : SFltb x x = false.
Proof.
  unfold SFltb. destruct x as [sx|sx| |sx mx ex]; spec_float_cases.
Qed.



Module FloatOrder.

Lemma ltb_trans (x y z : float) :
  PrimFloat.ltb x y = true → PrimFloat.ltb y z = true → PrimFloat.ltb x z = true.
Proof. rewrite !ltb_spec. apply SFltb_trans. Qed.

Lemma leb_ltb_trans (x y z : float) :
  PrimFloat.leb x y = true → PrimFloat.ltb y z = true → PrimFloat.ltb x z = true.
Proof. rewrite !ltb_spec, leb_spec. apply SFleb_ltb_trans. Qed.

Lemma ltb_irrefl (x : float) : PrimFloat.ltb x x = false.
Proof. rewrite ltb_spec. apply SFltb_irrefl. Qed.




Lemma ltb_not_leb (x y : float) :
  PrimFloat.ltb x y = true → PrimFloat.leb y x = false.
Proof.
  intros Hxy. destruct (PrimFloat.leb y x) eqn:Hyx; [|reflexivity].
  now rewrite <- (ltb_irrefl y), (leb_ltb_trans y x y Hyx Hxy).
Qed.




End FloatOrder.

(** ** The hover query *)














Section Scan.
Variable hypot : float → float → float.
Variables event_x event_y : Z.

Abbreviation D := (dist_to hypot event_x event_y).
Abbreviation scan := (fold_left (on_motion_step hypot event_x event_y)).


(** The loop from any state [(closest, min_dist)]: either no point is
    strictly nearer than [min_dist] and the state is unchanged, or the
    state holds a point [q] strictly nearer than [min_dist], every point
    before [q] is strictly farther than [q] (or has no distance), and no
    point after [q] is strictly nearer. *)
Lemma scan_spec (all_points : list plot_point) (closest : option plot_point)
    (min_dist : float) :
  (scan all_points (closest, min_dist) = (closest, min_dist)
   ∧ ∀ p, p ∈ all_points → PrimFloat.ltb (D p) min_dist = false)
  ∨ ∃ before q after,
      all_points = before ++ q :: after
      ∧ scan all_points (closest, min_dist) = (Some q, D q)
      ∧ PrimFloat.ltb (D q) min_dist = true
      ∧ (∀ p, p ∈ before → PrimFloat.leb (D p) (D q) = false)
      ∧ (∀ p, p ∈ after → PrimFloat.ltb (D p) (D q) = false).
Proof.
  revert closest min_dist.
  induction all_points as [|p pts IH]; intros closest min_dist.
  - left. split; [reflexivity | intros p Hp; inversion Hp].
  - cbn [fold_left].
    assert (Hstep : on_motion_step hypot event_x event_y (closest, min_dist) p
                    = if PrimFloat.ltb (D p) min_dist then (Some p, D p)
                      else (closest, min_dist)) by reflexivity.
    rewrite Hstep. clear Hstep.
    destruct (PrimFloat.ltb (D p) min_dist) eqn:Hp.
    + right. destruct (IH (Some p) (D p))
        as [[Hsame Hall]|(before & q & after & -> & Hscan & Hq & Hbefore & Hafter)].
      * exists [], p, pts. repeat split; auto. intros r Hr. inversion Hr.
      * exists (p :: before), q, after. repeat split; auto.
        -- now apply (FloatOrder.ltb_trans _ (D p)).
        -- intros r [->|Hr]%elem_of_cons; [|now apply Hbefore].
           now apply FloatOrder.ltb_not_leb.
    + destruct (IH closest min_dist)
        as [[Hsame Hall]|(before & q & after & -> & Hscan & Hq & Hbefore & Hafter)].
      * left. split; [exact Hsame|].
        intros r [->|Hr]%elem_of_cons; [exact Hp | now apply Hall].
      * right. exists (p :: before), q, after. repeat split; auto.
        intros r [->|Hr]%elem_of_cons; [|now apply Hbefore].
        destruct (PrimFloat.leb (D p) (D q)) eqn:Hle; [|reflexivity].
        now rewrite (FloatOrder.leb_ltb_trans _ _ _ Hle Hq) in Hp.
Qed.

(** What the query answers. *)
Lemma on_motion_spec (all_points : list plot_point) :
  match on_motion hypot event_x event_y all_points with
  | None => ∀ p, p ∈ all_points → PrimFloat.ltb (D p) 15 = false
  | Some q =>
      ∃ before after,
        all_points = before ++ q :: after
        ∧ PrimFloat.ltb (D q) 15 = true
        ∧ (∀ p, p ∈ before → PrimFloat.leb (D p) (D q) = false)
        ∧ (∀ p, p ∈ after → PrimFloat.ltb (D p) (D q) = false)
  end.
Proof.
  unfold on_motion.
  destruct (scan_spec all_points None 15%float)
    as [[-> Hall]|(before & q & after & Hpts & -> & Hq & Hbefore & Hafter)].
  - exact Hall.
  - cbn [fst]. eauto 6.
Qed.


End Scan.



(** * Further properties of the code *)

(** ** The filter at the edges of its parameters *)

Lemma slice_from_length {A : Type} (l : list A) (start : Z) :
  (length (slice_from l start) ≤ length l)%nat.
Proof. unfold slice_from. rewrite length_drop. lia. Qed.

Lemma slice_from_whole {A : Type} (l : list A) (window_size : Z) :
  l ≠ [] →
  window_size = 0 ∨ len l ≤ window_size →
  slice_from l (- Z.min window_size (len l)) = l.
Proof.
  intros Hne Hw. unfold slice_from, slice_index, len in *.
  assert (0 < length l)%nat by (destruct l; [contradiction | cbn; lia]).
  destruct Hw as [->|Hw].
  - replace (Z.min 0 (Z.of_nat (length l))) with 0 by lia.
    change (- 0 <? 0) with false. cbv iota.
    replace (Z.to_nat (Z.min (- 0) (Z.of_nat (length l)))) with 0%nat by lia.
    reflexivity.
  - replace (Z.min window_size (Z.of_nat (length l))) with (Z.of_nat (length l)) by lia.
    replace (- Z.of_nat (length l) <? 0) with true by lia.
    replace (Z.to_nat (Z.max 0 (Z.of_nat (length l) + - Z.of_nat (length l))))
      with 0%nat by lia.
    reflexivity.
Qed.

(** X1: a history of a single value is returned as it is, whatever the
    window size (zero and negative sizes included) and whatever k. *)
Theorem sigma_filter_last_single (x : float) (window_size : Z) (k : float) :
  sigma_filter_last [x] window_size k = Return x.
Proof.
  rewrite sigma_filter_last_nonempty by discriminate. cbv zeta.
  pose proof (slice_from_length [x] (- Z.min window_size (len [x]))) as Hlen.
  cbn [length] in Hlen.
  assert (Hlt : (len (slice_from [x] (- Z.min window_size (len [x]))) <? 2) = true).
  { unfold len at 1. lia. }
  rewrite Hlt. reflexivity.
Qed.

(** X2: a window size of zero, like any window size of at least the length
    of the history, makes the filter judge the candidate against the whole
    history. *)
Theorem sigma_filter_last_whole_history (values : list float) (window_size : Z)
    (k : float) :
  window_size = 0 ∨ len values ≤ window_size →
  sigma_filter_last values window_size k = sigma_filter_last values (len values) k.
Proof.
  intros Hw. destruct (decide (values = [])) as [->|Hne]; [reflexivity|].
  rewrite !sigma_filter_last_nonempty by exact Hne. cbv zeta.
  rewrite (slice_from_whole values window_size Hne Hw).
  rewrite (slice_from_whole values (len values) Hne) by (right; lia).
  reflexivity.
Qed.

Lemma sigma_filter_last_whole_history_witness :
  sigma_filter_last [1; 2; 3; 40]%float 0 3%float
  = sigma_filter_last [1; 2; 3; 40]%float (len [1; 2; 3; 40]%float) 3%float.
Proof. apply sigma_filter_last_whole_history. left. reflexivity. Defined.

(** ** The moving average at the edges of its parameters *)

Lemma slice_empty {A : Type} (l : list A) (start stop : Z) :
  (slice_index (length l) stop ≤ slice_index (length l) start)%nat →
  slice l start stop = [].
Proof.
  intros Hle. unfold slice.
  replace (slice_index (length l) stop - slice_index (length l) start)%nat
    with 0%nat by lia.
  reflexivity.
Qed.

Section MovingAverageEdges.
Context {A : Type} `{Number A}.

(** The loop stops with [ZeroDivisionError] as soon as one index has an empty
    sub-range: no other exception can arise in it. *)
Lemma moving_average_loop_raises (data : list A) (window_size : Z)
    (indices : list nat) (result : list A) (i : nat) :
  i ∈ indices →
  window_at data window_size i = [] →
  moving_average_loop data window_size indices result = Raise ZeroDivisionError.
Proof.
  intros Hin Hempty. revert result.
  induction indices as [|j indices IH]; intros result; [inversion Hin|].
  cbn [moving_average_loop]. fold (window_at data window_size j).
  unfold truediv.
  destruct (len (window_at data window_size j) =? 0) eqn:Hj; [reflexivity|].
  cbn [mbind exc_mbind exc_bind].
  apply elem_of_cons in Hin as [->|Hin].
  - rewrite Hempty in Hj. discriminate.
  - now apply IH.
Qed.

Lemma moving_average_loop_half (data : list A) (w1 w2 : Z)
    (indices : list nat) (result : list A) :
  w1 / 2 = w2 / 2 →
  moving_average_loop data w1 indices result
  = moving_average_loop data w2 indices result.
Proof.
  intros Hhalf. revert result.
  induction indices as [|i indices IH]; intros result; [reflexivity|].
  cbn [moving_average_loop]. rewrite Hhalf.
  destruct (truediv _ _) as [x|e]; [|reflexivity].
  cbn [mbind exc_mbind exc_bind]. apply IH.
Qed.

(** X3: with a negative window size, data of two items or more always ends
    in [ZeroDivisionError]: some index gets an empty sub-range. *)
Theorem moving_average_negative_window (data : list A) (window_size : Z) :
  window_size < 0 → 1 < len data →
  moving_average data window_size = Raise ZeroDivisionError.
Proof.
  intros Hneg Hlen. unfold moving_average.
  replace (len data <=? 1) with false by lia.
  assert (Hh : window_size / 2 < 0) by (apply Z.div_lt_upper_bound; lia).
  remember (window_size / 2) as h eqn:Hhalf.
  set (i := if decide (h = -1 ∨ len data + h + 1 ≤ 0) then 0%nat
            else Z.to_nat (- h - 1)).
  assert (Hi : (i < length data)%nat).
  { unfold i, len in *. destruct (decide _); lia. }
  apply (moving_average_loop_raises data window_size _ [] i).
  - apply elem_of_seq. lia.
  - unfold window_at. rewrite <- Hhalf. apply slice_empty.
    clear Hhalf Hi. unfold i, slice_index, len in *. clear i.
    destruct (decide _) as [Hcase|Hcase];
      repeat match goal with |- context [if ?a <? ?b then _ else _] =>
        destruct (Z.ltb_spec a b) end; lia.
Qed.

(** X4: only [window_size // 2] matters: an even window size smooths
    exactly as the next odd one. *)
Theorem moving_average_even_window (data : list A) (k : Z) :
  moving_average data (2 * k) = moving_average data (2 * k + 1).
Proof.
  unfold moving_average. destruct (len data <=? 1); [reflexivity|].
  apply moving_average_loop_half.
  rewrite (Z.mul_comm 2 k), Z.div_mul by lia.
  apply (Z.div_unique (k * 2 + 1) 2 k 1); lia.
Qed.

End MovingAverageEdges.

Lemma moving_average_negative_window_witness :
  moving_average [1; 2; 3]%float (-4) = Raise ZeroDivisionError.
Proof. apply moving_average_negative_window; unfold len; cbn; lia. Defined.

(** ** Acquisition *)

Lemma collect_data_current (feed : list (float * option float)) (a : ArduinoDataApp) :
  current_experiment (collect_data feed a) = current_experiment a.
Proof.
  revert a. induction feed as [|[timestamp reading] feed IH]; intros a;
    cbn [collect_data]; [reflexivity|].
  destruct (is_recording a); [|reflexivity].
  rewrite IH. apply collect_data_body_dom.
Qed.

Lemma sigma_filter_last_finite (values : list float) (window_size : Z) (k : float) :
  values ≠ [] → Forall (λ x, is_finite x = true) values →
  ∃ r, sigma_filter_last values window_size k = Return r ∧ is_finite r = true.
Proof.
  intros Hne Hfin. destruct (last_nonempty values Hne) as [x Hx].
  assert (Hxf : is_finite x = true).
  { rewrite Forall_forall in Hfin. now apply Hfin, last_Some_elem_of. }
  rewrite (sigma_filter_last_nonempty values window_size k Hne). cbv zeta.
  rewrite (getitem_last values x Hx).
  assert (Hwin : Forall (λ x, is_finite x = true)
                   (slice_from values (- Z.min window_size (len values)))).
  { unfold slice_from. now apply Forall_drop. }
  set (window := slice_from _ _) in *.
  destruct (len window <? 2) eqn:Hlen; [eauto|].
  assert (Hwne : window ≠ []) by (intros E; rewrite E in Hlen; discriminate).
  destruct (mean_finite window Hwne Hwin) as (mean & -> & Hmf).
  destruct (pstdev_finite window Hwne Hwin) as (std & -> & _).
  cbn [mbind exc_mbind exc_bind].
  destruct (PrimFloat.eqb std 0); [eauto|].
  destruct (PrimFloat.ltb _ _); eauto.
Qed.

(** One pass that delivers a finite value, with a sequence of finite values
    in place: one sample with the time stamp of the pass goes to the sequence
    and to the queue, and its value is finite. *)
Lemma collect_data_body_appends (timestamp value : float) (a : ArduinoDataApp)
    (old : list sample) :
  experiments a !! current_experiment a = Some old →
  Forall finite_sample old → is_finite value = true →
  ∃ filtered,
    is_finite filtered = true
    ∧ collect_data_body timestamp (Some value) a
      = put (timestamp, filtered)
          (set_experiments
             (<[current_experiment a := old ++ [(timestamp, filtered)]]> (experiments a))
             a).
Proof.
  intros Hold Hfin Hvalue. unfold collect_data_body.
  destruct (experiments a !! current_experiment a) as [exp_list|] eqn:E; [|discriminate].
  assert (exp_list = old) as -> by congruence.
  destruct (sigma_filter_last_finite (map snd old ++ [value]) 10 3%float)
    as (f & -> & Hf).
  { now destruct (map snd old). }
  { apply Forall_app. split; [|now repeat constructor].
    apply Forall_fmap. exact Hfin. }
  now exists f.
Qed.

Lemma collect_data_appends (feed : list (float * option float))
    (a : ArduinoDataApp) (old : list sample) :
  is_recording a = true →
  experiments a !! current_experiment a = Some old →
  Forall finite_sample old →
  Forall (λ x, is_finite x = true) (readings feed) →
  ∃ new,
    experiments (collect_data feed a)
    = <[current_experiment a := old ++ new]> (experiments a)
    ∧ data_queue (collect_data feed a) = data_queue a ++ new
    ∧ map fst new = delivered feed
    ∧ Forall finite_sample new.
Proof.
  revert a old. induction feed as [|[t [v|]] feed IH]; intros a old Hrec Hold Hfin Hfeed.
  - exists []. rewrite !app_nil_r. repeat split; [|constructor].
    symmetry. now apply insert_id.
  - cbn [collect_data]. rewrite Hrec.
    unfold readings in Hfeed. rewrite omap_cons_match in Hfeed. cbn [snd] in Hfeed.
    apply Forall_cons in Hfeed as [Hv Hfeed].
    destruct (collect_data_body_appends t v a old Hold Hfin Hv) as (f & Hf & ->).
    set (a1 := put (t, f) _).
    destruct (IH a1 (old ++ [(t, f)])) as (new & Hstore & Hqueue & Htimes & Hnew).
    { exact Hrec. }
    { cbn. apply lookup_insert_eq. }
    { apply Forall_app. split; [exact Hfin | now repeat constructor]. }
    { exact Hfeed. }
    exists ((t, f) :: new). rewrite Hstore, Hqueue.
    cbn [a1 put set_experiments experiments data_queue current_experiment].
    rewrite insert_insert_eq, <- !app_assoc.
    repeat split; [|now constructor].
    unfold delivered. rewrite omap_cons_match. cbn [map fst snd].
    f_equal. exact Htimes.
  - cbn [collect_data]. rewrite Hrec. cbn [collect_data_body].
    unfold readings in Hfeed. rewrite omap_cons_match in Hfeed. cbn [snd] in Hfeed.
    destruct (IH a old Hrec Hold Hfin Hfeed) as (new & Hstore & Hqueue & Htimes & Hnew).
    exists new. repeat split; assumption.
Qed.

(** X5: while recording with a sequence of finite values in place for the
    active id, every pass that delivers a finite value appends exactly one
    sample, stamped with the time of the pass, to that sequence and the same
    sample to the queue, in the same order; the values stored are finite
    again; nothing else in the store changes, nor do the active id and the
    flag.  (A value that is not finite, once in the window, makes the filter
    raise, and the pass stores nothing.) *)
Theorem collect_data_stores_and_publishes (feed : list (float * option float))
    (a : ArduinoDataApp) (old : list sample) :
  is_recording a = true →
  experiments a !! current_experiment a = Some old →
  Forall finite_sample old →
  Forall (λ x, is_finite x = true) (readings feed) →
  ∃ new,
    experiments (collect_data feed a)
    = <[current_experiment a := old ++ new]> (experiments a)
    ∧ data_queue (collect_data feed a) = data_queue a ++ new
    ∧ map fst new = delivered feed
    ∧ Forall finite_sample new
    ∧ current_experiment (collect_data feed a) = current_experiment a
    ∧ is_recording (collect_data feed a) = true.
Proof.
  intros Hrec Hold Hfin Hfeed.
  destruct (collect_data_appends feed a old Hrec Hold Hfin Hfeed)
    as (new & Hstore & Hqueue & Htimes & Hnew).
  exists new. repeat split; try assumption.
  - apply collect_data_current.
  - clear - Hrec. revert a Hrec. induction feed as [|[t r] feed IH]; intros a Hrec;
      cbn [collect_data]; [exact Hrec|].
    rewrite Hrec. apply IH. unfold collect_data_body.
    destruct r as [v|]; [|exact Hrec].
    destruct (experiments a !! current_experiment a); [|exact Hrec].
    now destruct (sigma_filter_last _ _ _).
Qed.

Lemma collect_data_stores_and_publishes_witness :
  ∃ new,
    experiments (collect_data [(1, Some 5); (2, None); (3, Some 6)]%float
                   (start_experiment simulator_env init))
    = <[1 := [] ++ new]> (experiments (start_experiment simulator_env init))
    ∧ map fst new = [1; 3]%float.
Proof.
  destruct (collect_data_stores_and_publishes
              [(1, Some 5); (2, None); (3, Some 6)]%float
              (start_experiment simulator_env init) [] eq_refl eq_refl)
    as (new & Hstore & _ & Htimes & _).
  { constructor. }
  { repeat constructor. }
  exists new. split; [exact Hstore | exact Htimes].
Defined.

(** A reading that is not a number, delivered after a stored one: the
    library raises inside the filter, the pass prints the exception and
    stores nothing. *)
Lemma nan_reading_not_stored :
  collect_data [(1, Some nan)]%float
    (collect_data [(0, Some 1)]%float (start_experiment simulator_env init))
  = emit [Printed AttributeError]
      (collect_data [(0, Some 1)]%float (start_experiment simulator_env init)).
Proof. vm_compute. reflexivity. Qed.

Lemma collect_data_body_missing (timestamp value : float) (a : ArduinoDataApp) :
  experiments a !! current_experiment a = None →
  collect_data_body timestamp (Some value) a = emit [Printed KeyError] a.
Proof.
  intros Hnone. unfold collect_data_body.
  destruct (experiments a !! current_experiment a) eqn:E; [|reflexivity].
  discriminate.
Qed.

(** X6: when the store has no sequence for the active id, the [KeyError] of
    the lookup is swallowed: every delivered value is dropped, the store and
    the queue stay as they are, and the loop goes on. *)
Theorem collect_data_without_sequence (feed : list (float * option float))
    (a : ArduinoDataApp) :
  experiments a !! current_experiment a = None →
  experiments (collect_data feed a) = experiments a
  ∧ data_queue (collect_data feed a) = data_queue a
  ∧ ui (collect_data feed a)
    = ui a ++ (if is_recording a
               then map (λ _, Printed KeyError) (delivered feed) else []).
Proof.
  revert a. induction feed as [|[t [v|]] feed IH]; intros a Hnone.
  - cbn. destruct (is_recording a); now rewrite app_nil_r.
  - cbn [collect_data]. destruct (is_recording a) eqn:Hrec.
    + rewrite (collect_data_body_missing t v a Hnone).
      destruct (IH (emit [Printed KeyError] a)) as (Hs & Hq & Hu); [exact Hnone|].
      rewrite Hs, Hq, Hu. cbn [emit experiments data_queue ui is_recording].
      rewrite Hrec. unfold delivered. rewrite omap_cons_match. cbn [map snd].
      now rewrite <- app_assoc.
    + now rewrite app_nil_r.
  - cbn [collect_data]. destruct (is_recording a) eqn:Hrec.
    + cbn [collect_data_body]. destruct (IH a Hnone) as (Hs & Hq & Hu).
      rewrite Hs, Hq, Hu, Hrec. unfold delivered. now rewrite omap_cons_match.
    + now rewrite app_nil_r.
Qed.

Lemma collect_data_without_sequence_witness :
  experiments (collect_data [(1, Some 5)]%float (set_is_recording true init))
  = experiments (set_is_recording true init).
Proof.
  apply (collect_data_without_sequence [(1, Some 5)]%float (set_is_recording true init)).
  reflexivity.
Defined.

Lemma filter_of_one_value (x : float) (window_size : Z) (k : float) :
  sigma_filter_last [x] window_size k = Return x.
Proof.
  rewrite sigma_filter_last_nonempty by discriminate. cbv zeta.
  pose proof (slice_from_length [x] (- Z.min window_size (len [x]))) as Hlen.
  cbn [length] in Hlen.
  assert (Hlt : (len (slice_from [x] (- Z.min window_size (len [x]))) <? 2) = true).
  { unfold len at 1. lia. }
  now rewrite Hlt.
Qed.

Lemma start_experiment_frame (env : start_env) (a : ArduinoDataApp) :
  current_experiment (start_experiment env a) = current_experiment a
  ∧ data_queue (start_experiment env a) = data_queue a.
Proof.
  unfold start_experiment.
  destruct (experiments a !! current_experiment a);
    destruct (mode_var env); cbn;
    repeat match goal with |- context [if ?b then _ else _] => destruct b end;
    split; reflexivity.
Qed.

(** X7: the first value delivered to a freshly started experiment is stored
    and published unfiltered. *)
Theorem first_reading_unfiltered (env : start_env) (a : ArduinoDataApp)
    (timestamp value : float) :
  experiments a !! current_experiment a = None →
  is_recording (start_experiment env a) = true →
  let a' := collect_data [(timestamp, Some value)] (start_experiment env a) in
  experiments a' !! current_experiment a = Some [(timestamp, value)]
  ∧ data_queue a' = data_queue a ++ [(timestamp, value)].
Proof.
  intros Hnone Hrec. cbv zeta.
  destruct (start_experiment_frame env a) as [Hcur Hqueue].
  pose proof (start_experiment_store env a) as Hstore. rewrite Hnone in Hstore.
  cbn [collect_data]. rewrite Hrec.
  unfold collect_data_body. rewrite Hcur, Hstore, lookup_insert_eq.
  cbn [map app]. rewrite filter_of_one_value.
  cbn [put set_experiments experiments data_queue].
  rewrite lookup_insert_eq, Hqueue. split; reflexivity.
Qed.

Lemma first_reading_unfiltered_witness :
  experiments (collect_data [(1, Some 5)]%float (start_experiment simulator_env init))
    !! 1
  = Some [(1, 5)%float].
Proof.
  apply (first_reading_unfiltered simulator_env init 1 5); reflexivity.
Defined.

(** ** What a load leaves behind *)

Lemma elem_of_samples_for (k : Z) (s : sample) (l : list (Z * sample)) :
  s ∈ samples_for k l ↔ (k, s) ∈ l.
Proof.
  unfold samples_for. rewrite list_elem_of_omap. split.
  - intros ([k' s'] & Hin & Hf). cbn [fst snd] in Hf.
    destruct (decide (k' = k)) as [->|]; [|discriminate].
    now injection Hf as ->.
  - intros Hin. exists (k, s). split; [exact Hin|]. cbn [fst snd].
    now destruct (decide (k = k)).
Qed.

Lemma open_data_lookup (float_of_str : string → option float) (filename : string)
    (file : file_read) (a : ArduinoDataApp) (k : Z) :
  experiments (open_data float_of_str (Some filename) file a) !! k
  = match samples_for k (loaded_of float_of_str file) with
    | [] => None
    | l => Some l
    end.
Proof.
  assert (Hrows : ∀ rows,
    experiments (fold_left (load_row float_of_str) rows
                   (set_current_experiment 1 (set_experiments ∅ a))) !! k
    = match samples_for k (omap (accepted float_of_str) rows) with
      | [] => None
      | l => Some l
      end).
  { intros rows. rewrite load_rows_lookup.
    cbn [experiments set_experiments set_current_experiment].
    rewrite lookup_empty. now destruct (samples_for _ _). }
  destruct file as [|rows [|]]; cbn [open_data loaded_of emit experiments];
    [apply lookup_empty | apply Hrows..].
Qed.

Lemma open_data_current (float_of_str : string → option float) (filename : string)
    (file : file_read) (a : ArduinoDataApp) :
  current_experiment (open_data float_of_str (Some filename) file a)
  = fold_left (λ c p, Z.max c (p.1 + 1)) (loaded_of float_of_str file) 1.
Proof.
  destruct file as [|rows [|]]; cbn [open_data loaded_of emit current_experiment];
    [reflexivity | apply load_rows_current..].
Qed.

Lemma open_data_dom (float_of_str : string → option float) (filename : string)
    (file : file_read) (a : ArduinoDataApp) (k : Z) :
  k ∈ dom (experiments (open_data float_of_str (Some filename) file a))
  ↔ ∃ s, (k, s) ∈ loaded_of float_of_str file.
Proof.
  rewrite elem_of_dom, open_data_lookup. split.
  - intros [l Hl].
    destruct (samples_for k (loaded_of float_of_str file)) as [|s l'] eqn:E;
      [discriminate|].
    exists s. apply elem_of_samples_for. rewrite E. left.
  - intros [s Hs]. apply elem_of_samples_for in Hs.
    destruct (samples_for k (loaded_of float_of_str file)); [inversion Hs | eauto].
Qed.

Lemma open_data_ids_below (float_of_str : string → option float) (filename : string)
    (file : file_read) (a : ArduinoDataApp) (k : Z) :
  k ∈ dom (experiments (open_data float_of_str (Some filename) file a)) →
  k < current_experiment (open_data float_of_str (Some filename) file a).
Proof.
  rewrite open_data_current. intros [s Hs]%open_data_dom.
  destruct (fold_max_spec (loaded_of float_of_str file) 1) as (_ & Hall & _).
  cbv zeta in Hall. specialize (Hall _ Hs). cbn [fst] in Hall. lia.
Qed.

(** X8: after a load, whatever the file held and whether or not reading came
    to its end, the active id is at least 1 and strictly above every loaded
    id, and it is 1 or the successor of a loaded id. *)
Theorem open_data_next_id (float_of_str : string → option float) (filename : string)
    (file : file_read) (a : ArduinoDataApp) :
  let a' := open_data float_of_str (Some filename) file a in
  1 ≤ current_experiment a'
  ∧ (∀ k, k ∈ dom (experiments a') → k < current_experiment a')
  ∧ (current_experiment a' = 1 ∨ current_experiment a' - 1 ∈ dom (experiments a')).
Proof.
  cbv zeta. split; [|split].
  - rewrite open_data_current.
    now destruct (fold_max_spec (loaded_of float_of_str file) 1) as (Hone & _).
  - intros k. apply open_data_ids_below.
  - rewrite open_data_current.
    destruct (fold_max_spec (loaded_of float_of_str file) 1) as (_ & _ & Hex).
    cbv zeta in Hex. destruct Hex as [Hr|([k s] & Hp & Hr)]; [now left | right].
    rewrite Hr. cbn [fst]. replace (k + 1 - 1) with k by lia.
    apply open_data_dom. eauto.
Qed.

(** X9: a load never leaves an experiment without samples: every sequence
    of the store holds at least one sample, and each of its samples comes
    from an accepted row carrying that id. *)
Theorem open_data_sequences_nonempty (float_of_str : string → option float)
    (filename : string) (file : file_read) (a : ArduinoDataApp) (k : Z)
    (l : list sample) :
  experiments (open_data float_of_str (Some filename) file a) !! k = Some l →
  l ≠ [] ∧ ∀ s, s ∈ l ↔ (k, s) ∈ loaded_of float_of_str file.
Proof.
  rewrite open_data_lookup. intros Hl.
  destruct (samples_for k (loaded_of float_of_str file)) as [|s0 l0] eqn:E;
    [discriminate|].
  injection Hl as <-. split; [discriminate|].
  intros s. rewrite <- E. apply elem_of_samples_for.
Qed.

Lemma open_data_sequences_nonempty_witness :
  [(0, 1)%float] ≠ []
  ∧ ∀ s, s ∈ [(0, 1)%float]
         ↔ (1, s) ∈ loaded_of example_float_of_str
                      (Rows [header; ["1"; "0.0"; "1.0"]%string] true).
Proof.
  apply (open_data_sequences_nonempty example_float_of_str EmptyString
           (Rows [header; ["1"; "0.0"; "1.0"]%string] true) init 1).
  vm_compute. reflexivity.
Defined.

(** ** Sessions: what any sequence of actions preserves *)

Lemma collect_data_body_other (timestamp : float) (reading : option float)
    (a : ArduinoDataApp) (k : Z) :
  k ≠ current_experiment a →
  experiments (collect_data_body timestamp reading a) !! k = experiments a !! k.
Proof.
  intros Hk. unfold collect_data_body.
  destruct reading as [value|]; [|reflexivity].
  destruct (experiments a !! current_experiment a) as [exp_list|]; [|reflexivity].
  destruct (sigma_filter_last _ _ _); [|reflexivity].
  cbn [put set_experiments experiments]. now apply lookup_insert_ne.
Qed.

Lemma collect_data_other (feed : list (float * option float)) (a : ArduinoDataApp)
    (k : Z) :
  k ≠ current_experiment a →
  experiments (collect_data feed a) !! k = experiments a !! k.
Proof.
  revert a. induction feed as [|[timestamp reading] feed IH]; intros a Hk;
    cbn [collect_data]; [reflexivity|].
  destruct (is_recording a); [|reflexivity].
  rewrite IH.
  - now apply collect_data_body_other.
  - now rewrite (proj2 (collect_data_body_dom timestamp reading a)).
Qed.

Lemma start_experiment_other (env : start_env) (a : ArduinoDataApp) (k : Z) :
  k ≠ current_experiment a →
  experiments (start_experiment env a) !! k = experiments a !! k.
Proof.
  intros Hk. rewrite start_experiment_store.
  destruct (experiments a !! current_experiment a); [reflexivity|].
  now apply lookup_insert_ne.
Qed.

Lemma start_experiment_dom (env : start_env) (a : ArduinoDataApp) (k : Z) :
  k ∈ dom (experiments (start_experiment env a)) →
  k = current_experiment a ∨ k ∈ dom (experiments a).
Proof.
  destruct (decide (k = current_experiment a)) as [|Hk]; [now left|].
  rewrite !elem_of_dom, (start_experiment_other env a k Hk). now right.
Qed.

Section SessionFacts.
Variable str_of_float : float → string.
Variable float_of_str : string → option float.
Variable strftime_local : float → option string.

Lemma save_all_data_frame (choice : option string) (writable : bool)
    (a : ArduinoDataApp) :
  let a' := fst (save_all_data str_of_float strftime_local choice writable a) in
  experiments a' = experiments a
  ∧ current_experiment a' = current_experiment a
  ∧ is_recording a' = is_recording a
  ∧ data_queue a' = data_queue a
  ∧ serial_port a' = serial_port a.
Proof.
  cbv zeta. unfold save_all_data.
  destruct (size (experiments a) =? 0)%nat; [now cbn|].
  destruct choice as [filename|]; [|now cbn].
  destruct (negb writable); [now cbn|].
  destruct (write_experiments _ _ _ _ _) as [written [e|]]; now cbn.
Qed.

Lemma perform_returns (a : ArduinoDataApp) (c : action) :
  ∃ a', perform str_of_float float_of_str strftime_local a c = Return a'.
Proof.
  destruct c; cbn [perform]; try (eexists; reflexivity).
  rewrite stop_experiment_returns. eexists; reflexivity.
Qed.

Lemma perform_ids (a a' : ArduinoDataApp) (c : action) :
  ids_up_to_active a →
  perform str_of_float float_of_str strftime_local a c = Return a' →
  ids_up_to_active a'.
Proof.
  intros Hinv Hc k. destruct c as [env|feed| |choice writable|choice file];
    cbn [perform] in Hc.
  - injection Hc as <-. rewrite (proj1 (start_experiment_frame env a)).
    intros [->|Hk]%start_experiment_dom; [lia | now apply Hinv].
  - injection Hc as <-. rewrite collect_data_dom, collect_data_current. apply Hinv.
  - rewrite stop_experiment_returns in Hc. injection Hc as <-.
    cbn [experiments current_experiment]. intros Hk%Hinv. lia.
  - injection Hc as <-.
    destruct (save_all_data_frame choice writable a) as (-> & -> & _). apply Hinv.
  - injection Hc as <-. destruct choice as [filename|]; [|apply Hinv].
    intros Hk%open_data_ids_below. lia.
Qed.

Lemma perform_closed (a a' : ArduinoDataApp) (c : action) :
  loads c = false →
  perform str_of_float float_of_str strftime_local a c = Return a' →
  current_experiment a ≤ current_experiment a'
  ∧ ∀ k, k < current_experiment a → experiments a' !! k = experiments a !! k.
Proof.
  intros Hl Hc. destruct c as [env|feed| |choice writable|choice file];
    cbn [perform] in Hc.
  - injection Hc as <-. rewrite (proj1 (start_experiment_frame env a)).
    split; [lia|]. intros k Hk. apply start_experiment_other. lia.
  - injection Hc as <-. rewrite collect_data_current.
    split; [lia|]. intros k Hk. apply collect_data_other. lia.
  - rewrite stop_experiment_returns in Hc. injection Hc as <-.
    cbn [experiments current_experiment]. split; [lia | reflexivity].
  - injection Hc as <-.
    destruct (save_all_data_frame choice writable a) as (-> & -> & _).
    split; [lia | reflexivity].
  - destruct choice as [filename|]; [discriminate|].
    injection Hc as <-. split; [cbn [open_data]; lia | reflexivity].
Qed.

(** X10: no sequence of starts, acquisitions, stops, saves and loads raises,
    and none puts an experiment above the active id: from a state whose ids
    are all at most the active one, every session ends in such a state. *)
Theorem run_keeps_ids_up_to_active (actions : list action) (a : ArduinoDataApp) :
  ids_up_to_active a →
  ∃ a', run str_of_float float_of_str strftime_local actions a = Return a'
        ∧ ids_up_to_active a'.
Proof.
  revert a. induction actions as [|c actions IH]; intros a Hinv; cbn [run].
  - eauto.
  - destruct (perform_returns a c) as [a1 H1]. rewrite H1.
    cbn [mbind exc_mbind exc_bind]. apply IH. exact (perform_ids _ _ _ Hinv H1).
Qed.

(** X11: as long as no file is loaded, the experiments below the active id
    are closed: whatever is started, acquired, stopped or saved afterwards,
    their sequences stay as they are (or stay absent), and the active id
    never decreases. *)
Theorem closed_experiments_unchanged (actions : list action) (a : ArduinoDataApp) :
  forallb (λ c, negb (loads c)) actions = true →
  ∃ a', run str_of_float float_of_str strftime_local actions a = Return a'
        ∧ current_experiment a ≤ current_experiment a'
        ∧ ∀ k, k < current_experiment a → experiments a' !! k = experiments a !! k.
Proof.
  revert a. induction actions as [|c actions IH]; intros a Hl; cbn [run].
  - exists a. split; [reflexivity|]. split; [lia | reflexivity].
  - cbn [forallb] in Hl. apply andb_prop in Hl as [Hc Hl].
    apply negb_true_iff in Hc.
    destruct (perform_returns a c) as [a1 H1]. rewrite H1.
    cbn [mbind exc_mbind exc_bind].
    destruct (perform_closed _ _ _ Hc H1) as [Hle Hsame].
    destruct (IH a1 Hl) as (a' & Hrun & Hle' & Hsame').
    exists a'. split; [exact Hrun|]. split; [lia|].
    intros k Hk. rewrite Hsame' by lia. now apply Hsame.
Qed.

End SessionFacts.

Lemma run_keeps_ids_up_to_active_witness :
  ∃ a', run example_str_of_float example_float_of_str example_strftime
          [Start simulator_env; Collect [(0, Some 2.5)%float]; Stop;
           Save (Some EmptyString) true;
           Open (Some EmptyString) (Rows [header; ["5"; "0.0"; "1.0"]%string] true);
           Start simulator_env]
          init = Return a'
        ∧ ids_up_to_active a'.
Proof.
  apply (run_keeps_ids_up_to_active example_str_of_float example_float_of_str
           example_strftime).
  intros k Hk. cbn [init experiments] in Hk. now rewrite dom_empty_L in Hk.
Defined.

Lemma closed_experiments_unchanged_witness :
  ∃ a', run example_str_of_float example_float_of_str example_strftime
          [Stop; Start simulator_env; Collect [(1, Some 1)%float]; Stop;
           Save None true; Open None Unreadable]
          session_with_one_sample = Return a'
        ∧ current_experiment session_with_one_sample ≤ current_experiment a'
        ∧ ∀ k, k < current_experiment session_with_one_sample →
               experiments a' !! k = experiments session_with_one_sample !! k.
Proof.
  apply (closed_experiments_unchanged example_str_of_float example_float_of_str
           example_strftime).
  reflexivity.
Defined.

(** X12: when the ids are all at most the active one, stopping moves the
    active id to one that is not in the store, so that the next start,
    whether or not it manages to record, creates an empty sequence there. *)
Theorem stop_then_start_is_fresh (a : ArduinoDataApp) :
  ids_up_to_active a →
  ∃ a', stop_experiment a = Return a'
        ∧ current_experiment a' = current_experiment a + 1
        ∧ experiments a' !! current_experiment a' = None
        ∧ ∀ env, experiments (start_experiment env a') !! current_experiment a'
                 = Some [].
Proof.
  intros Hinv. rewrite stop_experiment_returns. eexists. split; [reflexivity|].
  cbn [experiments current_experiment].
  assert (Hnone : experiments a !! (current_experiment a + 1) = None).
  { apply not_elem_of_dom. intros Hk%Hinv. lia. }
  split; [reflexivity|]. split; [exact Hnone|].
  intros env. rewrite start_experiment_store.
  cbn [experiments current_experiment]. rewrite Hnone.
  apply lookup_insert_eq.
Qed.

Lemma stop_then_start_is_fresh_witness :
  ∃ a', stop_experiment session_with_one_sample = Return a'
        ∧ current_experiment a' = current_experiment session_with_one_sample + 1
        ∧ experiments a' !! current_experiment a' = None
        ∧ ∀ env, experiments (start_experiment env a') !! current_experiment a'
                 = Some [].
Proof.
  apply (stop_then_start_is_fresh session_with_one_sample).
  intros k Hk.
  cbn [session_with_one_sample set_current_experiment set_experiments experiments
       current_experiment] in *.
  rewrite dom_singleton_L in Hk. apply elem_of_singleton in Hk. lia.
Defined.

(** ** What a save writes *)

Lemma prefix_while_app {A : Type} (f : A → bool) (l1 l2 : list A) :
  prefix_while f (l1 ++ l2)
  = if forallb f l1 then l1 ++ prefix_while f l2 else prefix_while f l1.
Proof.
  induction l1 as [|x l1 IH]; [reflexivity|].
  cbn [app prefix_while forallb]. destruct (f x); [|reflexivity].
  cbn [andb]. rewrite IH. now destruct (forallb f l1).
Qed.

Lemma prefix_while_all {A : Type} (f : A → bool) (l : list A) :
  forallb f l = true → prefix_while f l = l.
Proof.
  induction l as [|x l IH]; [reflexivity|]. cbn [forallb prefix_while].
  destruct (f x); [|discriminate]. intros Hl. now rewrite IH.
Qed.

Lemma flat_map_keys (f : Z → list sample) (keys : list Z) (p : Z * sample) :
  p ∈ flat_map (λ k, map (pair k) (f k)) keys → p.1 ∈ keys.
Proof.
  intros Hp. apply list_elem_of_In, in_flat_map in Hp as (k & Hk & Hp).
  apply in_map_iff in Hp as (s & <- & _). now apply list_elem_of_In.
Qed.

Lemma flat_map_keys_sorted (f : Z → list sample) (keys : list Z) :
  StronglySorted Z.le keys →
  StronglySorted Z.le (map fst (flat_map (λ k, map (pair k) (f k)) keys)).
Proof.
  induction 1 as [|k keys Hs IH Hall]; [constructor|].
  cbn [flat_map]. rewrite map_app.
  induction (f k) as [|s l IHl]; [exact IH|].
  cbn [map app fst]. constructor; [exact IHl|].
  apply Forall_app. split.
  - clear. induction l as [|s' l IHl]; constructor; [cbn; lia | exact IHl].
  - apply Forall_forall. intros x Hx.
    apply list_elem_of_In, in_map_iff in Hx as (p & <- & Hp).
    apply list_elem_of_In, flat_map_keys in Hp.
    rewrite Forall_forall in Hall. now apply Hall.
Qed.

Lemma sorted_keys_sorted (store : gmap Z (list sample)) :
  StronglySorted Z.le (sorted_keys store).
Proof. apply StronglySorted_merge_sort; [apply _ | intros x y; lia]. Qed.

Section SaveFacts.
Variable str_of_float : float → string.
Variable strftime_local : float → option string.

Lemma write_samples_prefix (k : Z) (l : list sample) (written : list row) :
  write_samples str_of_float strftime_local k l written
  = (written ++ map (λ p, row_of str_of_float strftime_local p.1 p.2)
                    (prefix_while (renderable strftime_local) (map (pair k) l)),
     if forallb (renderable strftime_local) (map (pair k) l)
     then None else Some ValueError).
Proof.
  revert written. induction l as [|[timestamp value] l IH]; intros written;
    cbn [write_samples map prefix_while forallb].
  - now rewrite app_nil_r.
  - unfold renderable at 1 3. cbn [fst snd].
    destruct (strftime_local timestamp) as [dt|] eqn:E.
    + rewrite IH, <- app_assoc. cbn [andb map app]. unfold row_of at 2.
      cbn [fst snd]. rewrite E. reflexivity.
    + now rewrite app_nil_r.
Qed.

Lemma write_experiments_prefix (store : gmap Z (list sample)) (keys : list Z)
    (written : list row) :
  let visited := flat_map (λ k, map (pair k) (default [] (store !! k))) keys in
  write_experiments str_of_float strftime_local store keys written
  = (written ++ map (λ p, row_of str_of_float strftime_local p.1 p.2)
                    (prefix_while (renderable strftime_local) visited),
     if forallb (renderable strftime_local) visited then None else Some ValueError).
Proof.
  cbv zeta. revert written. induction keys as [|k keys IH]; intros written;
    cbn [write_experiments flat_map].
  - now rewrite app_nil_r.
  - rewrite write_samples_prefix, prefix_while_app, forallb_app.
    destruct (forallb (renderable strftime_local)
                (map (pair k) (default [] (store !! k)))) eqn:E; cbn [andb].
    + now rewrite IH, map_app, <- app_assoc, (prefix_while_all _ _ E).
    + reflexivity.
Qed.

Lemma size_of_non_empty (store : gmap Z (list sample)) :
  store ≠ ∅ → (size store =? 0)%nat = false.
Proof. intros Hne. apply Nat.eqb_neq. intros Hz. now apply map_size_empty_iff in Hz. Qed.

(** X13: a save into a writable file leaves in it the header and the rows
    of the samples, visited by ascending id, up to the first one whose time
    stamp cannot be rendered as a date; it reports success when there is no
    such sample and failure otherwise, the file then holding the rows
    written before. *)
Theorem save_all_data_writes_prefix (filename : string) (a : ArduinoDataApp) :
  experiments a ≠ ∅ →
  save_all_data str_of_float strftime_local (Some filename) true a
  = (emit [if forallb (renderable strftime_local) (all_samples (experiments a))
           then ShowInfo SaveSucceeded else ShowError SaveFailed] a,
     Some (header :: map (λ p, row_of str_of_float strftime_local p.1 p.2)
                         (prefix_while (renderable strftime_local)
                            (all_samples (experiments a))))).
Proof.
  intros Hne. unfold save_all_data.
  rewrite (size_of_non_empty _ Hne). cbn [negb]. rewrite write_experiments_prefix.
  fold (all_samples (experiments a)).
  now destruct (forallb (renderable strftime_local) (all_samples (experiments a))).
Qed.

(** X14: when every stored time stamp can be rendered, the saved file holds
    after its header one row per stored sample: the rows come by ascending
    experiment id, and those of one experiment are its sequence, in order. *)
Theorem save_all_data_rows_in_order (filename : string) (a : ArduinoDataApp) :
  experiments a ≠ ∅ →
  (∀ k l, experiments a !! k = Some l →
          Forall (λ s : sample, is_Some (strftime_local s.1)) l) →
  ∃ samples,
    save_all_data str_of_float strftime_local (Some filename) true a
    = (emit [ShowInfo SaveSucceeded] a,
       Some (header :: map (λ p, row_of str_of_float strftime_local p.1 p.2) samples))
    ∧ StronglySorted Z.le (map fst samples)
    ∧ ∀ k, samples_for k samples = default [] (experiments a !! k).
Proof.
  intros Hne Hall. exists (all_samples (experiments a)).
  assert (Hr : forallb (renderable strftime_local) (all_samples (experiments a)) = true).
  { apply forallb_forall. intros [k s] Hp. apply in_flat_map in Hp as (k' & _ & Hp).
    apply in_map_iff in Hp as (s' & Heq & Hs). injection Heq as -> ->.
    destruct (experiments a !! k) as [l|] eqn:E; [|destruct Hs].
    specialize (Hall k l E). rewrite Forall_forall in Hall.
    apply list_elem_of_In, Hall in Hs. unfold renderable. cbn [fst snd].
    now destruct Hs as [dt ->]. }
  pose proof (prefix_while_all _ _ Hr) as Hp.
  split; [|split].
  - unfold save_all_data.
    rewrite (size_of_non_empty _ Hne). cbn [negb]. rewrite write_experiments_prefix.
    fold (all_samples (experiments a)). now rewrite Hr, Hp.
  - apply flat_map_keys_sorted, sorted_keys_sorted.
  - intros k. unfold all_samples.
    destruct (sorted_keys_spec (experiments a)) as [Hnd Hdom].
    rewrite (samples_for_flat_map k _ (λ k, default [] (experiments a !! k)) Hnd).
    destruct (decide (k ∈ sorted_keys (experiments a))) as [|Hn]; [reflexivity|].
    rewrite Hdom in Hn. apply not_elem_of_dom in Hn. now rewrite Hn.
Qed.

End SaveFacts.

Lemma save_all_data_writes_prefix_witness :
  save_all_data example_str_of_float example_strftime (Some EmptyString) true
    session_with_unrenderable_sample
  = (emit [ShowError SaveFailed] session_with_unrenderable_sample,
     Some [header;
           [(cyrillic_E ++ "1")%string; "0.0"; "1.0"; "1970-01-01 00:00:00"]%string]).
Proof.
  refine (eq_trans
            (save_all_data_writes_prefix example_str_of_float example_strftime
               EmptyString session_with_unrenderable_sample _) _).
  - cbn [session_with_unrenderable_sample set_experiments experiments].
    apply insert_non_empty.
  - vm_compute. reflexivity.
Defined.

Lemma save_all_data_rows_in_order_witness :
  ∃ samples,
    save_all_data example_str_of_float example_strftime (Some EmptyString) true
      session_with_two_experiments
    = (emit [ShowInfo SaveSucceeded] session_with_two_experiments,
       Some (header :: map (λ p, row_of example_str_of_float example_strftime p.1 p.2)
                           samples))
    ∧ StronglySorted Z.le (map fst samples)
    ∧ ∀ k, samples_for k samples
           = default [] (experiments session_with_two_experiments !! k).
Proof.
  apply (save_all_data_rows_in_order example_str_of_float example_strftime EmptyString
           session_with_two_experiments).
  - cbn [session_with_two_experiments set_current_experiment set_experiments experiments].
    apply insert_non_empty.
  - intros k l.
    cbn [session_with_two_experiments set_current_experiment set_experiments experiments].
    intros Hl. apply lookup_insert_Some in Hl as [[_ <-]|[_ Hl]].
    + repeat constructor; vm_compute; eauto.
    + apply lookup_singleton_Some in Hl as [_ <-].
      repeat constructor; vm_compute; eauto.
Defined.

(** ** Labels *)

(** X15: a label is read whatever run of the capital and the small letter
    stands before its number, not only the single capital that a save
    writes: the letters are stripped and the number is returned, negative
    numbers included. *)
Theorem label_prefix_ignored (letters : list bool) (n : Z) :
  int_of_str (lstrip_E (label_prefix letters ++ str_of_int n)%string) = Some n.
Proof.
  rewrite lstrip_E_label_prefix.
  destruct (str_of_int_head n) as (c & rest & E & H208 & H209).
  assert (Hstrip : lstrip_E (str_of_int n) = str_of_int n).
  { rewrite E. destruct rest as [|b rest']; [reflexivity|].
    cbn [lstrip_E]. now rewrite H208, H209. }
  rewrite Hstrip. apply int_of_str_of_int.
Qed.

(** ** Building the plot *)

Lemma SFltb_leb (x y : spec_float) : SFltb x y = true → SFleb x y = true.
Proof.
  unfold SFltb, SFleb.
  destruct x as [sx|sx| |sx mx ex], y as [sy|sy| |sy my ey]; spec_float_cases.
Qed.

Lemma SFleb_neq_ltb (x y : spec_float) :
  SFleb x y = true → SFeqb y x = false → SFltb x y = true.
Proof.
  unfold SFltb, SFleb, SFeqb.
  destruct x as [sx|sx| |sx mx ex], y as [sy|sy| |sy my ey]; spec_float_cases.
Qed.

Lemma py_max_not_below (m d : float) :
  PrimFloat.leb 0 m = true → PrimFloat.leb 0 (py_max m [d]) = true.
Proof.
  intros Hm. cbn [py_max fold_left].
  destruct (PrimFloat.ltb m d) eqn:E; [|exact Hm].
  pose proof (FloatOrder.leb_ltb_trans _ _ _ Hm E) as Hd.
  rewrite ltb_spec in Hd. rewrite leb_spec. now apply SFltb_leb.
Qed.

Lemma max_duration_positive (m : float) :
  PrimFloat.leb 0 m = true →
  PrimFloat.ltb 0 (if PrimFloat.eqb m 0 then 1%float else m) = true.
Proof.
  intros Hm. destruct (PrimFloat.eqb m 0) eqn:E; [reflexivity|].
  rewrite leb_spec in Hm. rewrite FloatAxioms.eqb_spec in E. rewrite ltb_spec.
  now apply SFleb_neq_ltb.
Qed.

Lemma getitem_colors (n : Z) :
  ∃ c, getitem colors (n mod len colors) = Return c ∧ c ∈ colors.
Proof.
  change (len colors) with 8. unfold getitem.
  pose proof (Z.mod_pos_bound n 8 eq_refl) as Hb.
  destruct (Z.ltb_spec (n mod 8) 0) as [|_]; [lia|].
  destruct (Z.ltb_spec (n mod 8) 0) as [|_]; [lia|].
  destruct (lookup_lt_is_Some_2 colors (Z.to_nat (n mod 8))) as [c Hc].
  { change (length colors) with 8%nat. lia. }
  rewrite Hc. exists c. split; [reflexivity|].
  now apply list_elem_of_lookup_2 in Hc.
Qed.

Lemma zip_of_maps {A B C : Type} (f : A → B) (g : A → C) (l : list A) :
  zip (map f l) (map g l) = map (λ x, (f x, g x)) l.
Proof. induction l as [|x l IH]; [reflexivity|]. cbn. now rewrite IH. Qed.

Lemma filter_nil_existsb {A : Type} (f : A → bool) (l : list A) :
  List.filter f l = [] ↔ existsb f l = false.
Proof.
  induction l as [|x l IH]; [done|]. cbn [List.filter existsb].
  destruct (f x); cbn [orb]; [done | exact IH].
Qed.

Lemma flat_map_filter {A B : Type} (g : A → list B) (f : A → bool) (l : list A) :
  (∀ x, f x = false → g x = []) →
  flat_map g (List.filter f l) = flat_map g l.
Proof.
  intros Hg. induction l as [|x l IH]; [reflexivity|].
  cbn [List.filter flat_map]. destruct (f x) eqn:E.
  - cbn [flat_map]. now rewrite IH.
  - now rewrite (Hg x E), IH.
Qed.

Lemma entry_of_store_intro (store : gmap Z (list sample)) (e : experiment_plot)
    (start_time v0 : float) (rest : list sample) :
  store !! num e = Some ((start_time, v0) :: rest) →
  values e = map snd ((start_time, v0) :: rest) →
  times e = map (λ s : sample, PrimFloat.sub s.1 start_time) ((start_time, v0) :: rest) →
  length (smooth_values e) = length ((start_time, v0) :: rest) →
  color e ∈ colors →
  entry_of_store store e.
Proof. intros Hdata Hv Ht Hs Hc. unfold entry_of_store. now rewrite Hdata. Qed.

Lemma plot_experiment_step (store : gmap Z (list sample))
    (st : float * list experiment_plot) (n : Z) :
  if has_samples store n
  then ∃ d e, plot_experiment store st n = Return (py_max st.1 [d], st.2 ++ [e])
              ∧ num e = n ∧ entry_of_store store e
  else plot_experiment store st n = Return st.
Proof.
  unfold has_samples, plot_experiment. cbv zeta.
  destruct (store !! n) as [[|[start_time v0] rest]|] eqn:E; cbn [default];
    [reflexivity| |reflexivity].
  cbn [map fst snd].
  rewrite moving_average_returns by (unfold len; lia).
  destruct (getitem_colors n) as (c & -> & Hc).
  cbn [mbind exc_mbind exc_bind].
  eexists _, _. split; [reflexivity|]. split; [reflexivity|].
  apply (entry_of_store_intro store _ start_time v0 rest);
    cbn [num values times smooth_values color];
    [exact E | reflexivity | reflexivity | | exact Hc].
  rewrite moving_average_length. cbn [length]. now rewrite length_map.
Qed.

Lemma plot_experiments_spec (store : gmap Z (list sample)) (ns : list Z)
    (st : float * list experiment_plot) :
  ∃ md new,
    plot_experiments store ns st = Return (md, st.2 ++ new)
    ∧ map num new = List.filter (has_samples store) ns
    ∧ Forall (entry_of_store store) new
    ∧ (PrimFloat.leb 0 st.1 = true → PrimFloat.leb 0 md = true).
Proof.
  revert st. induction ns as [|n ns IH]; intros [m entries]; cbn [plot_experiments].
  - exists m, []. cbn [fst snd]. rewrite app_nil_r. repeat split; [constructor | done].
  - pose proof (plot_experiment_step store (m, entries) n) as Hstep.
    cbn [List.filter]. destruct (has_samples store n).
    + destruct Hstep as (d & e & -> & Hnum & He). cbn [mbind exc_mbind exc_bind fst snd].
      destruct (IH (py_max m [d], entries ++ [e])) as (md & new & -> & Hnums & Hall & Hmd).
      exists md, (e :: new). cbn [fst snd] in *. rewrite <- app_assoc.
      split; [reflexivity|]. split; [cbn [map]; now rewrite Hnum, Hnums|].
      split; [now constructor|].
      intros Hm. now apply Hmd, py_max_not_below.
    + rewrite Hstep. cbn [mbind exc_mbind exc_bind]. apply IH.
Qed.

Lemma experiment_points_of_store (store : gmap Z (list sample))
    (max_duration min_val val_range : float) (e : experiment_plot) :
  entry_of_store store e →
  experiment_points max_duration min_val val_range e
  = points_of store max_duration min_val val_range (num e).
Proof.
  unfold entry_of_store, experiment_points, points_of.
  destruct (default [] (store !! num e)) as [|[start_time v0] rest]; [done|].
  intros (-> & -> & _). now rewrite zip_of_maps, map_map.
Qed.

Lemma points_of_no_samples (store : gmap Z (list sample))
    (max_duration min_val val_range : float) (n : Z) :
  has_samples store n = false → points_of store max_duration min_val val_range n = [].
Proof.
  unfold has_samples, points_of.
  now destruct (default [] (store !! n)) as [|[start_time v0] rest].
Qed.

Lemma entry_has_values (store : gmap Z (list sample)) (e : experiment_plot) :
  entry_of_store store e → ∃ v vs, values e = v :: vs.
Proof.
  unfold entry_of_store.
  destruct (default [] (store !! num e)) as [|[start_time v0] rest]; [done|].
  intros (-> & _). cbn [map snd]. eauto.
Qed.

Lemma create_plot_without_samples (store : gmap Z (list sample)) (ns : list Z) :
  existsb (has_samples store) ns = false →
  create_plot store ns
  = Return (match ns with [] => NothingSelected | _ => NoDataWarning end).
Proof.
  intros Hnone. destruct ns as [|n ns]; [reflexivity|].
  unfold create_plot.
  destruct (plot_experiments_spec store (n :: ns) (0%float, []))
    as (md & new & -> & Hnums & _).
  apply filter_nil_existsb in Hnone. rewrite Hnone in Hnums.
  destruct new; [reflexivity | discriminate].
Qed.

Lemma create_plot_with_samples (store : gmap Z (list sample)) (ns : list Z) :
  existsb (has_samples store) ns = true →
  ∃ p, create_plot store ns = Return (Plotted p)
       ∧ map num (experiment_data p) = List.filter (has_samples store) ns
       ∧ Forall (entry_of_store store) (experiment_data p)
       ∧ PrimFloat.ltb 0 (plot_max_duration p) = true
       ∧ PrimFloat.leb (plot_val_range p) 0 = false
       ∧ all_points p
         = flat_map (points_of store (plot_max_duration p) (plot_min_val p)
                       (plot_val_range p)) ns.
Proof.
  intros Hsome. destruct ns as [|n ns]; [discriminate|].
  unfold create_plot.
  destruct (plot_experiments_spec store (n :: ns) (0%float, []))
    as (md & new & -> & Hnums & Hall & Hmd).
  cbn [mbind exc_mbind exc_bind fst snd app].
  destruct new as [|e new].
  { symmetry in Hnums. apply filter_nil_existsb in Hnums. congruence. }
  destruct (entry_has_values store e) as (v & vs & Hv); [now inversion Hall|].
  cbn [map concat]. rewrite Hv. cbn [app].
  eexists. split; [reflexivity|].
  cbn [experiment_data plot_max_duration plot_min_val plot_val_range all_points].
  split; [exact Hnums|]. split; [exact Hall|].
  split; [apply max_duration_positive, Hmd; reflexivity|]. split.
  - match goal with |- PrimFloat.leb (if PrimFloat.leb ?r 0 then _ else _) 0 = false =>
      destruct (PrimFloat.leb r 0) eqn:E; [reflexivity | exact E] end.
  - match goal with |- flat_map (experiment_points ?a ?b ?c) _ = _ =>
      generalize a b c end.
    intros max_duration min_val val_range.
    rewrite <- (flat_map_filter (points_of store max_duration min_val val_range)
                  (has_samples store)) by apply points_of_no_samples.
    rewrite <- Hnums. clear Hnums Hv.
    induction Hall as [|e' new' He' _ IH]; [reflexivity|].
    cbn [map flat_map]. now rewrite IH, (experiment_points_of_store store _ _ _ e' He').
Qed.

Lemma point_of_stored_sample (store : gmap Z (list sample)) (ns : list Z)
    (max_duration min_val val_range : float) (q : plot_point) :
  q ∈ flat_map (points_of store max_duration min_val val_range) ns →
  shows_stored_sample store ns q
  ∧ px q = to_canvas_x max_duration (t_off q)
  ∧ py q = to_canvas_y min_val val_range (val q).
Proof.
  intros Hq. apply list_elem_of_In, in_flat_map in Hq as (n & Hn & Hq).
  unfold points_of in Hq.
  destruct (store !! n) as [[|[start_time v0] rest]|] eqn:E; cbn [default] in Hq;
    [destruct Hq| |destruct Hq].
  apply in_map_iff in Hq as (s & <- & Hs). cbn [exp_num t_off val px py].
  split; [|done]. split; [now apply list_elem_of_In|].
  exists start_time, v0, rest, s. split; [exact E|].
  split; [now apply list_elem_of_In | done].
Qed.

(** X16: the loop of [create_plot] over the selected ids never raises,
    whatever ids are selected (negative ones and ids absent from the store
    included): it keeps, in the order of the selection, the ids that have
    samples, and makes of each an entry with the stored values, the times
    counted from the first sample, one smoothed value per sample and a
    colour of the palette. *)
Theorem plot_experiments_keeps_sampled (store : gmap Z (list sample)) (ns : list Z) :
  ∃ max_duration entries,
    plot_experiments store ns (0%float, []) = Return (max_duration, entries)
    ∧ map num entries = List.filter (has_samples store) ns
    ∧ Forall (entry_of_store store) entries.
Proof.
  destruct (plot_experiments_spec store ns (0%float, []))
    as (md & new & Hrun & Hnums & Hall & _).
  now exists md, new.
Qed.

(** X17: the length test that guards the smoothed line (line 604) never
    fails: the thick line is drawn for exactly the plotted experiments that
    have more than one sample. *)
Theorem smooth_line_rule (store : gmap Z (list sample)) (ns : list Z) :
  ∃ max_duration entries,
    plot_experiments store ns (0%float, []) = Return (max_duration, entries)
    ∧ Forall (λ e, smooth_line_drawn e
                   = (1 <? len (default [] (store !! num e)))) entries.
Proof.
  destruct (plot_experiments_spec store ns (0%float, []))
    as (md & new & Hrun & _ & Hall & _).
  exists md, new. split; [exact Hrun|].
  eapply Forall_impl; [exact Hall|]. intros e. unfold entry_of_store, smooth_line_drawn.
  destruct (default [] (store !! num e)) as [|[start_time v0] rest]; [done|].
  intros (_ & -> & Hlen & _). unfold len. rewrite Hlen, length_map, Z.eqb_refl.
  reflexivity.
Qed.

(** X18: which of its outcomes [create_plot] takes: it returns at once on
    an empty selection, warns that there is no data exactly when the
    selection is not empty and none of its ids has samples, and otherwise
    builds the plot; the second warning (no values, line 551) is never
    shown. *)
Theorem create_plot_outcome (store : gmap Z (list sample)) (ns : list Z) :
  ∃ outcome,
    create_plot store ns = Return outcome
    ∧ (outcome = NothingSelected ↔ ns = [])
    ∧ (outcome = NoDataWarning ↔ ns ≠ [] ∧ existsb (has_samples store) ns = false)
    ∧ outcome ≠ NoValuesWarning.
Proof.
  destruct (existsb (has_samples store) ns) eqn:E.
  - destruct (create_plot_with_samples store ns E) as (p & -> & _).
    eexists. split; [reflexivity|].
    split; [|split]; [split; [discriminate|intros ->; discriminate]
                     | split; [discriminate|now intros [_ ?]] | discriminate].
  - rewrite (create_plot_without_samples store ns E). eexists. split; [reflexivity|].
    destruct ns; (split; [|split]); try done; split; try done.
    now intros [? _].
Qed.

(** X19: when some selected id has samples the plot is built: its time
    scale is strictly positive, its value range is not at or below zero
    (it is positive or not a number), and the points offered to the hover
    query are, for each selected id in turn, the projections of its stored
    samples; an id selected twice contributes its points twice. *)
Theorem create_plot_points (store : gmap Z (list sample)) (ns : list Z) :
  existsb (has_samples store) ns = true →
  ∃ p, create_plot store ns = Return (Plotted p)
       ∧ PrimFloat.ltb 0 (plot_max_duration p) = true
       ∧ PrimFloat.leb (plot_val_range p) 0 = false
       ∧ all_points p
         = flat_map (points_of store (plot_max_duration p) (plot_min_val p)
                       (plot_val_range p)) ns.
Proof.
  intros Hsome.
  destruct (create_plot_with_samples store ns Hsome) as (p & Hp & _ & _ & Hmd & Hvr & Hpts).
  now exists p.
Qed.

Lemma create_plot_points_witness :
  ∃ p, create_plot store_for_plot [3; 2; 1; 2] = Return (Plotted p)
       ∧ PrimFloat.ltb 0 (plot_max_duration p) = true
       ∧ PrimFloat.leb (plot_val_range p) 0 = false
       ∧ all_points p
         = flat_map (points_of store_for_plot (plot_max_duration p) (plot_min_val p)
                       (plot_val_range p)) [3; 2; 1; 2].
Proof. apply (create_plot_points store_for_plot [3; 2; 1; 2]). reflexivity. Defined.

(** X20: the hover query run on a plot that [create_plot] built reports
    only what is stored: the point it returns carries the id of a selected
    experiment, the value of one of that experiment's samples and that
    sample's time counted from the experiment's first sample; it lies where
    the projection puts that sample, less than 15 pixels from the
    pointer. *)
Theorem hover_reports_stored_sample (hypot : float → float → float)
    (store : gmap Z (list sample)) (ns : list Z) :
  existsb (has_samples store) ns = true →
  ∃ p, create_plot store ns = Return (Plotted p)
       ∧ ∀ event_x event_y q,
           on_motion hypot event_x event_y (all_points p) = Some q →
           shows_stored_sample store ns q
           ∧ px q = to_canvas_x (plot_max_duration p) (t_off q)
           ∧ py q = to_canvas_y (plot_min_val p) (plot_val_range p) (val q)
           ∧ PrimFloat.ltb (dist_to hypot event_x event_y q) 15 = true.
Proof.
  intros Hsome.
  destruct (create_plot_with_samples store ns Hsome) as (p & Hp & _ & _ & _ & _ & Hpts).
  exists p. split; [exact Hp|]. intros event_x event_y q Hq.
  pose proof (on_motion_spec hypot event_x event_y (all_points p)) as Hspec.
  rewrite Hq in Hspec. destruct Hspec as (before & after & Heq & Hnear & _).
  assert (Hin : q ∈ all_points p).
  { rewrite Heq. apply elem_of_app. right. left. }
  rewrite Hpts in Hin. apply point_of_stored_sample in Hin as (Hs & Hx & Hy).
  done.
Qed.

Lemma hover_reports_stored_sample_witness :
  ∃ p, create_plot store_for_plot [1; 2] = Return (Plotted p)
       ∧ ∀ event_x event_y q,
           on_motion hypot_sqrt event_x event_y (all_points p) = Some q →
           shows_stored_sample store_for_plot [1; 2] q
           ∧ px q = to_canvas_x (plot_max_duration p) (t_off q)
           ∧ py q = to_canvas_y (plot_min_val p) (plot_val_range p) (val q)
           ∧ PrimFloat.ltb (dist_to hypot_sqrt event_x event_y q) 15 = true.
Proof.
  apply (hover_reports_stored_sample hypot_sqrt store_for_plot [1; 2]). reflexivity.
Defined.

(** ** Choosing what to analyse *)

Lemma checked_ids (check_vars : list (Z * bool)) (k : Z) :
  k ∈ map fst (List.filter snd check_vars) ↔ (k, true) ∈ check_vars.
Proof.
  rewrite !list_elem_of_In, in_map_iff. split.
  - intros ([k' b] & <- & [Hin Hb]%filter_In). cbn [fst snd] in *. now subst b.
  - intros Hin. exists (k, true). split; [reflexivity|]. now apply filter_In.
Qed.

Lemma default_boxes_selected (keys : list Z) :
  map fst (List.filter snd (map (λ k : Z, (k, true)) keys)) = keys.
Proof. induction keys as [|k keys IH]; [reflexivity|]. cbn. now rewrite IH. Qed.

Lemma has_samples_false (store : gmap Z (list sample)) (keys : list Z) :
  (∀ k, k ∈ keys ↔ k ∈ dom store) →
  existsb (has_samples store) keys = false
  ↔ ∀ k l, store !! k = Some l → l = [].
Proof.
  intros Hkeys. split.
  - intros Hnone k l Hl.
    assert (Hk : In k keys).
    { apply list_elem_of_In, Hkeys, elem_of_dom. eauto. }
    destruct l as [|s l]; [reflexivity|].
    assert (Hyes : existsb (has_samples store) keys = true).
    { apply existsb_exists. exists k. split; [exact Hk|].
      unfold has_samples. now rewrite Hl. }
    congruence.
  - intros Hempty. destruct (existsb (has_samples store) keys) eqn:E; [|reflexivity].
    apply existsb_exists in E as (k & _ & Hk). unfold has_samples in Hk.
    destruct (store !! k) as [l|] eqn:El; [|discriminate].
    now rewrite (Hempty k l El) in Hk.
Qed.

(** X21: pressing the button of the selection window never raises, whatever
    became of the store since the window was opened: it warns exactly when
    no box is checked, and it builds a plot exactly when some checked id
    has samples in the store as it is then. *)
Theorem do_analyze_builds_plot (check_vars : list (Z * bool)) (a : ArduinoDataApp) :
  ∃ r, do_analyze check_vars a = Return r
       ∧ (r = NoExperimentChosen ↔ ∀ k, (k, true) ∉ check_vars)
       ∧ ((∃ selected p, r = Analysed selected (Plotted p))
          ↔ ∃ k, (k, true) ∈ check_vars ∧ has_samples (experiments a) k = true).
Proof.
  unfold do_analyze. cbv zeta.
  pose proof (checked_ids check_vars) as Hsel.
  destruct (map fst (List.filter snd check_vars)) as [|k0 sel].
  - eexists. split; [reflexivity|]. split; split; try done.
    + intros _ k Hk. apply Hsel in Hk. inversion Hk.
    + intros (sel & p & ?). discriminate.
    + intros (k & Hk & _). apply Hsel in Hk. inversion Hk.
  - destruct (existsb (has_samples (experiments a)) (k0 :: sel)) eqn:E.
    + destruct (create_plot_with_samples _ _ E) as (p & -> & _).
      cbn [mbind exc_mbind exc_bind]. eexists. split; [reflexivity|].
      split; split; try done.
      * intros Hnone. destruct (Hnone k0). apply Hsel. left.
      * intros _. apply existsb_exists in E as (k & Hk & Hs).
        exists k. split; [now apply Hsel, list_elem_of_In | exact Hs].
      * intros _. eauto.
    + rewrite (create_plot_without_samples _ _ E).
      cbn [mbind exc_mbind exc_bind]. eexists. split; [reflexivity|].
      split; split; try done.
      * intros Hnone. destruct (Hnone k0). apply Hsel. left.
      * intros (sel' & p & ?). discriminate.
      * intros (k & Hk & Hs).
        assert (existsb (has_samples (experiments a)) (k0 :: sel) = true); [|congruence].
        apply existsb_exists. exists k. split; [now apply list_elem_of_In, Hsel | exact Hs].
Qed.

(** X22: with a store that is not empty, [analyze_data] offers the stored
    ids in ascending order, and pressing the button with the boxes as they
    are created (all checked) and the state unchanged analyses all of them:
    the plot is built unless every stored sequence is empty, in which case
    the warning about missing data is shown. *)
Theorem analyze_with_default_boxes (a : ArduinoDataApp) :
  experiments a ≠ ∅ →
  ∃ keys outcome,
    analyze_data a = Some keys
    ∧ StronglySorted Z.le keys
    ∧ (∀ k, k ∈ keys ↔ k ∈ dom (experiments a))
    ∧ do_analyze (map (λ k : Z, (k, true)) keys) a = Return (Analysed keys outcome)
    ∧ (outcome = NoDataWarning ∨ ∃ p, outcome = Plotted p)
    ∧ (outcome = NoDataWarning ↔ ∀ k l, experiments a !! k = Some l → l = []).
Proof.
  intros Hne. unfold analyze_data.
  rewrite (size_of_non_empty _ Hne).
  destruct (sorted_keys_spec (experiments a)) as [_ Hkeys].
  assert (Hsome : sorted_keys (experiments a) ≠ []).
  { intros Hnil. apply Hne, map_eq. intros k. rewrite lookup_empty.
    apply not_elem_of_dom. rewrite <- Hkeys, Hnil. inversion 1. }
  pose proof (has_samples_false (experiments a) _ Hkeys) as Hempty.
  pose proof (sorted_keys_sorted (experiments a)) as Hsorted.
  exists (sorted_keys (experiments a)).
  unfold do_analyze. cbv zeta. rewrite default_boxes_selected.
  destruct (sorted_keys (experiments a)) as [|k0 keys]; [done|].
  destruct (existsb (has_samples (experiments a)) (k0 :: keys)) eqn:E.
  - destruct (create_plot_with_samples _ _ E) as (p & -> & _).
    cbn [mbind exc_mbind exc_bind]. eexists. split; [reflexivity|].
    split; [exact Hsorted|]. split; [exact Hkeys|].
    split; [reflexivity|]. split; [right; eauto|].
    split; [discriminate|]. intros Hall. apply Hempty in Hall. discriminate.
  - rewrite (create_plot_without_samples _ _ E).
    cbn [mbind exc_mbind exc_bind]. eexists. split; [reflexivity|].
    split; [exact Hsorted|]. split; [exact Hkeys|].
    split; [reflexivity|]. split; [now left|].
    split; [intros _; now apply Hempty | reflexivity].
Qed.

Lemma analyze_with_default_boxes_witness :
  ∃ keys outcome,
    analyze_data session_with_empty_experiment = Some keys
    ∧ StronglySorted Z.le keys
    ∧ (∀ k, k ∈ keys ↔ k ∈ dom (experiments session_with_empty_experiment))
    ∧ do_analyze (map (λ k : Z, (k, true)) keys) session_with_empty_experiment
      = Return (Analysed keys outcome)
    ∧ (outcome = NoDataWarning ∨ ∃ p, outcome = Plotted p)
    ∧ (outcome = NoDataWarning
       ↔ ∀ k l, experiments session_with_empty_experiment !! k = Some l → l = []).
Proof.
  apply (analyze_with_default_boxes session_with_empty_experiment).
  cbn [session_with_empty_experiment set_current_experiment set_experiments experiments].
  apply insert_non_empty.
Defined.

(** ** A window that covers the whole series *)

Section MovingAverageWide.
Context {A : Type} `{Number A}.

Lemma window_at_whole (data : list A) (window_size : Z) (i : nat) :
  (i < length data)%nat → len data - 1 ≤ window_size / 2 →
  window_at data window_size i = data.
Proof.
  unfold window_at, slice, slice_index, len. intros Hi Hw.
  replace (Z.max 0 (Z.of_nat i - window_size / 2)) with 0 by lia.
  replace (Z.min (Z.of_nat (length data)) (Z.of_nat i + window_size / 2 + 1))
    with (Z.of_nat (length data)) by lia.
  change (0 <? 0) with false. cbv iota.
  destruct (Z.ltb_spec (Z.of_nat (length data)) 0) as [|_]; [lia|].
  replace (Z.to_nat (Z.min 0 (Z.of_nat (length data)))) with 0%nat by lia.
  replace (Z.to_nat (Z.min (Z.of_nat (length data)) (Z.of_nat (length data))))
    with (length data) by lia.
  rewrite Nat.sub_0_r, drop_0. now apply take_ge.
Qed.

(** X23: a window whose half reaches from one end of the series to the
    other averages the whole series at every index: each output is the mean
    of all the data.  In the plot this is the case of an experiment with
    two samples, smoothed with a window of 2. *)
Theorem moving_average_wide_window (data : list A) (window_size : Z) :
  1 < len data → len data - 1 ≤ window_size / 2 →
  moving_average data window_size
  = Return (replicate (length data) (divide_by_int (sum data) (len data))).
Proof.
  intros Hlen Hw.
  assert (0 ≤ window_size).
  { destruct (Z.le_gt_cases 0 window_size) as [|Hneg]; [assumption|].
    pose proof (Z.div_lt_upper_bound window_size 2 0 eq_refl). lia. }
  rewrite moving_average_returns by assumption.
  destruct (Z.leb_spec (len data) 1) as [|_]; [lia|]. f_equal.
  assert (Hall : ∀ indices, Forall (λ i, (i < length data)%nat) indices →
            map (average_at data window_size) indices
            = replicate (length indices) (divide_by_int (sum data) (len data))).
  { induction 1 as [|i indices Hi _ IH]; [reflexivity|].
    cbn [map length replicate]. rewrite IH. unfold average_at.
    now rewrite (window_at_whole data window_size i Hi Hw). }
  rewrite Hall, length_seq; [reflexivity|].
  apply Forall_forall. intros i Hi. apply elem_of_seq in Hi. lia.
Qed.

End MovingAverageWide.

Lemma moving_average_wide_window_witness :
  moving_average [1; 5]%float 2 = Return [3; 3]%float.
Proof.
  refine (eq_trans (moving_average_wide_window [1; 5]%float 2 _ _) _).
  - reflexivity.
  - vm_compute. discriminate.
  - vm_compute. reflexivity.
Defined.

(** ** The display *)

Section DisplayFacts.
Variable strftime_clock : float → option string.
Variable coin : nat → bool.

Lemma update_display_loop_spec (queue : list sample) (a : ArduinoDataApp) (i : nat)
    (d : display) :
  let r := update_display_loop strftime_clock coin i queue a d in
  ∃ taken,
    queue = taken ++ r.1
    ∧ value_label r.2 = match last taken with
                        | Some s => Some s.2
                        | None => value_label d
                        end
    ∧ (renders_from strftime_clock coin i queue = true →
       r.1 = []
       ∧ (queue ≠ [] →
          exp_label r.2 = current_experiment a
          ∧ count_label r.2 = match experiments a !! current_experiment a with
                              | Some l => len l
                              | None => count_label d
                              end)).
Proof.
  cbv zeta. revert i d. induction queue as [|[timestamp value] rest IH]; intros i d.
  - exists []. cbn. repeat split; done.
  - cbn [update_display_loop renders_from].
    assert (Hstep : ∀ d1,
      value_label d1 = Some value → count_label d1 = count_label d →
      let r := update_display_loop strftime_clock coin (S i) rest a
                 (update_display_info a d1) in
      ∃ taken,
        (timestamp, value) :: rest = taken ++ r.1
        ∧ value_label r.2 = match last taken with
                            | Some s => Some s.2
                            | None => value_label d
                            end
        ∧ (renders_from strftime_clock coin (S i) rest = true →
           r.1 = []
           ∧ ((timestamp, value) :: rest ≠ [] →
              exp_label r.2 = current_experiment a
              ∧ count_label r.2 = match experiments a !! current_experiment a with
                                  | Some l => len l
                                  | None => count_label d
                                  end))).
    { intros d1 Hv Hc. cbv zeta.
      destruct (IH (S i) (update_display_info a d1)) as (taken & Hq & Hlabel & Hdrain).
      exists ((timestamp, value) :: taken). split; [cbn [app]; now rewrite <- Hq|].
      split.
      - rewrite Hlabel, last_cons. destruct (last taken); [reflexivity|].
        cbn [update_display_info value_label]. exact Hv.
      - intros Hr. destruct (Hdrain Hr) as [Hnil Hlabels]. split; [exact Hnil|].
        intros _. destruct rest as [|s rest'].
        + cbn [update_display_loop snd update_display_info exp_label count_label].
          split; [reflexivity|].
          now destruct (experiments a !! current_experiment a).
        + destruct (Hlabels ltac:(discriminate)) as [He Hcount].
          split; [exact He|]. rewrite Hcount.
          cbn [update_display_info count_label].
          now destruct (experiments a !! current_experiment a). }
    destruct (coin i).
    + destruct (strftime_clock timestamp) as [ts|] eqn:E.
      * destruct (Hstep {| value_label := Some value; exp_label := exp_label d;
                           count_label := count_label d;
                           log_lines := log_lines d ++ [(ts, current_experiment a, value)] |}
                    eq_refl eq_refl) as (taken & Hq & Hlabel & Hdrain).
        exists taken. split; [exact Hq|]. split; [exact Hlabel|].
        intros Hr. apply andb_prop in Hr as [_ Hr]. now apply Hdrain.
      * exists [(timestamp, value)]. cbn [fst snd app last value_label].
        split; [reflexivity|]. split; [reflexivity|].
        intros Hr. apply andb_prop in Hr as [Hr _].
        apply bool_decide_eq_true in Hr. now destruct Hr.
    + destruct (Hstep {| value_label := Some value; exp_label := exp_label d;
                         count_label := count_label d; log_lines := log_lines d |}
                  eq_refl eq_refl) as (taken & Hq & Hlabel & Hdrain).
      exists taken. split; [exact Hq|]. split; [exact Hlabel|].
      intros Hr. apply andb_prop in Hr as [_ Hr]. now apply Hdrain.
Qed.

(** X24: one refresh takes samples from the front of the queue, in order,
    and leaves the rest on it; it touches nothing else of the state; the
    value label ends on the value of the last sample taken, also when a time
    stamp that cannot be rendered cuts the refresh short (that sample is
    taken, the ones behind it stay queued); and the refresh schedules itself
    again exactly while recording. *)
Theorem update_display_takes_prefix (a : ArduinoDataApp) (d : display) :
  let r := update_display strftime_clock coin a d in
  ∃ taken,
    data_queue a = taken ++ data_queue (app_state r)
    ∧ value_label (shown r) = match last taken with
                              | Some s => Some s.2
                              | None => value_label d
                              end
    ∧ experiments (app_state r) = experiments a
    ∧ current_experiment (app_state r) = current_experiment a
    ∧ is_recording (app_state r) = is_recording a
    ∧ rescheduled r = is_recording a.
Proof.
  cbv zeta. unfold update_display.
  destruct (update_display_loop_spec (data_queue a) a 0 d) as (taken & Hq & Hlabel & _).
  destruct (update_display_loop strftime_clock coin 0 (data_queue a) a d) as [queue d'].
  cbn [app_state shown rescheduled data_queue experiments current_experiment is_recording].
  exists taken. cbn [fst snd] in *. repeat split; assumption.
Qed.

(** X25: when every sample drawn for the log has a time stamp that can be
    rendered, a refresh of a queue that is not empty empties it, and the
    labels end on the active id, on the number of samples stored for it (the
    count is left as it was when the active id has no sequence) and on the
    value of the last queued sample. *)
Theorem update_display_drains (a : ArduinoDataApp) (d : display) (s : sample) :
  renders_from strftime_clock coin 0 (data_queue a) = true →
  last (data_queue a) = Some s →
  let r := update_display strftime_clock coin a d in
  data_queue (app_state r) = []
  ∧ value_label (shown r) = Some s.2
  ∧ exp_label (shown r) = current_experiment a
  ∧ count_label (shown r) = match experiments a !! current_experiment a with
                            | Some l => len l
                            | None => count_label d
                            end.
Proof.
  intros Hr Hlast. cbv zeta. unfold update_display.
  destruct (update_display_loop_spec (data_queue a) a 0 d) as (taken & Hq & Hlabel & Hdrain).
  destruct (update_display_loop strftime_clock coin 0 (data_queue a) a d) as [queue d'].
  cbn [app_state shown data_queue fst snd] in *.
  destruct (Hdrain Hr) as [-> Hlabels]. rewrite app_nil_r in Hq. subst taken.
  rewrite Hlast in Hlabel.
  destruct Hlabels as [He Hc]; [intros Hnil; now rewrite Hnil in Hlast|].
  done.
Qed.

End DisplayFacts.

Lemma update_display_drains_witness :
  data_queue (app_state example_refresh) = []
  ∧ value_label (shown example_refresh) = Some (1, 2.5)%float.2
  ∧ exp_label (shown example_refresh) = 2
  ∧ count_label (shown example_refresh) = 0.
Proof.
  apply (update_display_drains example_strftime Nat.even
           (put (1, 2.5)%float (put (0, 1)%float session_with_one_sample))
           initial_display (1, 2.5)%float).
  - vm_compute. reflexivity.
  - reflexivity.
Defined.

(** X26: acquisition followed by a refresh shows what was stored: when the
    values stored and delivered are finite, the queue was empty, at least one
    reading was delivered and no time stamp fails to render, the value label
    shows the value of the last sample of the active experiment's sequence,
    and the count label its length. *)
Theorem display_shows_last_stored (strftime_clock : float → option string)
    (coin : nat → bool) (feed : list (float * option float))
    (a : ArduinoDataApp) (old : list sample) (d : display) :
  is_recording a = true →
  experiments a !! current_experiment a = Some old →
  Forall finite_sample old →
  Forall (λ x, is_finite x = true) (readings feed) →
  data_queue a = [] →
  delivered feed ≠ [] →
  renders_from strftime_clock coin 0 (data_queue (collect_data feed a)) = true →
  let r := update_display strftime_clock coin (collect_data feed a) d in
  ∃ l s,
    experiments (app_state r) !! current_experiment (app_state r) = Some l
    ∧ last l = Some s
    ∧ value_label (shown r) = Some s.2
    ∧ count_label (shown r) = len l
    ∧ data_queue (app_state r) = [].
Proof.
  intros Hrec Hold Hfin Hfeed Hempty Hsome Hr. cbv zeta.
  destruct (collect_data_appends feed a old Hrec Hold Hfin Hfeed)
    as (new & Hstore & Hqueue & Htimes & _).
  assert (Hlookup : experiments (collect_data feed a) !! current_experiment a
                    = Some (old ++ new)).
  { rewrite Hstore. apply lookup_insert_eq. }
  clear Hstore. rewrite Hempty in Hqueue. cbn [app] in Hqueue.
  destruct (last new) as [s|] eqn:Hlast.
  2: { apply last_None in Hlast. rewrite Hlast in Htimes. cbn [map] in Htimes.
       now destruct Hsome. }
  assert (Hlast' : last (data_queue (collect_data feed a)) = Some s) by now rewrite Hqueue.
  destruct (update_display_loop_spec strftime_clock coin
              (data_queue (collect_data feed a)) (collect_data feed a) 0 d)
    as (taken & Hq & Hlabel & Hdrain).
  unfold update_display.
  destruct (update_display_loop strftime_clock coin 0 _ (collect_data feed a) d)
    as [queue d'].
  cbn [app_state shown data_queue experiments current_experiment fst snd] in *.
  destruct (Hdrain Hr) as [-> Hlabels]. rewrite app_nil_r in Hq. subst taken.
  rewrite Hlast' in Hlabel.
  destruct Hlabels as [_ Hc]; [intros Hnil; now rewrite Hnil in Hlast'|].
  rewrite collect_data_current in *. rewrite Hlookup in Hc.
  exists (old ++ new), s. split; [exact Hlookup|].
  split; [|done].
  apply last_app_Some. left. exact Hlast.
Qed.

Lemma display_shows_last_stored_witness :
  ∃ l s,
    experiments (app_state example_acquisition_refresh)
      !! current_experiment (app_state example_acquisition_refresh) = Some l
    ∧ last l = Some s
    ∧ value_label (shown example_acquisition_refresh) = Some s.2
    ∧ count_label (shown example_acquisition_refresh) = len l
    ∧ data_queue (app_state example_acquisition_refresh) = [].
Proof.
  apply (display_shows_last_stored example_strftime (λ _, false)
           [(0, Some 1); (1, None); (1, Some 2.5)]%float
           (start_experiment simulator_env init) [] initial_display).
  - reflexivity.
  - reflexivity.
  - constructor.
  - repeat constructor.
  - reflexivity.
  - vm_compute. discriminate.
  - vm_compute. reflexivity.
Defined.

(** X27: after a stop the experiment label moves on to the next id while
    the count label keeps the count it showed: when every stored id is at
    most the active one, the new active id has no sequence, and
    [update_display_info] then leaves the count untouched. *)
Theorem labels_after_stop (a : ArduinoDataApp) (d : display) :
  ids_up_to_active a →
  ∃ a', stop_experiment a = Return a'
        ∧ exp_label (update_display_info a' d) = current_experiment a + 1
        ∧ count_label (update_display_info a' d) = count_label d
        ∧ value_label (update_display_info a' d) = value_label d.
Proof.
  intros Hinv. rewrite stop_experiment_returns. eexists. split; [reflexivity|].
  cbn [update_display_info exp_label count_label value_label experiments
       current_experiment].
  assert (Hnone : experiments a !! (current_experiment a + 1) = None).
  { apply not_elem_of_dom. intros Hk%Hinv. lia. }
  now rewrite Hnone.
Qed.

Lemma labels_after_stop_witness :
  ∃ a', stop_experiment init = Return a'
        ∧ exp_label (update_display_info a' initial_display) = current_experiment init + 1
        ∧ count_label (update_display_info a' initial_display)
          = count_label initial_display
        ∧ value_label (update_display_info a' initial_display)
          = value_label initial_display.
Proof.
  apply (labels_after_stop init initial_display).
  intros k Hk. cbn [init experiments] in Hk. now rewrite dom_empty_L in Hk.
Defined.
